(** * CineScript AI: a shallow embedding of the storyboard application

    The development follows the TypeScript sources:
    - [src/services/geminiService.ts]  (module [GeminiService]),
    - [src/App.tsx], second variant with the settings panel (module [App]),
    - [src/components/ApiKeyModal.tsx], the [HistoryList] component
      (module [HistoryList]),
    - [src/components/ImageUpload.tsx], the [StoryboardViewer] component with
      the master board (module [StoryboardViewer]).

    Asynchronous functions are written in an event-logging error monad; React
    state is passed explicitly, and a handler reads the state of the render
    that created it (its closure) while functional updates
    ([setX(prev => ...)]) act on the current state. *)

From stdpp Require Import gmap strings list pretty.
From Stdlib Require Import ZArith QArith Permutation Sorted Lqa.

Close Scope Q_scope.
Open Scope string_scope.
Open Scope list_scope.
Set Warnings "-register-all".

(* ===================================================================== *)
(** * JavaScript values and operators used by the sources                *)
(* ===================================================================== *)

Module Js.

(** Truthiness of a [string | null | undefined]: [null], [undefined] and the
    empty string are falsy. *)
Definition truthy (v : option string) : bool :=
  match v with
  | Some s => negb (String.eqb s "")
  | None => false
  end.

(** [a || b] on such values. *)
Definition or_else (a b : option string) : option string :=
  if truthy a then a else b.

(** [a || "literal"]. *)
Definition or_default (a : option string) (d : string) : string :=
  match a with
  | Some s => if String.eqb s "" then d else s
  | None => d
  end.

(** [s.includes(sub)]. *)
Fixpoint includes (s sub : string) : bool :=
  String.prefix sub s
  || match s with
     | EmptyString => false
     | String _ s' => includes s' sub
     end.

(** [err.message?.includes(sub)], used as a condition. *)
Definition message_includes (message : option string) (sub : string) : bool :=
  match message with
  | Some m => includes m sub
  | None => false
  end.

(** Values produced by [JSON.parse].  An array carries, besides its items,
    the named properties assigned to it afterwards. *)
Inductive Value : Type :=
| VNull
| VBool (b : bool)
| VNum (q : Q)
| VStr (s : string)
| VArr (items : list Value) (props : list (string * Value))
| VObj (props : list (string * Value)).

(** Property tables keep insertion order; keys are unique. *)
Fixpoint props_get (k : string) (ps : list (string * Value)) : option Value :=
  match ps with
  | [] => None
  | (k', v) :: ps' => if String.eqb k k' then Some v else props_get k ps'
  end.

Fixpoint props_set (k : string) (v : Value) (ps : list (string * Value))
  : list (string * Value) :=
  match ps with
  | [] => [(k, v)]
  | (k', v') :: ps' =>
      if String.eqb k k' then (k', v) :: ps' else (k', v') :: props_set k v ps'
  end.

(** [o.k] for a named (non-index) key. *)
Definition get (k : string) (o : Value) : option Value :=
  match o with
  | VObj ps => props_get k ps
  | VArr _ ps => props_get k ps
  | _ => None
  end.

(** [o.k = v] in strict mode (the sources are ES modules): objects and arrays
    take the property, [null] and primitives raise a [TypeError]. *)
Definition set (k : string) (v : Value) (o : Value) : option Value :=
  match o with
  | VObj ps => Some (VObj (props_set k v ps))
  | VArr items ps => Some (VArr items (props_set k v ps))
  | _ => None
  end.

(** A thrown value, seen through [err.message] (absent on values that are not
    [Error]s, such as the event a failed [FileReader] rejects with). *)
Record Thrown : Type := { message : option string }.

Definition Error (msg : string) : Thrown := {| message := Some msg |}.

End Js.

(* ===================================================================== *)
(** * Shared data model ([types.ts])                                     *)
(* ===================================================================== *)

Inductive AppState := UPLOAD | ANALYZING | STORYBOARD | EDITOR | HISTORY.
Inductive VideoModel := VEO3 | Sora2.
Inductive VideoDuration := D8s | D10s | D15s.
Inductive ImageGenModel := NanoBanana | NanoBananaPro.
Inductive InputType := IMAGE | TEXT.
Inductive AspectRatio := R9x16 | R16x9.

(** The string an [AspectRatio] is at run time. *)
Definition AspectRatio_string (r : AspectRatio) : string :=
  match r with
  | R9x16 => "9:16"
  | R16x9 => "16:9"
  end.

Record GenerationOptions := {
  model : VideoModel;
  duration : VideoDuration;
  imageModel : ImageGenModel;
  inputType : InputType;
  aspectRatio : AspectRatio
}.

(** A browser [File]: its MIME type and what [readAsDataURL] yields for it
    ([None] when the reader fires [onerror]). *)
Record File := {
  file_type : string;
  file_dataURL : option string
}.

(** [File | string]. *)
Inductive Input :=
| InFile (f : File)
| InText (s : string).

(** [SavedStoryboard].  [data] is whatever [generateStoryboard] returned: the
    cast [as StoryboardData] is unchecked. *)
Module SavedStoryboard.
Record t := {
  id : string;
  timestamp : Z;
  data : Js.Value;
  options : GenerationOptions;
  previewImage : option string
}.
End SavedStoryboard.

(** [Keyframe]. *)
Module Keyframe.
Record t := {
  id : Z;
  shotType : string;
  duration : string;
  composition : string;
  action : string;
  dialogue : string;
  camera : string;
  lensDoF : string;
  lighting : string;
  sound : string
}.
End Keyframe.

Record SceneBreakdown := {
  subjects : string;
  characters : string;
  environmentLighting : string;
  visualAnchors : list string
}.

Record EmotionalArc := {
  setup : string;
  build : string;
  turn : string;
  payoff : string
}.

Record ThemeStory := {
  theme : string;
  logline : string;
  emotionalArc : EmotionalArc
}.

Record CinematicApproach := {
  shotProgression : string;
  cameraMovement : string;
  lensExposure : string;
  lightColor : string
}.

(** [Headline]: the viewer imports it from [types.ts] and reads its two
    lines; the response schema of the service variant that produces it
    declares both as strings. *)
Record Headline := {
  line1 : string;
  line2 : string
}.

(** An audition clip and an audition character, as the response schema of
    [geminiService.ts] declares them. *)
Module AuditionClip.
Record t := {
  id : string;
  composition : string;
  action : string;
  dialogue : string
}.
End AuditionClip.

Record AuditionCharacter := {
  characterName : string;
  appearance : string;
  clips : list AuditionClip.t
}.

(** [StoryboardData] as the viewer types it: the fields of [types.ts], and
    those the response schemas add in later variants ([aspectRatio],
    [headline], which the viewer reads unconditionally, and [auditions]). *)
Module StoryboardData.
Record t := {
  sourceScript : option string;
  aspectRatio : option string;
  headline : Headline;
  breakdown : SceneBreakdown;
  theme : ThemeStory;
  approach : CinematicApproach;
  keyframes : list Keyframe.t;
  auditions : option (list AuditionCharacter)
}.
End StoryboardData.

(** Browser local storage, restricted to the two keys the application uses:
    ['cinescript_api_key'] (a raw string) and ['cinescript_history_v2'] (the
    history array; [JSON.stringify] / [JSON.parse] on it are left implicit). *)
Record Storage := {
  cinescript_api_key : option string;
  cinescript_history_v2 : option (list SavedStoryboard.t)
}.

(** What a handler can read of its surroundings: local storage and
    [process.env.API_KEY]. *)
Record World := {
  localStorage : Storage;
  env_API_KEY : option string
}.

(* ===================================================================== *)
(** * Asynchronous code: an event-logging error monad                    *)
(* ===================================================================== *)

(** A part of a request to the generative service.  The constant wording of
    the prompt templates is left out; their holes are kept. *)
Inductive Part :=
| InlineData (mimeType : string) (data : option string)
| ContextText (input : string)
| DirectorPrompt (ratio : AspectRatio)
| KeyframePrompt (ratio : AspectRatio) (characterContext : option string)
    (prompt : string)
| EditPrompt (prompt : string).

Record ImageConfig := {
  cfg_aspectRatio : AspectRatio;
  cfg_imageSize : option string
}.

Record Request := {
  req_model : string;
  req_parts : list Part;
  req_json_schema : bool;
  req_imageConfig : option ImageConfig
}.

(** [part.inlineData] of a response part. *)
Record Blob := {
  blob_mimeType : option string;
  blob_data : string
}.

Record Candidate := { content_parts : list (option Blob) }.

Record Response := {
  text : option string;
  candidates : option (list Candidate)
}.

(** What the program does to the outside, in order. *)
Inductive Event :=
| NewClient (apiKey : string)
| ReadFile (f : File)
| GenerateContent (apiKey : string) (req : Request).

(** The outside: the service behind [ai.models.generateContent], the
    engine's [JSON.parse] (a [SyntaxError] message on failure), the message
    of the [TypeError] raised by a property assignment, and what
    [localStorage.setItem] throws, if anything, when the history is written
    over the given storage (the quota may be exceeded). *)
Record Externals := {
  generateContent : string -> Request -> Js.Thrown + Response;
  JSON_parse : string -> string + Js.Value;
  typeError_message : Js.Value -> string;
  localStorage_setItem : Storage -> list SavedStoryboard.t -> option Js.Thrown
}.

(** A computation: the events it performed and whether it threw. *)
Definition Eff (A : Type) : Type := list Event * (Js.Thrown + A).

Definition throw {A} (e : Js.Thrown) : Eff A := ([], inl e).
Definition emit (ev : Event) : Eff unit := ([ev], inr tt).

#[global] Instance Eff_ret : MRet Eff := fun A a => ([], inr a).

#[global] Instance Eff_bind : MBind Eff := fun A B k c =>
  match c with
  | (evs, inl e) => (evs, inl e)
  | (evs, inr a) => let '(evs', r) := k a in (evs ++ evs', r)
  end.

(** Lift the answer of an external call. *)
Definition lift {A} (r : Js.Thrown + A) : Eff A := ([], r).

(** What an observer sees of a run: events and the thrown value, if any. *)
Definition events {A} (c : Eff A) : list Event := fst c.

Definition thrown {A} (c : Eff A) : option Js.Thrown :=
  match snd c with
  | inl e => Some e
  | inr _ => None
  end.

Definition returned {A} (c : Eff A) : option A :=
  match snd c with
  | inl _ => None
  | inr a => Some a
  end.

(* ===================================================================== *)
(** * The service adapter ([services/geminiService.ts])                  *)
(* ===================================================================== *)

Module GeminiService.

Definition MISSING_KEY : string := "API 키가 설정되지 않았습니다.".
Definition NO_RESPONSE : string := "Failed to receive response from Gemini.".
Definition NO_IMAGE : string := "Failed to generate image.".
Definition NO_EDIT : string := "Editing failed.".

(** [getApiKey]: [savedKey || process.env.API_KEY || ""]. *)
Definition getApiKey (W : World) : string :=
  let savedKey := cinescript_api_key (localStorage W) in
  Js.or_default (Js.or_else savedKey (env_API_KEY W)) "".

(** [s.split(',')[1]]: the text between the first comma and the next one;
    [undefined] when [s] has no comma. *)
Definition comma : Ascii.ascii := Ascii.ascii_of_nat 44.

Fixpoint until_comma (s : string) : string :=
  match s with
  | EmptyString => EmptyString
  | String c s' =>
      if Ascii.eqb c comma then EmptyString else String c (until_comma s')
  end.

Fixpoint split_comma_1 (s : string) : option string :=
  match s with
  | EmptyString => None
  | String c s' =>
      if Ascii.eqb c comma then Some (until_comma s') else split_comma_1 s'
  end.

(** [fileToGenerativePart]: rejects with the reader's error event, which
    has no [message]. *)
Definition fileToGenerativePart (file : File) : Eff (option string) :=
  emit (ReadFile file);;
  match file_dataURL file with
  | Some base64String => mret (split_comma_1 base64String)
  | None => throw {| Js.message := None |}
  end.

(** [new GoogleGenAI({ apiKey })] followed later by
    [ai.models.generateContent(req)]. *)
Definition models_generateContent (X : Externals) (apiKey : string)
    (req : Request) : Eff Response :=
  emit (GenerateContent apiKey req);;
  lift (generateContent X apiKey req).

Definition generateStoryboard (W : World) (X : Externals) (input : Input)
    (options : GenerationOptions) : Eff Js.Value :=
  let apiKey := getApiKey W in
  if negb (Js.truthy (Some apiKey)) then throw (Js.Error MISSING_KEY) else
  emit (NewClient apiKey);;
  contentParts ←
    match inputType options, input with
    | IMAGE, InFile f =>
        base64Data ← fileToGenerativePart f;
        mret [InlineData (file_type f) base64Data]
    | _, InText s => mret [ContextText s]
    | TEXT, InFile _ => mret []
    end;
  let contentParts := contentParts ++ [DirectorPrompt (aspectRatio options)] in
  response ← models_generateContent X apiKey
    {| req_model := "gemini-3-pro-preview";
       req_parts := contentParts;
       req_json_schema := true;
       req_imageConfig := None |};
  match text response with
  | Some t =>
      if negb (Js.truthy (Some t)) then throw (Js.Error NO_RESPONSE) else
      match JSON_parse X t with
      | inl syntaxError => throw (Js.Error syntaxError)
      | inr data =>
          (* data.aspectRatio = options.aspectRatio *)
          match Js.set "aspectRatio"
                  (Js.VStr (AspectRatio_string (aspectRatio options))) data with
          | Some data' => mret data'
          | None => throw (Js.Error (typeError_message X data))
          end
      end
  | None => throw (Js.Error NO_RESPONSE)
  end.

(** The loop both image operations end with: the first part of the first
    candidate that carries inline data, as a data URL. *)
Definition dataURL (b : Blob) : string :=
  String.append "data:"
    (String.append (Js.or_default (blob_mimeType b) "image/png")
       (String.append ";base64," (blob_data b))).

Fixpoint first_inlineData (parts : list (option Blob)) : option string :=
  match parts with
  | [] => None
  | Some b :: _ => Some (dataURL b)
  | None :: parts' => first_inlineData parts'
  end.

Definition extract_image (response : Response) (failure : string) : Eff string :=
  match candidates response with
  | Some (candidate :: _) =>
      match first_inlineData (content_parts candidate) with
      | Some url => mret url
      | None => throw (Js.Error failure)
      end
  | _ => throw (Js.Error failure)
  end.

Definition generateKeyframeImage (W : World) (X : Externals) (prompt : string)
    (originalFile : option File) (modelType : ImageGenModel)
    (ratio : AspectRatio) (characterContext : option string) : Eff string :=
  let apiKey := getApiKey W in
  if negb (Js.truthy (Some apiKey)) then throw (Js.Error MISSING_KEY) else
  emit (NewClient apiKey);;
  let modelName :=
    match modelType with
    | NanoBananaPro => "gemini-3-pro-image-preview"
    | NanoBanana => "gemini-2.5-flash-image"
    end in
  let fullPrompt :=
    KeyframePrompt ratio
      (if Js.truthy characterContext then characterContext else None) prompt in
  parts ←
    match originalFile with
    | Some f =>
        base64Data ← fileToGenerativePart f;
        mret [InlineData (file_type f) base64Data; fullPrompt]
    | None => mret [fullPrompt]
    end;
  response ← models_generateContent X apiKey
    {| req_model := modelName;
       req_parts := parts;
       req_json_schema := false;
       req_imageConfig :=
         Some {| cfg_aspectRatio := ratio;
                 cfg_imageSize :=
                   match modelType with
                   | NanoBananaPro => Some "1K"
                   | NanoBanana => None
                   end |} |};
  extract_image response NO_IMAGE.

Definition editImageWithPrompt (W : World) (X : Externals)
    (originalFile : File) (prompt : string) : Eff string :=
  let apiKey := getApiKey W in
  if negb (Js.truthy (Some apiKey)) then throw (Js.Error MISSING_KEY) else
  emit (NewClient apiKey);;
  base64Data ← fileToGenerativePart originalFile;
  response ← models_generateContent X apiKey
    {| req_model := "gemini-2.5-flash-image";
       req_parts := [InlineData (file_type originalFile) base64Data;
                     EditPrompt prompt];
       req_json_schema := false;
       req_imageConfig := None |};
  extract_image response NO_EDIT.

End GeminiService.

(* ===================================================================== *)
(** * The history list ([HistoryList] component)                         *)
(* ===================================================================== *)

Module HistoryList.

(** [Array.prototype.sort(compareFn)]: a stable sort; [compareFn a b > 0]
    puts [a] after [b].  [insert x l] places [x], which stood before every
    element of [l], into the sorted [l]. *)
Fixpoint insert {A} (compareFn : A -> A -> Z) (x : A) (l : list A) : list A :=
  match l with
  | [] => [x]
  | y :: l' =>
      if (0 <? compareFn x y)%Z then y :: insert compareFn x l'
      else x :: y :: l'
  end.

Definition Array_sort {A} (compareFn : A -> A -> Z) (l : list A) : list A :=
  foldr (insert compareFn) [] l.

(** [(a, b) => b.timestamp - a.timestamp]. *)
Definition by_timestamp_desc (a b : SavedStoryboard.t) : Z :=
  (SavedStoryboard.timestamp b - SavedStoryboard.timestamp a)%Z.

(** Rendering: the rows shown, in order.  [items.sort(...)] sorts the array
    it is given in place and returns it, so the result is also the content of
    the caller's array after the render.  (For an empty array the component
    returns the placeholder before sorting; the array stays empty.) *)
Definition render (items : list SavedStoryboard.t) : list SavedStoryboard.t :=
  match items with
  | [] => []
  | _ => Array_sort by_timestamp_desc items
  end.

End HistoryList.

(* ===================================================================== *)
(** * The application shell ([App.tsx])                                  *)
(* ===================================================================== *)

Module App.

Definition MSG_NO_KEY : string :=
  "API 키가 설정되지 않았습니다. 설정에서 Gemini API 키를 입력해주세요.".
Definition MSG_GENERIC : string :=
  "스토리보드를 생성하는 도중 오류가 발생했습니다.".
Definition MSG_AUTH : string :=
  "API 키 인증에 실패했습니다. 설정에서 키를 확인해주세요.".
Definition MSG_FORMAT : string :=
  "AI가 유효한 데이터 형식을 생성하지 못했습니다. 다시 시도해주세요.".
Definition MSG_NOT_FOUND : string :=
  "유효하지 않은 프로젝트이거나 API 키가 올바르지 않습니다.".

(** The component's [useState] cells. *)
Record State := {
  appState : AppState;
  selectedImage : option File;
  previewImageData : option string;
  selectedText : string;
  storyboardData : option Js.Value;
  error : option string;
  selectedOptions : option GenerationOptions;
  history : list SavedStoryboard.t;
  hasKey : bool;
  isSettingsOpen : bool
}.

Definition initial : State :=
  {| appState := UPLOAD; selectedImage := None; previewImageData := None;
     selectedText := ""; storyboardData := None; error := None;
     selectedOptions := None; history := []; hasKey := false;
     isSettingsOpen := false |}.

Definition setAppState (v : AppState) (s : State) : State :=
  {| appState := v; selectedImage := selectedImage s;
     previewImageData := previewImageData s; selectedText := selectedText s;
     storyboardData := storyboardData s; error := error s;
     selectedOptions := selectedOptions s; history := history s;
     hasKey := hasKey s; isSettingsOpen := isSettingsOpen s |}.

Definition setSelectedImage (v : option File) (s : State) : State :=
  {| appState := appState s; selectedImage := v;
     previewImageData := previewImageData s; selectedText := selectedText s;
     storyboardData := storyboardData s; error := error s;
     selectedOptions := selectedOptions s; history := history s;
     hasKey := hasKey s; isSettingsOpen := isSettingsOpen s |}.

Definition setPreviewImageData (v : option string) (s : State) : State :=
  {| appState := appState s; selectedImage := selectedImage s;
     previewImageData := v; selectedText := selectedText s;
     storyboardData := storyboardData s; error := error s;
     selectedOptions := selectedOptions s; history := history s;
     hasKey := hasKey s; isSettingsOpen := isSettingsOpen s |}.

Definition setSelectedText (v : string) (s : State) : State :=
  {| appState := appState s; selectedImage := selectedImage s;
     previewImageData := previewImageData s; selectedText := v;
     storyboardData := storyboardData s; error := error s;
     selectedOptions := selectedOptions s; history := history s;
     hasKey := hasKey s; isSettingsOpen := isSettingsOpen s |}.

Definition setStoryboardData (v : option Js.Value) (s : State) : State :=
  {| appState := appState s; selectedImage := selectedImage s;
     previewImageData := previewImageData s; selectedText := selectedText s;
     storyboardData := v; error := error s;
     selectedOptions := selectedOptions s; history := history s;
     hasKey := hasKey s; isSettingsOpen := isSettingsOpen s |}.

Definition setError (v : option string) (s : State) : State :=
  {| appState := appState s; selectedImage := selectedImage s;
     previewImageData := previewImageData s; selectedText := selectedText s;
     storyboardData := storyboardData s; error := v;
     selectedOptions := selectedOptions s; history := history s;
     hasKey := hasKey s; isSettingsOpen := isSettingsOpen s |}.

Definition setSelectedOptions (v : option GenerationOptions) (s : State) : State :=
  {| appState := appState s; selectedImage := selectedImage s;
     previewImageData := previewImageData s; selectedText := selectedText s;
     storyboardData := storyboardData s; error := error s;
     selectedOptions := v; history := history s;
     hasKey := hasKey s; isSettingsOpen := isSettingsOpen s |}.

Definition setHistory (v : list SavedStoryboard.t) (s : State) : State :=
  {| appState := appState s; selectedImage := selectedImage s;
     previewImageData := previewImageData s; selectedText := selectedText s;
     storyboardData := storyboardData s; error := error s;
     selectedOptions := selectedOptions s; history := v;
     hasKey := hasKey s; isSettingsOpen := isSettingsOpen s |}.

Definition setHasKey (v : bool) (s : State) : State :=
  {| appState := appState s; selectedImage := selectedImage s;
     previewImageData := previewImageData s; selectedText := selectedText s;
     storyboardData := storyboardData s; error := error s;
     selectedOptions := selectedOptions s; history := history s;
     hasKey := v; isSettingsOpen := isSettingsOpen s |}.

Definition setIsSettingsOpen (v : bool) (s : State) : State :=
  {| appState := appState s; selectedImage := selectedImage s;
     previewImageData := previewImageData s; selectedText := selectedText s;
     storyboardData := storyboardData s; error := error s;
     selectedOptions := selectedOptions s; history := history s;
     hasKey := hasKey s; isSettingsOpen := v |}.

(** [localStorage.setItem(STORAGE_KEY, JSON.stringify(v))] and
    [localStorage.removeItem(STORAGE_KEY)]. *)
Definition store_history (v : option (list SavedStoryboard.t)) (st : Storage)
  : Storage :=
  {| cinescript_api_key := cinescript_api_key st; cinescript_history_v2 := v |}.

(** The mount effect: the key status, then the saved history.  An absent key
    leaves the history empty. *)
Definition mount (W : World) (s : State) : State :=
  let savedKey := cinescript_api_key (localStorage W) in
  let s := setHasKey (Js.truthy savedKey || Js.truthy (env_API_KEY W)) s in
  match cinescript_history_v2 (localStorage W) with
  | Some parsed => setHistory parsed s
  | None => s
  end.

Definition handleKeySave (W : World) (key : string) (s : State) : State :=
  setHasKey (Js.truthy (Some key) || Js.truthy (env_API_KEY W)) s.

Definition handleViewHistoryItem (item : SavedStoryboard.t) (s : State) : State :=
  setAppState STORYBOARD
    (setSelectedImage None
      (setPreviewImageData (SavedStoryboard.previewImage item)
        (setSelectedOptions (Some (SavedStoryboard.options item))
          (setStoryboardData (Some (SavedStoryboard.data item)) s)))).

(** [deleteFromHistory]: the new state and the new content of local storage. *)
Definition deleteFromHistory (id : string) (st : Storage) (s : State)
  : State * Storage :=
  let updated :=
    filter (fun item => SavedStoryboard.id item ≠ id) (history s) in
  (setHistory updated s, store_history (Some updated) st).

Definition clearHistory (st : Storage) (s : State) : State * Storage :=
  (setHistory [] s, store_history None st).

Definition handleOpenSettings (s : State) : State := setIsSettingsOpen true s.

Definition handleReset (s : State) : State :=
  setSelectedOptions None
    (setError None
      (setStoryboardData None
        (setSelectedText ""
          (setPreviewImageData None
            (setSelectedImage None
              (setAppState UPLOAD s)))))).

(** The header's history button. *)
Definition toggleHistory (s : State) : State :=
  match appState s with
  | HISTORY => setAppState UPLOAD s
  | _ => setAppState HISTORY s
  end.

(** A render of the shell.  In the [HISTORY] view the [history] array itself
    is handed to [HistoryList] as [items], whose in-place sort therefore
    reorders the shell's array too.  The result: the state after the render
    and the rows shown, if the list is on screen. *)
Definition render (s : State) : State * option (list SavedStoryboard.t) :=
  match appState s with
  | HISTORY =>
      let rows := HistoryList.render (history s) in
      (setHistory rows s, Some rows)
  | _ => (s, None)
  end.

(** Two successive readings of [Date.now()]. *)
Record Clock := { now_id : Z; now_timestamp : Z }.

(** [saveToHistory].  [history0] is the [history] of the render whose
    [handleGenerate] is running.  A preview that cannot be read is skipped
    (the [catch] only logs).  [setHistory] comes before the write to local
    storage, which is outside that [catch]: when [setItem] throws, the state
    has the new list, local storage keeps what it had, and the function
    rejects with what was thrown.  The result: the events, the state, local
    storage, and what the function rejected with, if it did. *)
Definition saveToHistory
    (setItem : Storage -> list SavedStoryboard.t -> option Js.Thrown)
    (clock : Clock) (history0 : list SavedStoryboard.t)
    (data : Js.Value) (options : GenerationOptions) (imageFile : option File)
    (st : Storage) (s : State)
  : list Event * (State * (Storage * option Js.Thrown)) :=
  let '(evs, base64Image) :=
    match imageFile with
    | Some f =>
        match GeminiService.fileToGenerativePart f with
        | (evs, inr rawData) =>
            (evs,
             Some (String.append "data:"
                    (String.append (file_type f)
                      (String.append ";base64," (default "undefined" rawData)))))
        | (evs, inl _) => (evs, None)
        end
    | None => ([], None)
    end in
  let newItem :=
    {| SavedStoryboard.id := pretty (now_id clock);
       SavedStoryboard.timestamp := now_timestamp clock;
       SavedStoryboard.data := data;
       SavedStoryboard.options := options;
       SavedStoryboard.previewImage := base64Image |} in
  let updatedHistory := newItem :: history0 in
  let rejected := setItem st updatedHistory in
  (evs,
   (setHistory updatedHistory s,
    (match rejected with
     | None => store_history (Some updatedHistory) st
     | Some _ => st
     end,
     rejected))).

(** The message [handleGenerate]'s [catch] shows, and whether it opens the
    settings panel. *)
Definition failure_message (err : Js.Thrown) : string * bool :=
  if Js.message_includes (Js.message err) "API key" then (MSG_AUTH, true)
  else if Js.message_includes (Js.message err) "JSON" then (MSG_FORMAT, false)
  else if Js.message_includes (Js.message err) "Requested entity was not found"
       then (MSG_NOT_FOUND, true)
  else (MSG_GENERIC, false).

(** [handleGenerate] in pieces.  The credential guard,
    [!savedKey && !envKey]: *)
Definition handleGenerate_guard (W : World) : bool :=
  negb (Js.truthy (cinescript_api_key (localStorage W)))
  && negb (Js.truthy (env_API_KEY W)).

(** what the handler does when the guard holds: *)
Definition handleGenerate_refuse (s : State) : State :=
  setIsSettingsOpen true (setError (Some MSG_NO_KEY) s).

(** the updates before the [await] on [generateStoryboard]: *)
Definition handleGenerate_begin (input : Input) (options : GenerationOptions)
    (s : State) : State :=
  let s :=
    match input with
    | InFile f => setSelectedText "" (setSelectedImage (Some f) s)
    | InText t => setSelectedImage None (setSelectedText t s)
    end in
  setError None (setAppState ANALYZING (setSelectedOptions (Some options) s)).

(** and the [catch] block: *)
Definition handleGenerate_catch (err : Js.Thrown) (s : State) : State :=
  let '(msg, openSettings) := failure_message err in
  let s := if openSettings then setIsSettingsOpen true s else s in
  setAppState UPLOAD (setError (Some msg) s).

(** A finished run of [handleGenerate]: the state each time the handler
    suspends on an [await] that really waits (on the service, and on the
    reader of the preview when the input is a file), then the final state;
    local storage afterwards; and what was done to the outside. *)
Record Run := {
  states : list State;
  storage : Storage;
  performed : list Event
}.

Definition handleGenerate (W : World) (X : Externals) (clock : Clock)
    (input : Input) (options : GenerationOptions) (s : State) : Run :=
  if handleGenerate_guard W then
    {| states := [handleGenerate_refuse s];
       storage := localStorage W;
       performed := [] |}
  else
    let s1 := handleGenerate_begin input options s in
    match GeminiService.generateStoryboard W X input options with
    | (evs, inr data) =>
        let s2 := setStoryboardData (Some data) s1 in
        let imageFile := match input with InFile f => Some f | InText _ => None end in
        let '(evs', (s3, (st, rejected))) :=
          saveToHistory (localStorage_setItem X) clock (history s) data
            options imageFile (localStorage W) s2 in
        let final :=
          match rejected with
          | None => setAppState STORYBOARD s3
          | Some err => handleGenerate_catch err s3
          end in
        {| states :=
             match imageFile with
             | Some _ => [s1; s2; final]
             | None => [s1; final]
             end;
           storage := st;
           performed := evs ++ evs' |}
    | (evs, inl err) =>
        {| states := [s1; handleGenerate_catch err s1];
           storage := localStorage W;
           performed := evs |}
    end.

(** The viewer's [onRegenerate]: a text run with the options of the current
    storyboard, when there are any. *)
Definition onRegenerate (W : World) (X : Externals) (clock : Clock)
    (newText : string) (s : State) : option Run :=
  match selectedOptions s with
  | Some o =>
      Some (handleGenerate W X clock (InText newText)
              {| model := model o; duration := duration o;
                 imageModel := imageModel o; inputType := TEXT;
                 aspectRatio := aspectRatio o |} s)
  | None => None
  end.

Definition final (r : Run) (s0 : State) : State := List.last (states r) s0.

(** What the shell hands to [StoryboardViewer] when that is on screen:
    [appState === STORYBOARD && storyboardData]. *)
Record ViewerProps := {
  props_data : Js.Value;
  props_originalImage : option File;
  props_previewImageUrl : option string;
  props_originalText : string;
  props_imageModel : ImageGenModel;
  props_aspectRatio : AspectRatio
}.

Definition viewer_props (s : State) : option ViewerProps :=
  match appState s, storyboardData s with
  | STORYBOARD, Some d =>
      Some {| props_data := d;
              props_originalImage := selectedImage s;
              props_previewImageUrl := previewImageData s;
              props_originalText := selectedText s;
              props_imageModel :=
                match selectedOptions s with
                | Some o => imageModel o
                | None => NanoBanana
                end;
              props_aspectRatio :=
                match selectedOptions s with
                | Some o => aspectRatio o
                | None => R9x16
                end |}
  | _, _ => None
  end.

End App.

(* ===================================================================== *)
(** * The storyboard viewer ([StoryboardViewer] component)               *)
(* ===================================================================== *)

Module StoryboardViewer.

(** ** Editing *)

(** [{ ...kf, dialogue: newDialogue }]. *)
Definition with_dialogue (newDialogue : string) (kf : Keyframe.t) : Keyframe.t :=
  {| Keyframe.id := Keyframe.id kf;
     Keyframe.shotType := Keyframe.shotType kf;
     Keyframe.duration := Keyframe.duration kf;
     Keyframe.composition := Keyframe.composition kf;
     Keyframe.action := Keyframe.action kf;
     Keyframe.dialogue := newDialogue;
     Keyframe.camera := Keyframe.camera kf;
     Keyframe.lensDoF := Keyframe.lensDoF kf;
     Keyframe.lighting := Keyframe.lighting kf;
     Keyframe.sound := Keyframe.sound kf |}.

(** [{ ...prev, keyframes: kfs }]. *)
Definition with_keyframes (kfs : list Keyframe.t) (prev : StoryboardData.t)
  : StoryboardData.t :=
  {| StoryboardData.sourceScript := StoryboardData.sourceScript prev;
     StoryboardData.aspectRatio := StoryboardData.aspectRatio prev;
     StoryboardData.headline := StoryboardData.headline prev;
     StoryboardData.breakdown := StoryboardData.breakdown prev;
     StoryboardData.theme := StoryboardData.theme prev;
     StoryboardData.approach := StoryboardData.approach prev;
     StoryboardData.keyframes := kfs;
     StoryboardData.auditions := StoryboardData.auditions prev |}.

(** The updater [handleDialogueChange] passes to [setEditableData]. *)
Definition handleDialogueChange (id : Z) (newDialogue : string)
    (prev : StoryboardData.t) : StoryboardData.t :=
  with_keyframes
    (map (fun kf =>
            if (Keyframe.id kf =? id)%Z then with_dialogue newDialogue kf else kf)
         (StoryboardData.keyframes prev))
    prev.

(** ** Visual generation *)

(** The two caches, [generatedImages] and [loadingImages]. *)
Record Images := {
  generatedImages : gmap Z string;
  loadingImages : gmap Z bool
}.

(** Truthiness of [loadingImages[id]]. *)
Definition is_loading (im : Images) (id : Z) : bool :=
  default false (loadingImages im !! id).

(** Truthiness of [generatedImages[id]]. *)
Definition is_generated (im : Images) (id : Z) : bool :=
  Js.truthy (generatedImages im !! id).

(** The prompt [generateVisual] builds. *)
Definition visual_prompt (action composition lighting : string) : string :=
  String.append "Action: "
    (String.append action
      (String.append ". Composition: "
        (String.append composition
          (String.append ". Lighting: " (String.append lighting "."))))).

(** What a pending call of [generateKeyframeImage] returns into: the end of
    a single [generateVisual], or that end followed by the rest of the loop
    of a [generateAllVisuals], which keeps reading the caches of the render
    it was started from. *)
Inductive Resume :=
| EndVisual
| NextOfSweep (closure : Images) (rest : list Keyframe.t).

(** A call of [generateKeyframeImage] that has not settled yet, with the
    handler run ([task]) that made it. *)
Record Pending := {
  task : nat;
  kf_id : Z;
  resume : Resume
}.

Inductive Trace :=
| Issued (task : nat) (id : Z) (prompt : string)
| Settled (task : nat) (id : Z).

(** The component between two events: current state, calls in flight, what
    happened so far, the number the next handler run gets, and the alerts
    shown. *)
Record Viewer := {
  editableData : StoryboardData.t;
  images : Images;
  pending : list Pending;
  log : list Trace;
  next_task : nat;
  alerts : nat
}.

Definition setLoading (id : Z) (b : bool) (v : Viewer) : Viewer :=
  {| editableData := editableData v;
     images := {| generatedImages := generatedImages (images v);
                  loadingImages := <[id := b]> (loadingImages (images v)) |};
     pending := pending v; log := log v; next_task := next_task v;
     alerts := alerts v |}.

Definition setGenerated (id : Z) (url : string) (v : Viewer) : Viewer :=
  {| editableData := editableData v;
     images := {| generatedImages := <[id := url]> (generatedImages (images v));
                  loadingImages := loadingImages (images v) |};
     pending := pending v; log := log v; next_task := next_task v;
     alerts := alerts v |}.

Definition alert (v : Viewer) : Viewer :=
  {| editableData := editableData v; images := images v;
     pending := pending v; log := log v; next_task := next_task v;
     alerts := S (alerts v) |}.

Definition call (p : Pending) (prompt : string) (v : Viewer) : Viewer :=
  {| editableData := editableData v; images := images v;
     pending := pending v ++ [p];
     log := log v ++ [Issued (task p) (kf_id p) prompt];
     next_task := next_task v; alerts := alerts v |}.

Definition settled (p : Pending) (rest : list Pending) (v : Viewer) : Viewer :=
  {| editableData := editableData v; images := images v;
     pending := rest;
     log := log v ++ [Settled (task p) (kf_id p)];
     next_task := next_task v; alerts := alerts v |}.

Definition new_task (v : Viewer) : Viewer :=
  {| editableData := editableData v; images := images v;
     pending := pending v; log := log v; next_task := S (next_task v);
     alerts := alerts v |}.

Definition setEditableData (d : StoryboardData.t) (v : Viewer) : Viewer :=
  {| editableData := d; images := images v;
     pending := pending v; log := log v; next_task := next_task v;
     alerts := alerts v |}.

(** [generateVisual] up to its [await]: nothing when the closure's busy flag
    is set, otherwise the flag is raised and the call goes out.  The boolean
    tells whether the handler is now suspended on the call. *)
Definition generateVisual_begin (closure : Images) (t : nat) (kf : Keyframe.t)
    (k : Resume) (v : Viewer) : Viewer * bool :=
  if is_loading closure (Keyframe.id kf) then (v, false)
  else
    let v := setLoading (Keyframe.id kf) true v in
    (call {| task := t; kf_id := Keyframe.id kf; resume := k |}
       (visual_prompt (Keyframe.action kf) (Keyframe.composition kf)
          (Keyframe.lighting kf)) v,
     true).

(** [generateVisual] after its [await]: cache the image or alert, then lower
    the flag. *)
Definition generateVisual_end (id : Z) (outcome : Js.Thrown + string)
    (v : Viewer) : Viewer :=
  let v :=
    match outcome with
    | inr imageUrl => setGenerated id imageUrl v
    | inl _ => alert v
    end in
  setLoading id false v.

(** The loop of [generateAllVisuals] from keyframe list [kfs] on, run until
    it suspends on a call or ends. *)
Fixpoint generateAllVisuals_loop (closure : Images) (t : nat)
    (kfs : list Keyframe.t) (v : Viewer) : Viewer :=
  match kfs with
  | [] => v
  | kf :: rest =>
      if is_generated closure (Keyframe.id kf)
      then generateAllVisuals_loop closure t rest v
      else
        match generateVisual_begin closure t kf (NextOfSweep closure rest) v with
        | (v', true) => v'
        | (v', false) => generateAllVisuals_loop closure t rest v'
        end
  end.

(** What can happen to the component. *)
Inductive Action :=
| ClickGenerateVisual (index : nat)
| ClickGenerateAll
| EditDialogue (id : Z) (newDialogue : string)
| Settle (n : nat) (outcome : Js.Thrown + string).

(** One event.  A handler run reads the state of the current render.  The
    button of a keyframe is on screen only while the keyframe has neither an
    image nor a raised busy flag; [Settle n] settles the [n]-th call in
    flight.  [None]: the event cannot happen in this state. *)
Definition step (v : Viewer) (a : Action) : option Viewer :=
  match a with
  | ClickGenerateVisual i =>
      kf ← StoryboardData.keyframes (editableData v) !! i;
      if is_generated (images v) (Keyframe.id kf)
         || is_loading (images v) (Keyframe.id kf)
      then None
      else Some (fst (generateVisual_begin (images v) (next_task v) kf
                        EndVisual (new_task v)))
  | ClickGenerateAll =>
      Some (generateAllVisuals_loop (images v) (next_task v)
              (StoryboardData.keyframes (editableData v)) (new_task v))
  | EditDialogue id newDialogue =>
      Some (setEditableData
              (handleDialogueChange id newDialogue (editableData v)) v)
  | Settle n outcome =>
      p ← pending v !! n;
      let v := settled p (delete n (pending v)) v in
      let v := generateVisual_end (kf_id p) outcome v in
      match resume p with
      | EndVisual => Some v
      | NextOfSweep closure rest =>
          Some (generateAllVisuals_loop closure (task p) rest v)
      end
  end.

Fixpoint run (v : Viewer) (actions : list Action) : option Viewer :=
  match actions with
  | [] => Some v
  | a :: actions' => v' ← step v a; run v' actions'
  end.

(** A freshly mounted viewer. *)
Definition mount (data : StoryboardData.t) : Viewer :=
  {| editableData := data;
     images := {| generatedImages := ∅; loadingImages := ∅ |};
     pending := []; log := []; next_task := 0; alerts := 0 |}.

(** The calls in flight for keyframe id [id]. *)
Definition outstanding (id : Z) (v : Viewer) : list Pending :=
  filter (fun p => kf_id p = id) (pending v).

(** The part of the log that is about handler run [t]. *)
Definition trace_task (e : Trace) : nat :=
  match e with
  | Issued t _ _ => t
  | Settled t _ => t
  end.

Definition log_of (t : nat) (v : Viewer) : list Trace :=
  filter (fun e => trace_task e = t) (log v).

Definition pending_of (t : nat) (v : Viewer) : list Pending :=
  filter (fun p => task p = t) (pending v).

(** ** The master board ([downloadMasterBoard]) *)

Record Layout := {
  cols : Z;
  cellWidth : Z;
  cellHeight : Z;
  headerHeight : Z;
  rows : Z;
  canvas_width : Z;
  canvas_height : Z
}.

(** [Math.ceil(a / b)] for an array length [a] and a column count [b]: on
    such integers the division of doubles followed by [ceil] is the exact
    ceiling of the quotient. *)
Definition Math_ceil_div (a b : Z) : Z := (- ((- a) / b))%Z.

(** The geometry computed at the head of [downloadMasterBoard], from the
    [aspectRatio] prop and [editableData.keyframes.length]. *)
Definition masterBoard_layout (ratio : AspectRatio) (keyframes_length : nat)
  : Layout :=
  let isHorizontal := match ratio with R16x9 => true | R9x16 => false end in
  let cols := if isHorizontal then 2%Z else 3%Z in
  let cellWidth := if isHorizontal then 640%Z else 360%Z in
  let cellHeight := if isHorizontal then 360%Z else 640%Z in
  let headerHeight := 280%Z in
  let rows := Math_ceil_div (Z.of_nat keyframes_length) cols in
  {| cols := cols; cellWidth := cellWidth; cellHeight := cellHeight;
     headerHeight := headerHeight; rows := rows;
     canvas_width := (cols * cellWidth)%Z;
     canvas_height := (headerHeight + rows * cellHeight)%Z |}.

(** The top-left corner of the cell of keyframe number [i]. *)
Definition cell_origin (L : Layout) (i : nat) : Z * Z :=
  let col := (Z.of_nat i mod cols L)%Z in
  let row := (Z.of_nat i / cols L)%Z in
  ((col * cellWidth L)%Z, (headerHeight L + row * cellHeight L)%Z).

(** Where and how large an image is drawn, relative to its cell. *)
Record Placement := {
  renderW : Q;
  renderH : Q;
  offsetX : Q;
  offsetY : Q
}.

(** The cover-fit computation of the draw loop.  JavaScript computes it on
    doubles; here the same expressions are evaluated on exact rationals,
    which follows the code for a decoded image (positive width and height)
    up to rounding. *)
Definition coverFit (cellWidth cellHeight img_width img_height : Z) : Placement :=
  let imgRatio := (inject_Z img_width / inject_Z img_height)%Q in
  let targetRatio := (inject_Z cellWidth / inject_Z cellHeight)%Q in
  if negb (Qle_bool imgRatio targetRatio) then
    let renderH := inject_Z cellHeight in
    let renderW := (inject_Z cellHeight * imgRatio)%Q in
    {| renderW := renderW; renderH := renderH;
       offsetX := ((inject_Z cellWidth - renderW) / 2)%Q;
       offsetY := 0%Q |}
  else
    let renderW := inject_Z cellWidth in
    let renderH := (inject_Z cellWidth / imgRatio)%Q in
    {| renderW := renderW; renderH := renderH;
       offsetX := 0%Q;
       offsetY := ((inject_Z cellHeight - renderH) / 2)%Q |}.

(** ** Headline editing *)

(** [keyof Headline]. *)
Inductive HeadlineLine := Line1 | Line2.

(** [{ ...h, [line]: val }]. *)
Definition with_line (line : HeadlineLine) (val : string) (h : Headline)
  : Headline :=
  match line with
  | Line1 => {| line1 := val; line2 := line2 h |}
  | Line2 => {| line1 := line1 h; line2 := val |}
  end.

(** The updater [handleHeadlineChange] passes to [setEditableData]:
    [{ ...prev, headline: { ...prev.headline, [line]: val } }]. *)
Definition handleHeadlineChange (line : HeadlineLine) (val : string)
    (prev : StoryboardData.t) : StoryboardData.t :=
  {| StoryboardData.sourceScript := StoryboardData.sourceScript prev;
     StoryboardData.aspectRatio := StoryboardData.aspectRatio prev;
     StoryboardData.headline := with_line line val (StoryboardData.headline prev);
     StoryboardData.breakdown := StoryboardData.breakdown prev;
     StoryboardData.theme := StoryboardData.theme prev;
     StoryboardData.approach := StoryboardData.approach prev;
     StoryboardData.keyframes := StoryboardData.keyframes prev;
     StoryboardData.auditions := StoryboardData.auditions prev |}.

(** The call [generateVisual] awaits, for the props the viewer was given and
    the storyboard of the render the handler belongs to. *)
Definition generateVisual_call (W : World) (X : Externals)
    (originalImage : option File) (imageModel : ImageGenModel)
    (aspectRatio : AspectRatio) (d : StoryboardData.t) (kf : Keyframe.t)
  : Eff string :=
  GeminiService.generateKeyframeImage W X
    (visual_prompt (Keyframe.action kf) (Keyframe.composition kf)
       (Keyframe.lighting kf))
    originalImage imageModel aspectRatio
    (Some (characters (StoryboardData.breakdown d))).

End StoryboardViewer.

(* ===================================================================== *)
(** * Specification vocabulary                                          *)
(* ===================================================================== *)

(** The events of a run that mention a key mention [k]. *)
Definition only_key (k : string) (evs : list Event) : Prop :=
  Forall (fun e =>
            match e with
            | NewClient k' => k' = k
            | GenerateContent k' _ => k' = k
            | ReadFile _ => True
            end) evs.

(** A run uses key [k]: it starts by building the client with [k], and
    every later call goes out under [k]. *)
Definition uses_key {A} (k : string) (c : Eff A) : Prop :=
  ∃ rest, events c = NewClient k :: rest ∧ only_key k rest.

(** A run fails fast on a missing credential: it throws the
    missing-credential error having done nothing to the outside. *)
Definition fails_fast {A} (c : Eff A) : Prop :=
  events c = [] ∧ thrown c = Some (Js.Error GeminiService.MISSING_KEY).


(* ===================================================================== *)
(** * Sample inputs                                                      *)
(* ===================================================================== *)

Module Sample.

Definition quoted (s : string) : string :=
  let dq := String (Ascii.ascii_of_nat 34) EmptyString in
  String.append dq (String.append s dq).

Definition options_16x9 : GenerationOptions :=
  {| model := Sora2; duration := D15s; imageModel := NanoBanana;
     inputType := TEXT; aspectRatio := R16x9 |}.

Definition options_9x16 : GenerationOptions :=
  {| model := Sora2; duration := D15s; imageModel := NanoBanana;
     inputType := TEXT; aspectRatio := R9x16 |}.

Definition world (saved env : option string) : World :=
  {| localStorage := {| cinescript_api_key := saved;
                        cinescript_history_v2 := None |};
     env_API_KEY := env |}.

(** The answer of a service that echoes the wrong ratio: the JSON text
    [{"aspectRatio":"9:16","sourceScript":"rain"}]. *)
Definition echo_9x16_text : string :=
  String.append "{"
    (String.append (quoted "aspectRatio")
      (String.append ":"
        (String.append (quoted "9:16")
          (String.append ","
            (String.append (quoted "sourceScript")
              (String.append ":" (String.append (quoted "rain") "}"))))))).

Definition echo_9x16_value : Js.Value :=
  Js.VObj [("aspectRatio", Js.VStr "9:16"); ("sourceScript", Js.VStr "rain")].

Definition service_echo_9x16 : Externals :=
  {| generateContent := fun _ _ =>
       inr {| text := Some echo_9x16_text; candidates := None |};
     JSON_parse := fun t =>
       if String.eqb t echo_9x16_text then inr echo_9x16_value
       else inl "Unexpected token in JSON";
     typeError_message := fun _ => "Cannot set properties";
     localStorage_setItem := fun _ _ => None |}.

(** The same service in a browser whose local storage is full. *)
Definition service_full_disk : Externals :=
  {| generateContent := generateContent service_echo_9x16;
     JSON_parse := JSON_parse service_echo_9x16;
     typeError_message := typeError_message service_echo_9x16;
     localStorage_setItem := fun _ _ =>
       Some (Js.Error "Failed to execute 'setItem' on 'Storage': Setting the value of 'cinescript_history_v2' exceeded the quota.") |}.

(** A service that turns the key down. *)
Definition service_rejects_key : Externals :=
  {| generateContent := fun _ _ =>
       inl (Js.Error "API key not valid. Please pass a valid API key.");
     JSON_parse := fun _ => inl "Unexpected end of JSON input";
     typeError_message := fun _ => "Cannot set properties";
     localStorage_setItem := fun _ _ => None |}.

(** A service whose answer breaks off. *)
Definition service_truncated : Externals :=
  {| generateContent := fun _ _ =>
       inr {| text := Some "{"; candidates := None |};
     JSON_parse := fun _ => inl "Unexpected end of JSON input";
     typeError_message := fun _ => "Cannot set properties";
     localStorage_setItem := fun _ _ => None |}.

(** A service that answers without text. *)
Definition service_silent : Externals :=
  {| generateContent := fun _ _ => inr {| text := None; candidates := None |};
     JSON_parse := fun _ => inl "Unexpected end of JSON input";
     typeError_message := fun _ => "Cannot set properties";
     localStorage_setItem := fun _ _ => None |}.

Definition png : File :=
  {| file_type := "image/png";
     file_dataURL := Some "data:image/png;base64,iVBORw0KGgo=" |}.

End Sample.

(** Newest first. *)
Definition newest_first (a b : SavedStoryboard.t) : Prop :=
  (SavedStoryboard.timestamp b ≤ SavedStoryboard.timestamp a)%Z.

Module SampleHistory.

Definition entry (id : string) (timestamp : Z) : SavedStoryboard.t :=
  {| SavedStoryboard.id := id;
     SavedStoryboard.timestamp := timestamp;
     SavedStoryboard.data := Sample.echo_9x16_value;
     SavedStoryboard.options := Sample.options_9x16;
     SavedStoryboard.previewImage := None |}.

Definition e100 := entry "100" 100.
Definition e200 := entry "200" 200.
Definition e300 := entry "300" 300.

(** The shell showing the history view over entries stored as
    [100; 300; 200]. *)
Definition stored : Storage :=
  {| cinescript_api_key := None;
     cinescript_history_v2 := Some [e100; e300; e200] |}.

Definition shell : App.State :=
  App.toggleHistory
    (App.mount {| localStorage := stored; env_API_KEY := None |} App.initial).

End SampleHistory.

Module SampleShell.

(** A shell showing a storyboard opened from the history. *)
Definition viewing : App.State :=
  App.handleViewHistoryItem SampleHistory.e100
    (App.mount {| localStorage := SampleHistory.stored; env_API_KEY := None |}
       App.initial).

(** Local storage with a key and the sample history. *)
Definition keyed : World :=
  {| localStorage :=
       {| cinescript_api_key := Some "local-key";
          cinescript_history_v2 := Some [SampleHistory.e100] |};
     env_API_KEY := None |}.

Definition clock : App.Clock := {| App.now_id := 400; App.now_timestamp := 400 |}.

End SampleShell.

(** Two keyframes that agree on every field except, possibly, [dialogue]. *)
Definition same_but_dialogue (kf kf' : Keyframe.t) : Prop :=
  Keyframe.id kf' = Keyframe.id kf
  ∧ Keyframe.shotType kf' = Keyframe.shotType kf
  ∧ Keyframe.duration kf' = Keyframe.duration kf
  ∧ Keyframe.composition kf' = Keyframe.composition kf
  ∧ Keyframe.action kf' = Keyframe.action kf
  ∧ Keyframe.camera kf' = Keyframe.camera kf
  ∧ Keyframe.lensDoF kf' = Keyframe.lensDoF kf
  ∧ Keyframe.lighting kf' = Keyframe.lighting kf
  ∧ Keyframe.sound kf' = Keyframe.sound kf.

(** ** Vocabulary for the visual-generation properties *)

Module Visual.
Import StoryboardViewer.

(** The prompt made for a keyframe. *)
Definition prompt_of (kf : Keyframe.t) : string :=
  visual_prompt (Keyframe.action kf) (Keyframe.composition kf)
    (Keyframe.lighting kf).

(** The log of a sweep by handler run [t] that made one call per keyframe
    of [kfs], in order, each settled before the next was made. *)
Definition sweep_log (t : nat) (kfs : list Keyframe.t) : list Trace :=
  flat_map (fun kf => [Issued t (Keyframe.id kf) (prompt_of kf);
                       Settled t (Keyframe.id kf)]) kfs.

Definition is_Issued (e : Trace) : bool :=
  match e with
  | Issued _ _ _ => true
  | Settled _ _ => false
  end.

(** The number of calls in a log. *)
Definition calls (l : list Trace) : nat := length (filter is_Issued l).

(** No image is cached for the keyframe. *)
Definition not_cached (im : Images) (kf : Keyframe.t) : Prop :=
  is_generated im (Keyframe.id kf) = false.

(** No generation is in flight for the keyframe: its busy flag is down. *)
Definition not_busy (im : Images) (kf : Keyframe.t) : Prop :=
  is_loading im (Keyframe.id kf) = false.

(** Handler runs are numbered in order: what is pending or logged comes
    from a run that has started. *)
Definition numbered (v : Viewer) : Prop :=
  Forall (fun p => task p < next_task v) (pending v)
  ∧ Forall (fun e => trace_task e < next_task v) (log v).

(** The keyframes a sweep makes calls for: those that have neither an image
    nor a raised busy flag in the render the sweep was started from. *)
Definition eligible (closure : Images) (kfs : list Keyframe.t)
  : list Keyframe.t :=
  filter (fun kf => is_generated closure (Keyframe.id kf) = false
                    ∧ is_loading closure (Keyframe.id kf) = false) kfs.

(** Where the sweep of run [t] over [kfs], started from the render with
    caches [closure], stands in [v]: it is through with the keyframes
    [done], and either it is over, or its call for the next eligible
    keyframe is its one call in flight, waiting to go on with the keyframes
    [raw] that follow. *)
Definition sweeping (closure : Images) (t : nat) (kfs : list Keyframe.t)
    (v : Viewer) : Prop :=
  ∃ done,
    (pending_of t v = []
     ∧ log_of t v = sweep_log t done
     ∧ eligible closure kfs = done)
    ∨ (∃ kf raw,
         pending_of t v
         = [{| task := t; kf_id := Keyframe.id kf;
               resume := NextOfSweep closure raw |}]
         ∧ log_of t v
           = sweep_log t done ++ [Issued t (Keyframe.id kf) (prompt_of kf)]
         ∧ eligible closure kfs = done ++ kf :: eligible closure raw).

(** An event that starts no generation: an edit, or a call settling. *)
Definition quiet (a : Action) : Prop :=
  match a with
  | ClickGenerateVisual _ | ClickGenerateAll => False
  | EditDialogue _ _ | Settle _ _ => True
  end.

End Visual.

Module SampleViewer.

Definition keyframe (id : Z) (action : string) : Keyframe.t :=
  {| Keyframe.id := id; Keyframe.shotType := "Wide shot";
     Keyframe.duration := "3s"; Keyframe.composition := "Centered";
     Keyframe.action := action; Keyframe.dialogue := "";
     Keyframe.camera := "Static"; Keyframe.lensDoF := "35mm";
     Keyframe.lighting := "Neon"; Keyframe.sound := "Rain" |}.

Definition storyboard (kfs : list Keyframe.t) : StoryboardData.t :=
  {| StoryboardData.sourceScript := Some "rain";
     StoryboardData.aspectRatio := Some "16:9";
     StoryboardData.headline := {| line1 := ""; line2 := "" |};
     StoryboardData.breakdown :=
       {| subjects := ""; characters := ""; environmentLighting := "";
          visualAnchors := [] |};
     StoryboardData.theme :=
       {| theme := ""; logline := "";
          emotionalArc := {| setup := ""; build := ""; turn := "";
                             payoff := "" |} |};
     StoryboardData.approach :=
       {| shotProgression := ""; cameraMovement := ""; lensExposure := "";
          lightColor := "" |};
     StoryboardData.keyframes := kfs;
     StoryboardData.auditions := None |}.

Definition kf1 := keyframe 1 "She waits".
Definition kf2 := keyframe 2 "He arrives".

Definition one : StoryboardData.t := storyboard [kf1].
Definition two : StoryboardData.t := storyboard [kf1; kf2].

Definition image (n : string) : Js.Thrown + string :=
  inr (String.append "data:image/png;base64," n).

End SampleViewer.

(* ===================================================================== *)
(** * Further vocabulary                                                 *)
(* ===================================================================== *)

(** The requests among the events of a run. *)
Definition is_request (e : Event) : bool :=
  match e with
  | GenerateContent _ _ => true
  | _ => false
  end.

Definition requests (evs : list Event) : list Event := filter is_request evs.

(** The string has a comma in it. *)
Fixpoint has_comma (s : string) : bool :=
  match s with
  | EmptyString => false
  | String c s' => Ascii.eqb c GeminiService.comma || has_comma s'
  end.

(** The data URL a [FileReader] makes of a payload of the given type. *)
Definition data_url (mime payload : string) : string :=
  String.append "data:"
    (String.append mime (String.append ";base64," payload)).

(** Every raised busy flag has a call in flight behind it. *)
Definition flags_backed (v : StoryboardViewer.Viewer) : Prop :=
  ∀ id, StoryboardViewer.is_loading (StoryboardViewer.images v) id = true →
        StoryboardViewer.outstanding id v ≠ [].

Module SampleService.

(** A service that answers every request with one candidate whose second
    part is an image without a MIME type. *)
Definition image_answer : Response :=
  {| text := None;
     candidates :=
       Some [{| content_parts :=
                  [None; Some {| blob_mimeType := None;
                                 blob_data := "iVBORw0KGgo=" |}] |}] |}.

Definition painter : Externals :=
  {| generateContent := fun _ _ => inr image_answer;
     JSON_parse := fun _ => inl "Unexpected end of JSON input";
     typeError_message := fun _ => "Cannot set properties";
     localStorage_setItem := fun _ _ => None |}.

End SampleService.

Module SampleRun.
Import StoryboardViewer.

(** The viewer after a list of events on a fresh mount. *)
Definition after (data : StoryboardData.t) (actions : list Action) : Viewer :=
  default (mount data) (run (mount data) actions).

(** One keyframe, its button clicked, the call in flight. *)
Definition clicked : Viewer := after SampleViewer.one [ClickGenerateVisual 0].

(** Two keyframes, both visualised one after the other. *)
Definition painted : Viewer :=
  after SampleViewer.two
    [ClickGenerateAll; Settle 0 (SampleViewer.image "a");
     Settle 0 (SampleViewer.image "b")].

End SampleRun.

(* ===================================================================== *)
(** * The input screen ([ImageUpload] component)                         *)
(* ===================================================================== *)

Module ImageUpload.

Record State := {
  inputType : InputType;
  model : VideoModel;
  duration : VideoDuration;
  imageModel : ImageGenModel;
  aspectRatio : AspectRatio;
  textScript : string
}.

Definition initial : State :=
  {| inputType := TEXT; model := Sora2; duration := D15s;
     imageModel := NanoBanana; aspectRatio := R9x16; textScript := "" |}.

(** [{ model, duration, imageModel, inputType: t, aspectRatio }]. *)
Definition options (t : InputType) (s : State) : GenerationOptions :=
  Build_GenerationOptions (model s) (duration s) (imageModel s) t
    (aspectRatio s).

(** The handlers, as the call of [onGenerate] they make, if any.  [files] is
    [event.target.files] (or [event.dataTransfer.files]); [trim] is
    [String.prototype.trim]. *)
Definition handleFileChange (files : option (list File)) (s : State)
  : option (Input * GenerationOptions) :=
  match files with
  | Some (f :: _) => Some (InFile f, options IMAGE s)
  | _ => None
  end.

Definition handleDrop (files : option (list File)) (s : State)
  : option (Input * GenerationOptions) :=
  match inputType s, files with
  | IMAGE, Some (f :: _) => Some (InFile f, options IMAGE s)
  | _, _ => None
  end.

Definition handleTextSubmit (trim : string -> string) (s : State)
  : option (Input * GenerationOptions) :=
  if Js.truthy (Some (trim (textScript s)))
  then Some (InText (textScript s), options TEXT s)
  else None.

(** [disabled={!textScript.trim()}] on the submit button. *)
Definition submit_disabled (trim : string -> string) (s : State) : bool :=
  negb (Js.truthy (Some (trim (textScript s)))).

End ImageUpload.

(* ===================================================================== *)
(** * The settings panel ([ApiKeyModal] component)                       *)
(* ===================================================================== *)

Module ApiKeyModal.

Record State := {
  keyInput : string;
  isSaved : bool;
  hasCloudKey : bool
}.

Definition initial : State :=
  {| keyInput := ""; isSaved := false; hasCloudKey := false |}.

Definition setKeyInput (v : string) (s : State) : State :=
  {| keyInput := v; isSaved := isSaved s; hasCloudKey := hasCloudKey s |}.

Definition setIsSaved (v : bool) (s : State) : State :=
  {| keyInput := keyInput s; isSaved := v; hasCloudKey := hasCloudKey s |}.

Definition setHasCloudKey (v : bool) (s : State) : State :=
  {| keyInput := keyInput s; isSaved := isSaved s; hasCloudKey := v |}.

(** [localStorage.setItem(LOCAL_KEY_NAME, v)] and
    [localStorage.removeItem(LOCAL_KEY_NAME)]. *)
Definition store_key (v : option string) (W : World) : World :=
  {| localStorage :=
       {| cinescript_api_key := v;
          cinescript_history_v2 := cinescript_history_v2 (localStorage W) |};
     env_API_KEY := env_API_KEY W |}.

(** [window.aistudio], when the host provides it: what the promise of
    [hasSelectedApiKey()] and of [openSelectKey()] settles with, for each
    method that exists. *)
Record AiStudio := {
  hasSelectedApiKey : option (Js.Thrown + bool);
  openSelectKey : option (Js.Thrown + unit)
}.

(** The effect on [isOpen], up to the promise of the bridge. *)
Definition open_effect (isOpen : bool) (W : World) (s : State) : State :=
  if isOpen then
    let saved := cinescript_api_key (localStorage W) in
    let s :=
      match saved with
      | Some k => if Js.truthy saved then setKeyInput k s else s
      | None => s
      end in
    setIsSaved false s
  else s.

(** and the [then] of that promise, when it runs. *)
Definition cloud_key_checked (isOpen : bool) (bridge : option AiStudio)
    (s : State) : State :=
  if isOpen then
    match bridge with
    | Some b =>
        match hasSelectedApiKey b with
        | Some (inr has) => setHasCloudKey has s
        | _ => s
        end
    | None => s
    end
  else s.

(** What a handler leaves behind: the panel, the world, the shell (through
    [onSave], which is the shell's [handleKeySave]) and the delay of the
    [setTimeout(onClose, _)] it armed, if any. *)
Record Outcome := {
  panel : State;
  world : World;
  shell : App.State;
  closes_in : option Z
}.

Definition handleSave (trim : string -> string) (W : World) (s : State)
    (a : App.State) : Outcome :=
  let W' := store_key (Some (trim (keyInput s))) W in
  {| panel := setIsSaved true s;
     world := W';
     shell := App.handleKeySave W' (trim (keyInput s)) a;
     closes_in := Some 800%Z |}.

(** [W] is the world when the promise of [openSelectKey()] has settled. *)
Definition handleOpenAIStudioKey (bridge : option AiStudio) (W : World)
    (s : State) (a : App.State) : Outcome :=
  let nothing :=
    {| panel := s; world := W; shell := a; closes_in := None |} in
  match bridge with
  | Some b =>
      match openSelectKey b with
      | Some (inr _) =>
          {| panel := setIsSaved true s;
             world := W;
             shell := App.handleKeySave W "" a;
             closes_in := Some 800%Z |}
      | Some (inl _) => nothing
      | None => nothing
      end
  | None => nothing
  end.

Definition handleDelete (W : World) (s : State) (a : App.State) : Outcome :=
  let W' := store_key None W in
  {| panel := setKeyInput "" s;
     world := W';
     shell := App.handleKeySave W' "" a;
     closes_in := None |}.

(** [onClose], as the shell passes it. *)
Definition onClose (a : App.State) : App.State := App.setIsSettingsOpen false a.

(** [disabled={!keyInput.trim()}] on the save button, and the condition
    under which the delete button is rendered. *)
Definition save_disabled (trim : string -> string) (s : State) : bool :=
  negb (Js.truthy (Some (trim (keyInput s)))).

Definition delete_shown (W : World) : bool :=
  Js.truthy (cinescript_api_key (localStorage W)).

End ApiKeyModal.

(* ===================================================================== *)
(** * The image editor ([ImageEditor] component)                         *)
(* ===================================================================== *)

Module ImageEditor.

Definition MSG_NEEDS_FILE : string :=
  "히스토리에서 불러온 이미지는 직접 편집이 불가능합니다. (원본 파일 필요)".
Definition MSG_GENERIC : string := "이미지 생성 중 오류가 발생했습니다.".

Record State := {
  prompt : string;
  generatedImage : option string;
  isLoading : bool;
  error : option string
}.

Definition initial : State :=
  {| prompt := ""; generatedImage := None; isLoading := false;
     error := None |}.

Definition setGeneratedImage (v : option string) (s : State) : State :=
  {| prompt := prompt s; generatedImage := v; isLoading := isLoading s;
     error := error s |}.

Definition setIsLoading (v : bool) (s : State) : State :=
  {| prompt := prompt s; generatedImage := generatedImage s; isLoading := v;
     error := error s |}.

Definition setError (v : option string) (s : State) : State :=
  {| prompt := prompt s; generatedImage := generatedImage s;
     isLoading := isLoading s; error := v |}.

(** [err instanceof Error ? err.message : MSG_GENERIC]: the thrown values
    that carry a message are the [Error]s. *)
Definition error_text (err : Js.Thrown) : string :=
  match Js.message err with
  | Some m => m
  | None => MSG_GENERIC
  end.

(** [handleGenerate]: the events performed, the state while the call is
    awaited (if the handler gets that far) and the state it ends in. *)
Record Run := {
  performed : list Event;
  waiting : option State;
  final : State
}.

Definition handleGenerate (trim : string -> string) (W : World)
    (X : Externals) (originalImage : option File) (s : State) : Run :=
  if negb (Js.truthy (Some (trim (prompt s)))) then
    {| performed := []; waiting := None; final := s |}
  else
    let s1 := setError None (setIsLoading true s) in
    match originalImage with
    | None =>
        {| performed := []; waiting := None;
           final := setIsLoading false
                      (setError (Some (error_text (Js.Error MSG_NEEDS_FILE)))
                         s1) |}
    | Some f =>
        match GeminiService.editImageWithPrompt W X f (prompt s) with
        | (evs, inr result) =>
            {| performed := evs; waiting := Some s1;
               final := setIsLoading false (setGeneratedImage (Some result) s1) |}
        | (evs, inl err) =>
            {| performed := evs; waiting := Some s1;
               final := setIsLoading false
                          (setError (Some (error_text err)) s1) |}
        end
    end.

(** [disabled={isLoading || !prompt.trim() || !originalImage}]. *)
Definition button_disabled (trim : string -> string)
    (originalImage : option File) (s : State) : bool :=
  isLoading s || negb (Js.truthy (Some (trim (prompt s))))
  || negb (bool_decide (is_Some originalImage)).

End ImageEditor.

(** The request part that carries an input: the script as context text, or
    the image as inline data, with whatever follows the first comma of its
    data URL as payload. *)
Definition carries (input : Input) (p : Part) : Prop :=
  match input with
  | InText s => p = ContextText s
  | InFile f =>
      ∃ url, file_dataURL f = Some url
             ∧ p = InlineData (file_type f) (GeminiService.split_comma_1 url)
  end.

(* ===================================================================== *)
(** * The shell between events                                           *)
(* ===================================================================== *)

(** The shell as a machine.  [handleGenerate] is cut at its [await]s, so
    that other handlers can run while a generation is in flight.  Arrays are
    objects: [history] names one of them, [HistoryList] sorts the one it is
    given in place, and a running [handleGenerate] (with its [saveToHistory])
    keeps naming the array that was [history] in the render it was started
    from. *)
Module AppMachine.

(** A [handleGenerate] suspended on [generateStoryboard] ([job_data] empty)
    or, within [saveToHistory], on the reading of the preview. *)
Record Job := {
  job_input : Input;
  job_options : GenerationOptions;
  job_history : nat;
  job_data : option Js.Value
}.

Record Shell := {
  env : option string;
  disk : Storage;
  state : App.State;
  arrays : list (list SavedStoryboard.t);
  current : nat;
  jobs : list Job;
  panel : ApiKeyModal.State
}.

Definition world (m : Shell) : World :=
  {| localStorage := disk m; env_API_KEY := env m |}.

(** The content of an array. *)
Definition array (ref : nat) (m : Shell) : list SavedStoryboard.t :=
  default [] (arrays m !! ref).

(** State updates that leave [history] alone. *)
Definition update (s : App.State) (m : Shell) : Shell :=
  {| env := env m; disk := disk m; state := s; arrays := arrays m;
     current := current m; jobs := jobs m; panel := panel m |}.

(** The result of a handler that called [setHistory] with an array it had
    just built, and wrote to local storage. *)
Definition commit_history (s : App.State) (st : Storage) (m : Shell) : Shell :=
  {| env := env m; disk := st; state := s;
     arrays := arrays m ++ [App.history s];
     current := length (arrays m);
     jobs := jobs m; panel := panel m |}.

Definition with_jobs (js : list Job) (m : Shell) : Shell :=
  {| env := env m; disk := disk m; state := state m; arrays := arrays m;
     current := current m; jobs := js; panel := panel m |}.

(** What a handler of the settings panel left behind. *)
Definition settings (r : ApiKeyModal.Outcome) (m : Shell) : Shell :=
  {| env := env m; disk := localStorage (ApiKeyModal.world r);
     state := ApiKeyModal.shell r; arrays := arrays m;
     current := current m; jobs := jobs m; panel := ApiKeyModal.panel r |}.

Definition with_panel (p : ApiKeyModal.State) (m : Shell) : Shell :=
  {| env := env m; disk := disk m; state := state m; arrays := arrays m;
     current := current m; jobs := jobs m; panel := p |}.

(** A render: on the history screen the array [history] names is sorted in
    place. *)
Definition render (m : Shell) : Shell :=
  match App.render (state m) with
  | (s, Some rows) =>
      {| env := env m; disk := disk m; state := s;
         arrays := <[current m := rows]> (arrays m);
         current := current m; jobs := jobs m; panel := panel m |}
  | (_, None) => m
  end.

(** [handleGenerate] up to its first [await]. *)
Definition begin (input : Input) (options : GenerationOptions) (m : Shell)
  : Shell :=
  if App.handleGenerate_guard (world m)
  then update (App.handleGenerate_refuse (state m)) m
  else
    with_jobs
      (jobs m ++ [{| job_input := input; job_options := options;
                     job_history := current m; job_data := None |}])
      (update (App.handleGenerate_begin input options (state m)) m).

(** The body of [saveToHistory] once the preview is there, and the
    [setAppState(STORYBOARD)] that follows it.  In this machine every write
    to local storage succeeds. *)
Definition save (clock : App.Clock) (j : Job) (data : Js.Value) (m : Shell)
  : Shell :=
  let imageFile :=
    match job_input j with InFile f => Some f | InText _ => None end in
  let '(_, (s, (st, _))) :=
    App.saveToHistory (fun _ _ => None) clock (array (job_history j) m) data
      (job_options j) imageFile (disk m) (state m) in
  commit_history (App.setAppState STORYBOARD s) st m.

Inductive Action :=
| ClickHistory
| ClickReset
| ClickView (row : nat)
| ClickDelete (row : nat)
| ClickClearAll
| Submit (input : Input) (options : GenerationOptions)
| Regenerate (newText : string)
| StoryboardSettled (n : nat) (outcome : Js.Thrown + Js.Value)
    (clock : App.Clock)
| PreviewSettled (n : nat) (clock : App.Clock)
| ClickSettings
| CloseSettings
| CloudKeyChecked
| TypeKey (k : string)
| ClickSaveKey
| ClickDeleteKey
| ClickCloudKey.

(** The handler an event runs, on the screen the event needs.  [None]: the
    event cannot happen in this state. *)
Definition handle (trim : string -> string)
    (bridge : option ApiKeyModal.AiStudio) (m : Shell) (a : Action)
  : option Shell :=
  let s := state m in
  match a with
  | ClickHistory => Some (update (App.toggleHistory s) m)
  | ClickReset => Some (update (App.handleReset s) m)
  | ClickView row =>
      match App.appState s with
      | HISTORY =>
          item ← App.history s !! row;
          Some (update (App.handleViewHistoryItem item s) m)
      | _ => None
      end
  | ClickDelete row =>
      match App.appState s with
      | HISTORY =>
          item ← App.history s !! row;
          let '(s', st) :=
            App.deleteFromHistory (SavedStoryboard.id item) (disk m) s in
          Some (commit_history s' st m)
      | _ => None
      end
  | ClickClearAll =>
      match App.appState s, App.history s with
      | HISTORY, _ :: _ =>
          let '(s', st) := App.clearHistory (disk m) s in
          Some (commit_history s' st m)
      | _, _ => None
      end
  | Submit input options =>
      match App.appState s with
      | UPLOAD => Some (begin input options m)
      | _ => None
      end
  | Regenerate newText =>
      match App.viewer_props s with
      | Some _ =>
          match App.selectedOptions s with
          | Some o =>
              Some (begin (InText newText)
                      {| model := model o; duration := duration o;
                         imageModel := imageModel o; inputType := TEXT;
                         aspectRatio := aspectRatio o |} m)
          | None => Some m
          end
      | None => None
      end
  | StoryboardSettled n outcome clock =>
      j ← jobs m !! n;
      match job_data j, outcome with
      | Some _, _ => None
      | None, inl err =>
          Some (with_jobs (delete n (jobs m))
                  (update (App.handleGenerate_catch err s) m))
      | None, inr data =>
          let m1 := update (App.setStoryboardData (Some data) s) m in
          match job_input j with
          | InFile _ =>
              Some (with_jobs
                      (<[n := {| job_input := job_input j;
                                 job_options := job_options j;
                                 job_history := job_history j;
                                 job_data := Some data |}]> (jobs m)) m1)
          | InText _ =>
              Some (with_jobs (delete n (jobs m)) (save clock j data m1))
          end
      end
  | PreviewSettled n clock =>
      j ← jobs m !! n;
      data ← job_data j;
      Some (with_jobs (delete n (jobs m)) (save clock j data m))
  | ClickSettings =>
      Some (with_panel
              (if App.isSettingsOpen s then panel m
               else ApiKeyModal.open_effect true (world m) (panel m))
              (update (App.handleOpenSettings s) m))
  | CloseSettings => Some (update (ApiKeyModal.onClose s) m)
  | CloudKeyChecked =>
      Some (with_panel
              (ApiKeyModal.cloud_key_checked (App.isSettingsOpen s) bridge
                 (panel m)) m)
  | TypeKey k =>
      if App.isSettingsOpen s
      then Some (with_panel (ApiKeyModal.setKeyInput k (panel m)) m)
      else None
  | ClickSaveKey =>
      if App.isSettingsOpen s && negb (ApiKeyModal.save_disabled trim (panel m))
      then Some (settings (ApiKeyModal.handleSave trim (world m) (panel m) s) m)
      else None
  | ClickDeleteKey =>
      if App.isSettingsOpen s && ApiKeyModal.delete_shown (world m)
      then Some (settings (ApiKeyModal.handleDelete (world m) (panel m) s) m)
      else None
  | ClickCloudKey =>
      if App.isSettingsOpen s
      then Some (settings
                   (ApiKeyModal.handleOpenAIStudioKey bridge (world m)
                      (panel m) s) m)
      else None
  end.

(** An event: its handler, then the render that follows. *)
Definition step (trim : string -> string)
    (bridge : option ApiKeyModal.AiStudio) (m : Shell) (a : Action)
  : option Shell :=
  render <$> handle trim bridge m a.

Fixpoint run (trim : string -> string) (bridge : option ApiKeyModal.AiStudio)
    (m : Shell) (actions : list Action) : option Shell :=
  match actions with
  | [] => Some m
  | a :: actions' => m' ← step trim bridge m a; run trim bridge m' actions'
  end.

(** The application once its mount effect has run. *)
Definition mount (env : option string) (st : Storage) : Shell :=
  let W := {| localStorage := st; env_API_KEY := env |} in
  let m0 :=
    {| env := env; disk := st; state := App.initial; arrays := [[]];
       current := 0; jobs := []; panel := ApiKeyModal.initial |} in
  match cinescript_history_v2 st with
  | Some _ => commit_history (App.mount W App.initial) st m0
  | None => update (App.mount W App.initial) m0
  end.

End AppMachine.

(** What is stored as history, read the way the mount effect reads it. *)
Definition stored_history (st : Storage) : list SavedStoryboard.t :=
  default [] (cinescript_history_v2 st).

(** The shell's [history] is the array it names, holds the stored entries,
    and is newest first while the history screen shows it. *)
Definition history_in_step (m : AppMachine.Shell) : Prop :=
  AppMachine.arrays m !! AppMachine.current m
  = Some (App.history (AppMachine.state m))
  ∧ App.history (AppMachine.state m) ≡ₚ stored_history (AppMachine.disk m)
  ∧ (App.appState (AppMachine.state m) = HISTORY →
     StronglySorted newest_first (App.history (AppMachine.state m))).

Module SampleMachine.
Import AppMachine.

(** The shell mounted on the sample history with a key in the
    environment. *)
Definition mounted : Shell := mount (Some "env-key") SampleHistory.stored.

(** A script is submitted; while it is analysed the history screen is
    opened and its first row deleted; then the storyboard arrives. *)
Definition busy_afternoon : list Action :=
  [Submit (InText "rain") Sample.options_16x9;
   ClickHistory;
   ClickDelete 0;
   StoryboardSettled 0 (inr Sample.echo_9x16_value) SampleShell.clock].

(** The shell at the end of it. *)
Definition evening : Shell :=
  default mounted (run (fun k => k) None mounted busy_afternoon).

End SampleMachine.

(* ===================================================================== *)
(** * What a later page load reads                                       *)
(* ===================================================================== *)

(** [JSON.parse(JSON.stringify(v))]: the named properties of an array are
    not written, everything else comes back as it was. *)
Fixpoint JSON_reread (v : Js.Value) : Js.Value :=
  match v with
  | Js.VArr items _ => Js.VArr (map JSON_reread items) []
  | Js.VObj props =>
      Js.VObj (map (fun kv => (fst kv, JSON_reread (snd kv))) props)
  | _ => v
  end.

(** No array in the value carries a named property. *)
Fixpoint JSON_plain (v : Js.Value) : bool :=
  match v with
  | Js.VArr items props =>
      forallb JSON_plain items
      && match props with [] => true | _ :: _ => false end
  | Js.VObj props => forallb (fun kv => JSON_plain (snd kv)) props
  | _ => true
  end.

(** A history entry read back ([id], [options] and [previewImage] are
    strings or absent; [timestamp] is a reading of [Date.now()]). *)
Definition reread_entry (e : SavedStoryboard.t) : SavedStoryboard.t :=
  {| SavedStoryboard.id := SavedStoryboard.id e;
     SavedStoryboard.timestamp := SavedStoryboard.timestamp e;
     SavedStoryboard.data := JSON_reread (SavedStoryboard.data e);
     SavedStoryboard.options := SavedStoryboard.options e;
     SavedStoryboard.previewImage := SavedStoryboard.previewImage e |}.

(** Local storage as a later page load finds it: the history that was
    written, gone through its JSON text. *)
Definition JSON_reload (st : Storage) : Storage :=
  {| cinescript_api_key := cinescript_api_key st;
     cinescript_history_v2 := map reread_entry <$> cinescript_history_v2 st |}.
(* ===================================================================== *)
(** * Properties                                                         *)
(* ===================================================================== *)

(** ** JavaScript helpers *)

Lemma truthy_Some (s : string) : Js.truthy (Some s) = true ↔ s ≠ "".
Proof.
  unfold Js.truthy. destruct (String.eqb_spec s ""); simpl; split;
    congruence.
Qed.

Lemma truthy_is_Some (v : option string) :
  Js.truthy v = true → ∃ s, v = Some s ∧ s ≠ "".
Proof.
  destruct v as [s|]; simpl; [|discriminate].
  intros H. exists s. split; [done|]. by apply truthy_Some.
Qed.

Lemma props_get_set_eq k v ps : Js.props_get k (Js.props_set k v ps) = Some v.
Proof.
  induction ps as [|[k' v'] ps IH]; simpl.
  - by rewrite String.eqb_refl.
  - destruct (String.eqb_spec k k') as [->|Hne]; simpl.
    + by rewrite String.eqb_refl.
    + destruct (String.eqb_spec k k'); [done|]. exact IH.
Qed.

Lemma props_get_set_ne k k' v ps :
  k' ≠ k → Js.props_get k' (Js.props_set k v ps) = Js.props_get k' ps.
Proof.
  intros Hne. induction ps as [|[k0 v0] ps IH]; simpl.
  - destruct (String.eqb_spec k' k); [done|reflexivity].
  - destruct (String.eqb_spec k k0) as [->|Hk]; simpl.
    + destruct (String.eqb_spec k' k0); [done|reflexivity].
    + destruct (String.eqb_spec k' k0); [reflexivity|exact IH].
Qed.

Lemma get_set_eq k v o o' : Js.set k v o = Some o' → Js.get k o' = Some v.
Proof.
  destruct o; simpl; try discriminate; intros [= <-]; simpl;
    apply props_get_set_eq.
Qed.

Lemma get_set_ne k k' v o o' :
  Js.set k v o = Some o' → k' ≠ k → Js.get k' o' = Js.get k' o.
Proof.
  destruct o; simpl; try discriminate; intros [= <-] Hne; simpl;
    by apply props_get_set_ne.
Qed.

(** ** The effect monad *)

Lemma returned_bind {A B} (c : Eff A) (k : A → Eff B) (b : B) :
  returned (c ≫= k) = Some b →
  ∃ a, returned c = Some a ∧ returned (k a) = Some b.
Proof.
  destruct c as [evs [e|a]]; unfold returned; simpl; [discriminate|].
  destruct (k a) as [evs' r] eqn:Hk. simpl. intros H. exists a.
  by rewrite Hk.
Qed.

(** ** The service adapter *)

Lemma getApiKey_saved (W : World) :
  Js.truthy (cinescript_api_key (localStorage W)) = true →
  Some (GeminiService.getApiKey W) = cinescript_api_key (localStorage W).
Proof.
  intros H. unfold GeminiService.getApiKey, Js.or_else. rewrite H.
  destruct (truthy_is_Some _ H) as (s & -> & Hne). simpl.
  by destruct (String.eqb_spec s "").
Qed.

Lemma getApiKey_env (W : World) :
  Js.truthy (cinescript_api_key (localStorage W)) = false →
  Js.truthy (env_API_KEY W) = true →
  Some (GeminiService.getApiKey W) = env_API_KEY W.
Proof.
  intros H1 H2. unfold GeminiService.getApiKey, Js.or_else. rewrite H1.
  destruct (truthy_is_Some _ H2) as (s & -> & Hne). simpl.
  by destruct (String.eqb_spec s "").
Qed.

Lemma getApiKey_none (W : World) :
  Js.truthy (cinescript_api_key (localStorage W)) = false →
  Js.truthy (env_API_KEY W) = false →
  GeminiService.getApiKey W = "".
Proof.
  intros H1 H2. unfold GeminiService.getApiKey, Js.or_else. rewrite H1.
  destruct (env_API_KEY W) as [s|]; simpl in *; [|done].
  by destruct (String.eqb_spec s "").
Qed.

(** C1.  Whatever the service answered, a storyboard returned by
    [generateStoryboard] carries the requested aspect ratio in its
    [aspectRatio] field; and the function does return one, equal to the
    parsed answer in every other field, whenever a key resolves, the input
    can be read and the answer parses to an object or an array. *)
Theorem generateStoryboard_forces_aspectRatio
    (W : World) (X : Externals) (input : Input) (options : GenerationOptions) :
  let requested := Js.VStr (AspectRatio_string (aspectRatio options)) in
  let run := GeminiService.generateStoryboard W X input options in
  (∀ data, returned run = Some data →
           Js.get "aspectRatio" data = Some requested)
  ∧ (∀ response t parsed,
       Js.truthy (Some (GeminiService.getApiKey W)) = true →
       match input with InFile f => is_Some (file_dataURL f) | InText _ => True end →
       (∀ key req, generateContent X key req = inr response) →
       text response = Some t → t ≠ "" →
       JSON_parse X t = inr parsed →
       is_Some (Js.set "aspectRatio" requested parsed) →
       ∃ data, returned run = Some data
               ∧ Js.get "aspectRatio" data = Some requested
               ∧ ∀ k, k ≠ "aspectRatio" → Js.get k data = Js.get k parsed).
Proof.
  intros requested run. split.
  - intros data. unfold run, GeminiService.generateStoryboard.
    destruct (negb _); [discriminate|].
    intros (_ & _ & H)%returned_bind.
    apply returned_bind in H as (parts & _ & H).
    apply returned_bind in H as (response & _ & H).
    destruct (text response) as [t|]; [|discriminate].
    destruct (negb _); [discriminate|].
    destruct (JSON_parse X t) as [e|parsed]; [discriminate|].
    destruct (Js.set _ _ parsed) as [data'|] eqn:Hset; [|discriminate].
    injection H as <-. by eapply get_set_eq.
  - intros response t parsed Hkey Hfile Hup Ht Hne Hparse [data Hset].
    exists data. split; [|split].
    + unfold run, GeminiService.generateStoryboard. rewrite Hkey. simpl negb.
      cbv iota.
      assert (Hparts : ∃ evs parts,
        (match inputType options, input with
         | IMAGE, InFile f =>
             base64Data ← GeminiService.fileToGenerativePart f;
             mret [InlineData (file_type f) base64Data]
         | _, InText s => mret [ContextText s]
         | TEXT, InFile _ => mret []
         end : Eff (list Part)) = (evs, inr parts)).
      { destruct (inputType options), input as [f|s]; try (by eexists _, _).
        destruct Hfile as [url Hurl].
        unfold GeminiService.fileToGenerativePart. rewrite Hurl.
        by eexists _, _. }
      destruct Hparts as (evs & parts & ->).
      unfold GeminiService.models_generateContent, lift, returned.
      simpl. rewrite Hup. simpl. rewrite Ht.
      destruct (String.eqb_spec t "") as [|_]; [done|]. simpl.
      rewrite Hparse. fold requested. rewrite Hset. done.
    + by eapply get_set_eq.
    + intros k Hk. by eapply get_set_ne.
Qed.

Lemma events_bind {A B} (c : Eff A) (k : A → Eff B) :
  events (c ≫= k)
  = events c ++ match returned c with
                | Some a => events (k a)
                | None => []
                end.
Proof.
  destruct c as [evs [e|a]]; unfold events, returned; simpl.
  - by rewrite app_nil_r.
  - by destruct (k a).
Qed.

Lemma only_key_bind {A B} key (c : Eff A) (k : A → Eff B) :
  only_key key (events c) → (∀ a, only_key key (events (k a))) →
  only_key key (events (c ≫= k)).
Proof.
  intros Hc Hk. rewrite events_bind. apply Forall_app. split; [done|].
  destruct (returned c); [apply Hk|constructor].
Qed.

Lemma only_key_pure {A} key (r : Js.Thrown + A) : only_key key (events ([], r)).
Proof. constructor. Qed.

Lemma only_key_read key f :
  only_key key (events (GeminiService.fileToGenerativePart f)).
Proof.
  unfold GeminiService.fileToGenerativePart.
  apply only_key_bind; [by repeat constructor|].
  intros _. destruct (file_dataURL f); apply only_key_pure.
Qed.

Lemma only_key_call X key req :
  only_key key (events (GeminiService.models_generateContent X key req)).
Proof.
  unfold GeminiService.models_generateContent.
  apply only_key_bind; [by repeat constructor|].
  intros _. apply only_key_pure.
Qed.

Lemma only_key_extract key response failure :
  only_key key (events (GeminiService.extract_image response failure)).
Proof.
  unfold GeminiService.extract_image.
  destruct (candidates response) as [[|c ?]|]; try apply only_key_pure.
  destruct (GeminiService.first_inlineData _); apply only_key_pure.
Qed.

Lemma uses_key_intro {A} key (body : Eff A) :
  only_key key (events body) →
  uses_key key (emit (NewClient key) ≫= λ _, body).
Proof.
  intros H. exists (events body). split; [|done].
  rewrite events_bind. reflexivity.
Qed.

Create HintDb only_key.

#[local] Hint Resolve only_key_read only_key_call only_key_extract
  only_key_pure : only_key.

Lemma generateStoryboard_client W X input options :
  let key := GeminiService.getApiKey W in
  Js.truthy (Some key) = true →
  uses_key key (GeminiService.generateStoryboard W X input options).
Proof.
  intros key Hkey. unfold GeminiService.generateStoryboard. fold key.
  rewrite Hkey. simpl negb. cbv iota. apply uses_key_intro.
  apply only_key_bind.
  - destruct (inputType options), input; try apply only_key_pure.
    apply only_key_bind; [auto with only_key|]. intros. apply only_key_pure.
  - intros parts. apply only_key_bind; [auto with only_key|].
    intros response. destruct (text response) as [t|]; [|apply only_key_pure].
    destruct (negb _); [apply only_key_pure|].
    destruct (JSON_parse X t) as [|d]; [apply only_key_pure|].
    destruct (Js.set _ _ d); apply only_key_pure.
Qed.

Lemma generateKeyframeImage_client W X prompt file modelType ratio ctx :
  let key := GeminiService.getApiKey W in
  Js.truthy (Some key) = true →
  uses_key key
    (GeminiService.generateKeyframeImage W X prompt file modelType ratio ctx).
Proof.
  intros key Hkey. unfold GeminiService.generateKeyframeImage. fold key.
  rewrite Hkey. simpl negb. cbv iota. apply uses_key_intro.
  apply only_key_bind.
  - destruct file; [|apply only_key_pure].
    apply only_key_bind; [auto with only_key|]. intros. apply only_key_pure.
  - intros parts. apply only_key_bind; auto with only_key.
Qed.

Lemma editImageWithPrompt_client W X file prompt :
  let key := GeminiService.getApiKey W in
  Js.truthy (Some key) = true →
  uses_key key (GeminiService.editImageWithPrompt W X file prompt).
Proof.
  intros key Hkey. unfold GeminiService.editImageWithPrompt. fold key.
  rewrite Hkey. simpl negb. cbv iota. apply uses_key_intro.
  apply only_key_bind; [auto with only_key|].
  intros data. apply only_key_bind; auto with only_key.
Qed.

(** C2.  Credential resolution of the three operations: a non-empty stored
    key is the one used, even when the environment has one too; otherwise a
    non-empty environment key is used; otherwise (nothing stored or an empty
    string stored, and no environment key) each operation throws the
    missing-credential error before it builds a client or calls the
    service. *)
Theorem credential_resolution
    (W : World) (X : Externals) (input : Input) (options : GenerationOptions)
    (prompt : string) (originalFile : option File) (modelType : ImageGenModel)
    (ratio : AspectRatio) (characterContext : option string)
    (editFile : File) (editPrompt : string) :
  let saved := cinescript_api_key (localStorage W) in
  let env := env_API_KEY W in
  let storyboard := GeminiService.generateStoryboard W X input options in
  let keyframe :=
    GeminiService.generateKeyframeImage W X prompt originalFile modelType
      ratio characterContext in
  let edit := GeminiService.editImageWithPrompt W X editFile editPrompt in
  (∀ k, saved = Some k → k ≠ "" →
        uses_key k storyboard ∧ uses_key k keyframe ∧ uses_key k edit)
  ∧ (∀ k, Js.truthy saved = false → env = Some k → k ≠ "" →
          uses_key k storyboard ∧ uses_key k keyframe ∧ uses_key k edit)
  ∧ (Js.truthy saved = false → Js.truthy env = false →
     fails_fast storyboard ∧ fails_fast keyframe ∧ fails_fast edit).
Proof.
  intros saved env storyboard keyframe edit. split; [|split].
  - intros k Hk Hne.
    assert (Ht : Js.truthy saved = true) by (rewrite Hk; by apply truthy_Some).
    pose proof (getApiKey_saved W Ht) as Hget. fold saved in Hget.
    rewrite Hk in Hget. injection Hget as Hget.
    assert (Hkey : Js.truthy (Some (GeminiService.getApiKey W)) = true)
      by (rewrite Hget; by apply truthy_Some).
    rewrite <- Hget.
    split; [|split].
    + by apply generateStoryboard_client.
    + by apply generateKeyframeImage_client.
    + by apply editImageWithPrompt_client.
  - intros k Hs Hk Hne.
    assert (Ht : Js.truthy env = true) by (rewrite Hk; by apply truthy_Some).
    pose proof (getApiKey_env W Hs Ht) as Hget. fold env in Hget.
    rewrite Hk in Hget. injection Hget as Hget.
    assert (Hkey : Js.truthy (Some (GeminiService.getApiKey W)) = true)
      by (rewrite Hget; by apply truthy_Some).
    rewrite <- Hget.
    split; [|split].
    + by apply generateStoryboard_client.
    + by apply generateKeyframeImage_client.
    + by apply editImageWithPrompt_client.
  - intros Hs He. pose proof (getApiKey_none W Hs He) as Hget.
    unfold storyboard, keyframe, edit, GeminiService.generateStoryboard,
      GeminiService.generateKeyframeImage, GeminiService.editImageWithPrompt.
    rewrite Hget. simpl. by repeat split.
Qed.

(** C1 at work: the service echoes ["9:16"], the request says ["16:9"], and
    the storyboard returned says ["16:9"]. *)
Lemma generateStoryboard_forces_aspectRatio_witness :
  let run :=
    GeminiService.generateStoryboard (Sample.world (Some "local-key") None)
      Sample.service_echo_9x16 (InText "rain") Sample.options_16x9 in
  Js.get "aspectRatio" Sample.echo_9x16_value = Some (Js.VStr "9:16")
  ∧ ∃ data, returned run = Some data
            ∧ Js.get "aspectRatio" data = Some (Js.VStr "16:9")
            ∧ Js.get "sourceScript" data = Some (Js.VStr "rain").
Proof.
  split; [reflexivity|].
  destruct (proj2 (generateStoryboard_forces_aspectRatio
                     (Sample.world (Some "local-key") None)
                     Sample.service_echo_9x16 (InText "rain")
                     Sample.options_16x9)
              {| text := Some Sample.echo_9x16_text; candidates := None |}
              Sample.echo_9x16_text Sample.echo_9x16_value)
    as (data & Hret & Hratio & Hrest).
  - reflexivity.
  - exact I.
  - reflexivity.
  - reflexivity.
  - discriminate.
  - reflexivity.
  - by eexists.
  - exists data. split; [exact Hret|]. split; [exact Hratio|].
    rewrite Hrest; [reflexivity|discriminate].
Defined.

(** C2 at work: with both keys present the stored one is used; with an
    empty string stored and no environment key nothing goes out. *)
Lemma credential_resolution_witness :
  uses_key "local-key"
    (GeminiService.generateStoryboard
       (Sample.world (Some "local-key") (Some "env-key"))
       Sample.service_silent (InText "rain") Sample.options_16x9)
  ∧ uses_key "env-key"
      (GeminiService.generateKeyframeImage
         (Sample.world (Some "") (Some "env-key"))
         Sample.service_silent "a street" None NanoBanana R16x9 None)
  ∧ fails_fast
      (GeminiService.editImageWithPrompt (Sample.world (Some "") None)
         Sample.service_silent Sample.png "warmer light").
Proof.
  split; [|split].
  - apply (proj1 (credential_resolution
                    (Sample.world (Some "local-key") (Some "env-key"))
                    Sample.service_silent (InText "rain") Sample.options_16x9
                    "a street" None NanoBanana R16x9 None
                    Sample.png "warmer light") "local-key");
      [reflexivity|discriminate].
  - apply (proj1 (proj2 (credential_resolution
                    (Sample.world (Some "") (Some "env-key"))
                    Sample.service_silent (InText "rain") Sample.options_16x9
                    "a street" None NanoBanana R16x9 None
                    Sample.png "warmer light")) "env-key");
      [reflexivity|reflexivity|discriminate].
  - apply (proj2 (proj2 (credential_resolution
                    (Sample.world (Some "") None)
                    Sample.service_silent (InText "rain") Sample.options_16x9
                    "a street" None NanoBanana R16x9 None
                    Sample.png "warmer light")));
      reflexivity.
Defined.

(** ** The master board *)

Lemma Math_ceil_div_spec (a b : Z) :
  (0 < b)%Z →
  ((StoryboardViewer.Math_ceil_div a b - 1) * b < a
   ∧ a ≤ StoryboardViewer.Math_ceil_div a b * b)%Z.
Proof.
  intros Hb. unfold StoryboardViewer.Math_ceil_div.
  pose proof (Z.div_mod (- a) b ltac:(lia)) as Hdm.
  pose proof (Z.mod_pos_bound (- a) b Hb) as Hmod.
  nia.
Qed.

(** C5.  The geometry of the master board for [n] keyframes: 2 columns of
    640 by 360 cells for ["16:9"], 3 columns of 360 by 640 cells for
    ["9:16"]; a header of 280 pixels; as many rows as the ceiling of [n]
    over the number of columns; a canvas as wide as the columns and as high
    as the header plus the rows.  Seven keyframes make 3 by 3 cells at
    ["9:16"] and 2 columns by 4 rows at ["16:9"]. *)
Theorem masterBoard_layout_geometry (ratio : AspectRatio) (n : nat) :
  let L := StoryboardViewer.masterBoard_layout ratio n in
  ((StoryboardViewer.cols L, StoryboardViewer.cellWidth L,
    StoryboardViewer.cellHeight L)
   = match ratio with
     | R16x9 => (2, 640, 360)
     | R9x16 => (3, 360, 640)
     end
   ∧ StoryboardViewer.headerHeight L = 280
   ∧ (StoryboardViewer.rows L - 1) * StoryboardViewer.cols L < Z.of_nat n
   ∧ Z.of_nat n ≤ StoryboardViewer.rows L * StoryboardViewer.cols L
   ∧ StoryboardViewer.canvas_width L
     = StoryboardViewer.cols L * StoryboardViewer.cellWidth L
   ∧ StoryboardViewer.canvas_height L
     = StoryboardViewer.headerHeight L
       + StoryboardViewer.rows L * StoryboardViewer.cellHeight L
   ∧ (let L7 := StoryboardViewer.masterBoard_layout R9x16 7 in
      (StoryboardViewer.cols L7, StoryboardViewer.rows L7) = (3, 3))
   ∧ (let L7 := StoryboardViewer.masterBoard_layout R16x9 7 in
      (StoryboardViewer.cols L7, StoryboardViewer.rows L7) = (2, 4)))%Z.
Proof.
  intros L. unfold L, StoryboardViewer.masterBoard_layout.
  destruct ratio; simpl.
  - pose proof (Math_ceil_div_spec (Z.of_nat n) 3 ltac:(lia)).
    repeat split; try reflexivity; lia.
  - pose proof (Math_ceil_div_spec (Z.of_nat n) 2 ltac:(lia)).
    repeat split; try reflexivity; lia.
Qed.

Lemma inject_Z_pos (z : Z) : (0 < z)%Z → (0 < inject_Z z)%Q.
Proof. intros H. unfold Qlt. simpl. lia. Qed.

Lemma inject_Z_nonzero (z : Z) : (0 < z)%Z → ¬ (inject_Z z == 0)%Q.
Proof. intros H Heq. unfold Qeq in Heq. simpl in Heq. lia. Qed.

(** C6.  Cover-fit of a decoded image ([img_width] by [img_height]) into a
    cell.  An image relatively wider than the cell is drawn as high as the
    cell, at its own aspect ratio, shifted horizontally by half of the cell
    width minus the drawn width, and not shifted vertically; any other image
    is drawn as wide as the cell, at its own aspect ratio, shifted
    vertically by half of the cell height minus the drawn height, and not
    shifted horizontally.  In a 640 by 360 cell a 2:1 image takes the first
    branch and a 1:2 image the second. *)
Theorem coverFit_branches (cellWidth cellHeight img_width img_height : Z) :
  (0 < cellWidth)%Z → (0 < cellHeight)%Z →
  (0 < img_width)%Z → (0 < img_height)%Z →
  let P := StoryboardViewer.coverFit cellWidth cellHeight img_width img_height in
  let imgRatio := (inject_Z img_width / inject_Z img_height)%Q in
  let targetRatio := (inject_Z cellWidth / inject_Z cellHeight)%Q in
  (((targetRatio < imgRatio)%Q →
    (StoryboardViewer.renderH P == inject_Z cellHeight
     ∧ StoryboardViewer.renderW P == inject_Z cellHeight * imgRatio
     ∧ StoryboardViewer.renderW P / StoryboardViewer.renderH P == imgRatio
     ∧ StoryboardViewer.offsetX P
       == (inject_Z cellWidth - StoryboardViewer.renderW P) / 2
     ∧ StoryboardViewer.offsetY P == 0)%Q)
   ∧ ((imgRatio <= targetRatio)%Q →
      (StoryboardViewer.renderW P == inject_Z cellWidth
       ∧ StoryboardViewer.renderH P == inject_Z cellWidth / imgRatio
       ∧ StoryboardViewer.renderW P / StoryboardViewer.renderH P == imgRatio
       ∧ StoryboardViewer.offsetY P
         == (inject_Z cellHeight - StoryboardViewer.renderH P) / 2
       ∧ StoryboardViewer.offsetX P == 0)%Q)
   ∧ (let wide := StoryboardViewer.coverFit 640 360 1280 640 in
      (StoryboardViewer.renderW wide == 720
       ∧ StoryboardViewer.renderH wide == 360
       ∧ StoryboardViewer.offsetX wide == -40 # 1
       ∧ StoryboardViewer.offsetY wide == 0)%Q)
   ∧ (let tall := StoryboardViewer.coverFit 640 360 320 640 in
      (StoryboardViewer.renderW tall == 640
       ∧ StoryboardViewer.renderH tall == 1280
       ∧ StoryboardViewer.offsetX tall == 0
       ∧ StoryboardViewer.offsetY tall == -460 # 1)%Q)).
Proof.
  intros Hcw Hch Hw Hh P imgRatio targetRatio.
  pose proof (inject_Z_nonzero _ Hcw) as Ncw.
  pose proof (inject_Z_nonzero _ Hch) as Nch.
  pose proof (inject_Z_nonzero _ Hw) as Nw.
  pose proof (inject_Z_nonzero _ Hh) as Nh.
  split; [|split; [|split]].
  - intros Hlt. unfold P, StoryboardViewer.coverFit.
    fold imgRatio targetRatio.
    destruct (Qle_bool imgRatio targetRatio) eqn:Hle.
    { apply Qle_bool_iff in Hle. exfalso. by apply (Qlt_not_le _ _ Hlt). }
    simpl. unfold imgRatio. repeat split; try reflexivity. field. done.
  - intros Hle. unfold P, StoryboardViewer.coverFit.
    fold imgRatio targetRatio.
    apply Qle_bool_iff in Hle. rewrite Hle. simpl. unfold imgRatio.
    repeat split; try reflexivity. field. done.
  - vm_compute. repeat split.
  - vm_compute. repeat split.
Qed.

(** C6 at work: a 1280 by 640 image in a 640 by 360 cell. *)
Lemma coverFit_branches_witness :
  let P := StoryboardViewer.coverFit 640 360 1280 640 in
  ((0 < 640)%Z ∧ (0 < 360)%Z ∧ (0 < 1280)%Z ∧ (0 < 640)%Z)
  ∧ (inject_Z 640 / inject_Z 360 < inject_Z 1280 / inject_Z 640)%Q
  ∧ (StoryboardViewer.renderH P == inject_Z 360)%Q
  ∧ (StoryboardViewer.offsetX P
     == (inject_Z 640 - StoryboardViewer.renderW P) / 2)%Q
  ∧ (StoryboardViewer.offsetY P == 0)%Q.
Proof.
  intros P.
  assert (Hpos : (0 < 640)%Z ∧ (0 < 360)%Z ∧ (0 < 1280)%Z ∧ (0 < 640)%Z)
    by (repeat split; reflexivity).
  assert (Hwide : (inject_Z 640 / inject_Z 360 < inject_Z 1280 / inject_Z 640)%Q)
    by reflexivity.
  split; [exact Hpos|]. split; [exact Hwide|].
  destruct Hpos as (H1 & H2 & H3 & H4).
  destruct (coverFit_branches 640 360 1280 640 H1 H2 H3 H4) as (Hbranch & _).
  destruct (Hbranch Hwide) as (Hh & _ & _ & Hx & Hy).
  repeat split; assumption.
Defined.

(** ** The history list *)

Section Array_sort.
Context {A : Type} (key : A → Z).

(** The comparator [(a, b) => key(b) - key(a)]. *)
Let desc (a b : A) : Z := (key b - key a)%Z.
Let ge (a b : A) : Prop := (key b ≤ key a)%Z.

Lemma insert_Permutation (x : A) (l : list A) :
  HistoryList.insert desc x l ≡ₚ x :: l.
Proof.
  induction l as [|y l IH]; simpl; [done|].
  destruct (0 <? desc x y)%Z; [|done].
  rewrite IH. apply Permutation_swap.
Qed.

Lemma Array_sort_Permutation (l : list A) :
  HistoryList.Array_sort desc l ≡ₚ l.
Proof.
  induction l as [|x l IH]; simpl; [done|].
  unfold HistoryList.Array_sort in *. simpl.
  rewrite insert_Permutation. by rewrite IH.
Qed.

Lemma insert_sorted (x : A) (l : list A) :
  StronglySorted ge l → StronglySorted ge (HistoryList.insert desc x l).
Proof.
  induction 1 as [|y l Hl IH Hy]; simpl.
  - repeat constructor.
  - destruct (0 <? desc x y)%Z eqn:Hcmp.
    + apply Z.ltb_lt in Hcmp. constructor; [exact IH|].
      rewrite insert_Permutation. constructor; [|exact Hy].
      unfold ge, desc in *. lia.
    + apply Z.ltb_ge in Hcmp. constructor; [by constructor|].
      constructor; [unfold ge, desc in *; lia|].
      eapply Forall_impl; [exact Hy|]. unfold ge, desc in *.
      intros z Hz. simpl in *. lia.
Qed.

Lemma Array_sort_sorted (l : list A) :
  StronglySorted ge (HistoryList.Array_sort desc l).
Proof.
  induction l as [|x l IH]; [constructor|].
  unfold HistoryList.Array_sort in *. simpl. by apply insert_sorted.
Qed.

(** The sort is stable: entries with equal keys keep their order. *)
Lemma insert_stable (k : Z) (x : A) (l : list A) :
  filter (fun y => key y = k) (HistoryList.insert desc x l)
  = filter (fun y => key y = k) (x :: l).
Proof.
  induction l as [|y l IH]; simpl; [done|].
  destruct (0 <? desc x y)%Z eqn:Hcmp; [|done].
  apply Z.ltb_lt in Hcmp. unfold desc in Hcmp.
  rewrite (filter_cons _ y), IH.
  rewrite !filter_cons.
  destruct (decide (key y = k)) as [Hy|]; [|done].
  destruct (decide (key x = k)) as [Hx|]; [lia|done].
Qed.

Lemma Array_sort_stable (k : Z) (l : list A) :
  filter (fun y => key y = k) (HistoryList.Array_sort desc l)
  = filter (fun y => key y = k) l.
Proof.
  induction l as [|x l IH]; [done|].
  unfold HistoryList.Array_sort in *. simpl.
  rewrite insert_stable, !filter_cons, IH. done.
Qed.

End Array_sort.

Lemma filter_Forall_id {A} (P : A → Prop) `{∀ x, Decision (P x)} (l : list A) :
  Forall P l → filter P l = l.
Proof.
  induction 1 as [|x l Hx Hl IH]; [done|].
  by rewrite filter_cons_True, IH.
Qed.

Lemma render_Array_sort (items : list SavedStoryboard.t) :
  HistoryList.render items
  = HistoryList.Array_sort HistoryList.by_timestamp_desc items.
Proof. by destruct items. Qed.

(** C7.  The history list shows the stored entries newest first (entries
    stamped 100, 300, 200 appear as 300, 200, 100).  Deleting by id leaves,
    in memory and in local storage alike, the entries with another id in
    their order, so that exactly the entry with that id is gone when it is
    the only one with it.  Clearing leaves no entry in memory and none in
    local storage: the key is removed, which reads back as the empty list. *)
Theorem history_order_delete_clear :
  (∀ items : list SavedStoryboard.t,
     HistoryList.render items ≡ₚ items
     ∧ StronglySorted newest_first (HistoryList.render items))
  ∧ (∀ a b c : SavedStoryboard.t,
       SavedStoryboard.timestamp a = 100%Z →
       SavedStoryboard.timestamp b = 300%Z →
       SavedStoryboard.timestamp c = 200%Z →
       HistoryList.render [a; b; c] = [b; c; a])
  ∧ (∀ (id : string) (st : Storage) (s : App.State),
       let '(s', st') := App.deleteFromHistory id st s in
       App.history s'
       = filter (fun item => SavedStoryboard.id item ≠ id) (App.history s)
       ∧ cinescript_history_v2 st' = Some (App.history s')
       ∧ ∀ before e after,
           App.history s = before ++ e :: after →
           SavedStoryboard.id e = id →
           Forall (fun item => SavedStoryboard.id item ≠ id) (before ++ after) →
           App.history s' = before ++ after)
  ∧ (∀ (st : Storage) (s : App.State) (env : option string),
       let '(s', st') := App.clearHistory st s in
       App.history s' = []
       ∧ cinescript_history_v2 st' = None
       ∧ App.history
           (App.mount {| localStorage := st'; env_API_KEY := env |} App.initial)
         = []).
Proof.
  split; [|split; [|split]].
  - intros items. rewrite render_Array_sort. split.
    + apply (Array_sort_Permutation SavedStoryboard.timestamp).
    + apply (Array_sort_sorted SavedStoryboard.timestamp).
  - intros a b c Ha Hb Hc. simpl.
    unfold HistoryList.Array_sort, HistoryList.by_timestamp_desc. simpl.
    rewrite Hb, Hc. simpl. rewrite Ha, Hb, Hc. reflexivity.
  - intros id st s. simpl. split; [done|]. split; [done|].
    intros before e after Hs He Hall. rewrite Hs.
    rewrite filter_app, filter_cons_False by (intros Hne; by apply Hne).
    apply Forall_app in Hall as [Hb Ha].
    by rewrite !filter_Forall_id.
  - intros st s env. simpl. done.
Qed.

(** C7 on the sample history, stored as 100, 300, 200: the list shows 300,
    200, 100; deleting the entry stamped 200 leaves 300, 100 in memory and
    in local storage. *)
Lemma history_order_delete_clear_witness :
  let '(shown, rows) := App.render SampleHistory.shell in
  let '(s', st') :=
    App.deleteFromHistory (SavedStoryboard.id SampleHistory.e200)
      SampleHistory.stored shown in
  rows = Some [SampleHistory.e300; SampleHistory.e200; SampleHistory.e100]
  ∧ App.history s' = [SampleHistory.e300; SampleHistory.e100]
  ∧ cinescript_history_v2 st' = Some [SampleHistory.e300; SampleHistory.e100].
Proof.
  pose proof history_order_delete_clear as (_ & Horder & Hdelete & _).
  simpl.
  specialize (Horder SampleHistory.e100 SampleHistory.e300 SampleHistory.e200
                eq_refl eq_refl eq_refl).
  split; [by rewrite <- Horder|].
  specialize (Hdelete (SavedStoryboard.id SampleHistory.e200)
                SampleHistory.stored (fst (App.render SampleHistory.shell))).
  simpl in Hdelete. destruct Hdelete as (_ & _ & Hexact).
  specialize (Hexact [SampleHistory.e300] SampleHistory.e200
                [SampleHistory.e100] eq_refl eq_refl).
  assert (Hmem : filter (λ item, SavedStoryboard.id item ≠ "200")
                   [SampleHistory.e300; SampleHistory.e200; SampleHistory.e100]
                 = [SampleHistory.e300; SampleHistory.e100]).
  { apply Hexact. repeat constructor; discriminate. }
  by rewrite Hmem.
Defined.

(** ** The shell *)

(** C8.  With no credential in local storage (none, or the empty string)
    and none in the environment, [handleGenerate] stops at its guard: the
    screen stays where it was (no [ANALYZING] state is entered), nothing is
    done to the outside and local storage is untouched; the only changes
    are the missing-credential message and the opened settings panel. *)
Theorem handleGenerate_without_credential
    (W : World) (X : Externals) (clock : App.Clock) (input : Input)
    (options : GenerationOptions) (s : App.State) :
  Js.truthy (cinescript_api_key (localStorage W)) = false →
  Js.truthy (env_API_KEY W) = false →
  let r := App.handleGenerate W X clock input options s in
  ∃ s', App.states r = [s']
        ∧ App.appState s' = App.appState s
        ∧ App.error s' = Some App.MSG_NO_KEY
        ∧ App.isSettingsOpen s' = true
        ∧ App.performed r = []
        ∧ App.storage r = localStorage W
        ∧ App.selectedImage s' = App.selectedImage s
        ∧ App.previewImageData s' = App.previewImageData s
        ∧ App.selectedText s' = App.selectedText s
        ∧ App.storyboardData s' = App.storyboardData s
        ∧ App.selectedOptions s' = App.selectedOptions s
        ∧ App.history s' = App.history s
        ∧ App.hasKey s' = App.hasKey s.
Proof.
  intros Hsaved Henv r. unfold r, App.handleGenerate, App.handleGenerate_guard.
  rewrite Hsaved, Henv. simpl. eexists. split; [reflexivity|].
  repeat split.
Qed.

(** C8 at work: an empty string stored and no environment key, on the
    upload screen. *)
Lemma handleGenerate_without_credential_witness :
  let W := Sample.world (Some "") None in
  let r :=
    App.handleGenerate W Sample.service_echo_9x16 SampleShell.clock
      (InText "rain") Sample.options_16x9 App.initial in
  Js.truthy (cinescript_api_key (localStorage W)) = false
  ∧ Js.truthy (env_API_KEY W) = false
  ∧ ∃ s', App.states r = [s']
          ∧ App.appState s' = UPLOAD
          ∧ App.error s' = Some App.MSG_NO_KEY
          ∧ App.isSettingsOpen s' = true
          ∧ App.performed r = [].
Proof.
  intros W r. split; [reflexivity|]. split; [reflexivity|].
  destruct (handleGenerate_without_credential W Sample.service_echo_9x16
              SampleShell.clock (InText "rain") Sample.options_16x9
              App.initial eq_refl eq_refl)
    as (s' & Hs & Hstate & Herr & Hopen & Hdone & _).
  exists s'. repeat split; assumption.
Defined.

(** C9.  When the guard lets the run through and [generateStoryboard]
    throws [err], the shell goes to [ANALYZING] and then back to [UPLOAD]
    with the message for the kind of [err], decided on [err.message] in this
    order: it mentions "API key": the credential message, and the settings
    panel is opened; otherwise it mentions "JSON": the malformed-response
    message, the panel left as it was; otherwise it mentions "Requested
    entity was not found": the invalid-project-or-key message, and the panel
    is opened; otherwise (also when [err] has no message): the generic
    message, the panel left as it was.  The storyboard held by the shell, the
    history in memory and local storage are what they were before the
    run. *)
Theorem handleGenerate_failure
    (W : World) (X : Externals) (clock : App.Clock) (input : Input)
    (options : GenerationOptions) (s : App.State) (err : Js.Thrown) :
  App.handleGenerate_guard W = false →
  thrown (GeminiService.generateStoryboard W X input options) = Some err →
  let r := App.handleGenerate W X clock input options s in
  let mentions := Js.message_includes (Js.message err) in
  ∃ analyzing final,
    App.states r = [analyzing; final]
    ∧ App.appState analyzing = ANALYZING
    ∧ App.appState final = UPLOAD
    ∧ (if mentions "API key"
       then App.error final = Some App.MSG_AUTH
            ∧ App.isSettingsOpen final = true
       else if mentions "JSON"
       then App.error final = Some App.MSG_FORMAT
            ∧ App.isSettingsOpen final = App.isSettingsOpen s
       else if mentions "Requested entity was not found"
       then App.error final = Some App.MSG_NOT_FOUND
            ∧ App.isSettingsOpen final = true
       else App.error final = Some App.MSG_GENERIC
            ∧ App.isSettingsOpen final = App.isSettingsOpen s)
    ∧ App.storyboardData analyzing = App.storyboardData s
    ∧ App.storyboardData final = App.storyboardData s
    ∧ App.history final = App.history s
    ∧ App.storage r = localStorage W.
Proof.
  intros Hguard Hthrown r mentions. unfold r, App.handleGenerate.
  rewrite Hguard. unfold thrown in Hthrown.
  destruct (GeminiService.generateStoryboard W X input options)
    as [evs [e|data]]; simpl in Hthrown; [|discriminate].
  injection Hthrown as ->. cbv iota beta.
  eexists _, _. split; [reflexivity|].
  unfold App.handleGenerate_catch, App.failure_message. fold mentions.
  split; [by destruct input|].
  destruct (mentions "API key");
    [|destruct (mentions "JSON");
      [|destruct (mentions "Requested entity was not found")]];
    destruct input; simpl; split_and!; reflexivity.
Qed.

(** C9 on three failures.  A regeneration that fails because the service
    answers without text: the shell is back on the upload screen with the
    generic message, and the storyboard it showed before is still the one it
    holds.  A service that turns the key down: the credential message, and
    the settings panel opens.  An answer that breaks off: the
    malformed-response message. *)
Lemma handleGenerate_failure_witness :
  let r :=
    App.handleGenerate SampleShell.keyed Sample.service_silent
      SampleShell.clock (InText "rain") Sample.options_16x9
      SampleShell.viewing in
  let denied :=
    App.handleGenerate SampleShell.keyed Sample.service_rejects_key
      SampleShell.clock (InText "rain") Sample.options_16x9 App.initial in
  let broken :=
    App.handleGenerate SampleShell.keyed Sample.service_truncated
      SampleShell.clock (InText "rain") Sample.options_16x9 App.initial in
  App.handleGenerate_guard SampleShell.keyed = false
  ∧ thrown (GeminiService.generateStoryboard SampleShell.keyed
              Sample.service_silent (InText "rain") Sample.options_16x9)
    = Some (Js.Error GeminiService.NO_RESPONSE)
  ∧ App.appState SampleShell.viewing = STORYBOARD
  ∧ App.storyboardData SampleShell.viewing = Some Sample.echo_9x16_value
  ∧ (∃ analyzing final,
      App.states r = [analyzing; final]
      ∧ App.appState analyzing = ANALYZING
      ∧ App.appState final = UPLOAD
      ∧ App.error final = Some App.MSG_GENERIC
      ∧ App.storyboardData final = Some Sample.echo_9x16_value
      ∧ App.history final = [SampleHistory.e100; SampleHistory.e300;
                             SampleHistory.e200]
      ∧ App.storage r = localStorage SampleShell.keyed)
  ∧ (∃ analyzing final,
      App.states denied = [analyzing; final]
      ∧ App.error final = Some App.MSG_AUTH
      ∧ App.isSettingsOpen final = true)
  ∧ (∃ analyzing final,
      App.states broken = [analyzing; final]
      ∧ App.error final = Some App.MSG_FORMAT
      ∧ App.isSettingsOpen final = false).
Proof.
  intros r denied broken. do 4 (split; [reflexivity|]).
  split; [|split].
  - destruct (handleGenerate_failure SampleShell.keyed Sample.service_silent
                SampleShell.clock (InText "rain") Sample.options_16x9
                SampleShell.viewing (Js.Error GeminiService.NO_RESPONSE)
                eq_refl eq_refl)
      as (a & f & Hs & Ha & Hf & [He _] & Hda & Hdf & Hh & Hst).
    exists a, f. repeat split; assumption.
  - destruct (handleGenerate_failure SampleShell.keyed
                Sample.service_rejects_key SampleShell.clock (InText "rain")
                Sample.options_16x9 App.initial
                (Js.Error "API key not valid. Please pass a valid API key.")
                eq_refl eq_refl)
      as (a & f & Hs & _ & _ & [He Ho] & _).
    exists a, f. repeat split; assumption.
  - destruct (handleGenerate_failure SampleShell.keyed
                Sample.service_truncated SampleShell.clock (InText "rain")
                Sample.options_16x9 App.initial
                (Js.Error "Unexpected end of JSON input")
                eq_refl eq_refl)
      as (a & f & Hs & _ & _ & [He Ho] & _).
    exists a, f. repeat split; assumption.
Defined.

(** ** The viewer *)

Lemma with_keyframes_id (d : StoryboardData.t) :
  StoryboardViewer.with_keyframes (StoryboardData.keyframes d) d = d.
Proof. by destruct d. Qed.

(** C10.  Editing the dialogue for keyframe id [id]: every part of the
    storyboard other than the keyframe list is unchanged; the list keeps its
    length and order; a keyframe with another id is unchanged; a keyframe
    with id [id] gets the new dialogue and keeps all its other fields; and
    when no keyframe has id [id] the storyboard is unchanged. *)
Theorem handleDialogueChange_frame (id : Z) (newDialogue : string)
    (prev : StoryboardData.t) :
  let next := StoryboardViewer.handleDialogueChange id newDialogue prev in
  StoryboardData.sourceScript next = StoryboardData.sourceScript prev
  ∧ StoryboardData.aspectRatio next = StoryboardData.aspectRatio prev
  ∧ StoryboardData.headline next = StoryboardData.headline prev
  ∧ StoryboardData.breakdown next = StoryboardData.breakdown prev
  ∧ StoryboardData.theme next = StoryboardData.theme prev
  ∧ StoryboardData.approach next = StoryboardData.approach prev
  ∧ StoryboardData.auditions next = StoryboardData.auditions prev
  ∧ length (StoryboardData.keyframes next)
    = length (StoryboardData.keyframes prev)
  ∧ (∀ i kf, StoryboardData.keyframes prev !! i = Some kf →
       ∃ kf', StoryboardData.keyframes next !! i = Some kf'
              ∧ same_but_dialogue kf kf'
              ∧ (Keyframe.id kf = id → Keyframe.dialogue kf' = newDialogue)
              ∧ (Keyframe.id kf ≠ id → kf' = kf))
  ∧ (Forall (fun kf => Keyframe.id kf ≠ id) (StoryboardData.keyframes prev) →
     next = prev).
Proof.
  intros next. unfold next, StoryboardViewer.handleDialogueChange.
  do 7 (split; [reflexivity|]). simpl. split; [|split].
  - apply length_map.
  - intros i kf Hi. rewrite list_lookup_fmap, Hi. simpl.
    eexists. split; [reflexivity|].
    destruct (Z.eqb_spec (Keyframe.id kf) id) as [Heq|Hne].
    + split; [by repeat split|]. split; [done|]. intros Hne. congruence.
    + split; [by repeat split|]. split; [intros; congruence|done].
  - intros Hall.
    assert (Hmap :
      map (fun kf => if (Keyframe.id kf =? id)%Z
                     then StoryboardViewer.with_dialogue newDialogue kf
                     else kf) (StoryboardData.keyframes prev)
      = StoryboardData.keyframes prev).
    { induction Hall as [|kf kfs Hkf Hall IH]; [done|]. simpl.
      destruct (Z.eqb_spec (Keyframe.id kf) id); [done|]. by rewrite IH. }
    rewrite Hmap. apply with_keyframes_id.
Qed.

(** ** Visual generation *)

Section VisualGeneration.
Import StoryboardViewer Visual.

Lemma filter_delete_False {A} (P : A → Prop) `{∀ x, Decision (P x)}
    (l : list A) (n : nat) (x : A) :
  l !! n = Some x → ¬ P x → filter P (delete n l) = filter P l.
Proof.
  intros Hn Hx. rewrite <- (take_drop_middle l n x Hn) at 2.
  rewrite delete_take_drop, !filter_app, filter_cons_False by done. done.
Qed.

Lemma filter_delete_only {A} (P : A → Prop) `{∀ x, Decision (P x)}
    (l : list A) (n : nat) (x y : A) :
  l !! n = Some x → P x → filter P l = [y] →
  x = y ∧ filter P (delete n l) = [].
Proof.
  intros Hn Hx. rewrite <- (take_drop_middle l n x Hn) at 1.
  rewrite delete_take_drop, !filter_app, filter_cons_True by done.
  intros Heq.
  destruct (filter P (take n l)) as [|z zs].
  - simpl in Heq. injection Heq as -> ->. done.
  - simpl in Heq. injection Heq as -> Heq.
    by destruct zs.
Qed.

Lemma filter_none {A} (P : A → Prop) `{∀ x, Decision (P x)} (l : list A) :
  Forall (fun x => ¬ P x) l → filter P l = [].
Proof.
  induction 1 as [|x l Hx Hl IH]; [done|].
  by rewrite filter_cons_False.
Qed.

(** What the handlers leave alone. *)

Lemma generateVisual_begin_other closure t kf k v t' :
  t' ≠ t →
  let v' := (generateVisual_begin closure t kf k v).1 in
  log_of t' v' = log_of t' v ∧ pending_of t' v' = pending_of t' v
  ∧ next_task v' = next_task v.
Proof.
  intros Hne. unfold generateVisual_begin.
  destruct (is_loading closure (Keyframe.id kf)); simpl; [done|].
  unfold log_of, pending_of. simpl.
  rewrite !filter_app, !filter_cons_False, !filter_nil, !app_nil_r by
    (simpl; congruence).
  done.
Qed.

Lemma generateAllVisuals_loop_other closure t kfs v t' :
  t' ≠ t →
  let v' := generateAllVisuals_loop closure t kfs v in
  log_of t' v' = log_of t' v ∧ pending_of t' v' = pending_of t' v
  ∧ next_task v' = next_task v.
Proof.
  intros Hne. revert v. induction kfs as [|kf rest IH]; intros v; simpl; [done|].
  destruct (is_generated closure (Keyframe.id kf)); [apply IH|].
  pose proof (generateVisual_begin_other closure t kf
                (NextOfSweep closure rest) v t' Hne) as Hb.
  destruct (generateVisual_begin closure t kf (NextOfSweep closure rest) v)
    as [v1 [|]]; simpl in Hb; [done|].
  destruct Hb as (Hl & Hp & Hn). specialize (IH v1). simpl in IH.
  destruct IH as (Hl' & Hp' & Hn'). by rewrite Hl', Hp', Hn'.
Qed.

Lemma generateVisual_end_same id outcome v :
  let v' := generateVisual_end id outcome v in
  log v' = log v ∧ pending v' = pending v ∧ next_task v' = next_task v.
Proof. by destruct outcome. Qed.

(** Handler runs stay numbered in order. *)

Lemma numbered_new_task v : numbered v → numbered (new_task v).
Proof.
  intros [Hp Hl]. split; simpl.
  - eapply Forall_impl; [exact Hp|]. simpl. lia.
  - eapply Forall_impl; [exact Hl|]. simpl. lia.
Qed.

Lemma numbered_begin closure t kf k v :
  t < next_task v → numbered v →
  numbered (generateVisual_begin closure t kf k v).1.
Proof.
  intros Ht [Hp Hl]. unfold generateVisual_begin.
  destruct (is_loading closure (Keyframe.id kf)); simpl; [done|].
  split; simpl; apply Forall_app; split; try done; by repeat constructor.
Qed.

Lemma numbered_loop closure t kfs v :
  t < next_task v → numbered v →
  numbered (generateAllVisuals_loop closure t kfs v).
Proof.
  revert v. induction kfs as [|kf rest IH]; intros v Ht Hv; simpl; [done|].
  destruct (is_generated closure (Keyframe.id kf)); [by apply IH|].
  pose proof (numbered_begin closure t kf (NextOfSweep closure rest) v Ht Hv)
    as Hb.
  pose proof (generateVisual_begin_other closure t kf
                (NextOfSweep closure rest) v (S t) ltac:(lia)) as (_ & _ & Hn).
  destruct (generateVisual_begin closure t kf (NextOfSweep closure rest) v)
    as [v1 [|]]; simpl in *; [done|].
  apply IH; [lia|done].
Qed.

Lemma numbered_step v a v' :
  numbered v → step v a = Some v' →
  numbered v' ∧ (next_task v ≤ next_task v')%nat.
Proof.
  intros Hv. destruct a as [i| |id d|n outcome]; simpl.
  - destruct (StoryboardData.keyframes (editableData v) !! i) as [kf|];
      simpl; [|discriminate].
    destruct (_ || _); [discriminate|]. intros [= <-]. split.
    + apply numbered_begin; [simpl; lia|by apply numbered_new_task].
    + pose proof (generateVisual_begin_other (images v) (next_task v) kf
                    EndVisual (new_task v) (S (next_task v)) ltac:(lia))
        as (_ & _ & Hn).
      rewrite Hn. simpl. lia.
  - intros [= <-]. split.
    + apply numbered_loop; [simpl; lia|by apply numbered_new_task].
    + pose proof (generateAllVisuals_loop_other (images v) (next_task v)
                    (StoryboardData.keyframes (editableData v)) (new_task v)
                    (S (next_task v)) ltac:(lia)) as (_ & _ & Hn).
      rewrite Hn. simpl. lia.
  - intros [= <-]. by split.
  - destruct (pending v !! n) as [p|] eqn:Hp; simpl; [|discriminate].
    destruct Hv as [Hpend Hlog].
    assert (Hlt : task p < next_task v).
    { rewrite Forall_lookup in Hpend. by apply (Hpend n). }
    set (v1 := generateVisual_end _ _ _).
    assert (Hv1 : numbered v1 ∧ next_task v1 = next_task v).
    { unfold v1. destruct outcome; simpl; (split; [|done]); split; simpl;
        try (apply Forall_app; split; [done|by repeat constructor]);
        rewrite delete_take_drop; apply Forall_app; split;
        [by apply Forall_take|by apply Forall_drop
        |by apply Forall_take|by apply Forall_drop]. }
    destruct Hv1 as [Hv1 Hn1].
    destruct (resume p) as [|closure rest]; intros [= <-].
    + split; [done|lia].
    + split.
      * apply numbered_loop; [lia|done].
      * pose proof (generateAllVisuals_loop_other closure (task p) rest v1
                      (S (task p)) ltac:(lia)) as (_ & _ & Hn).
        rewrite Hn. lia.
Qed.

Lemma numbered_run v actions v' :
  numbered v → run v actions = Some v' →
  numbered v' ∧ (next_task v ≤ next_task v')%nat.
Proof.
  revert v. induction actions as [|a actions IH]; intros v Hv; simpl.
  - intros [= <-]. by split.
  - destruct (step v a) as [v1|] eqn:Hstep; simpl; [|discriminate].
    intros Hrun. destruct (numbered_step v a v1 Hv Hstep) as [Hv1 Hle].
    destruct (IH v1 Hv1 Hrun) as [Hv' Hle']. split; [done|lia].
Qed.

Lemma numbered_mount data : numbered (mount data).
Proof. split; constructor. Qed.

(** The sweep. *)

Lemma generateAllVisuals_loop_idle closure t kf rest v :
  not_cached closure kf → not_busy closure kf →
  generateAllVisuals_loop closure t (kf :: rest) v
  = call {| task := t; kf_id := Keyframe.id kf;
            resume := NextOfSweep closure rest |}
      (prompt_of kf) (setLoading (Keyframe.id kf) true v).
Proof.
  unfold not_cached, not_busy. intros Hc Hb. simpl.
  unfold generateVisual_begin. by rewrite Hc, Hb.
Qed.

Lemma sweep_log_snoc t done kf :
  sweep_log t (done ++ [kf])
  = sweep_log t done
    ++ [Issued t (Keyframe.id kf) (prompt_of kf); Settled t (Keyframe.id kf)].
Proof. unfold sweep_log. rewrite flat_map_app. done. Qed.

Lemma generateAllVisuals_loop_cases closure t kfs v :
  (eligible closure kfs = [] ∧ generateAllVisuals_loop closure t kfs v = v)
  ∨ ∃ kf raw,
      eligible closure kfs = kf :: eligible closure raw
      ∧ generateAllVisuals_loop closure t kfs v
        = call {| task := t; kf_id := Keyframe.id kf;
                  resume := NextOfSweep closure raw |}
            (prompt_of kf) (setLoading (Keyframe.id kf) true v).
Proof.
  induction kfs as [|kf rest IH]; simpl; [by left|].
  unfold eligible in *.
  destruct (is_generated closure (Keyframe.id kf)) eqn:Hc.
  { rewrite filter_cons_False by (intros [? _]; congruence). exact IH. }
  unfold generateVisual_begin.
  destruct (is_loading closure (Keyframe.id kf)) eqn:Hb.
  { rewrite filter_cons_False by (intros [_ ?]; congruence). exact IH. }
  right. exists kf, rest. by rewrite filter_cons_True.
Qed.

Lemma eligible_idle closure kfs :
  Forall (not_cached closure) kfs → Forall (not_busy closure) kfs →
  eligible closure kfs = kfs.
Proof.
  intros Hc Hb. apply filter_Forall_id.
  rewrite Forall_forall in Hc, Hb. apply Forall_forall.
  intros kf Hkf. split; [by apply Hc|by apply Hb].
Qed.

(** What a call adds to the log and to the calls in flight of its run. *)
Lemma call_same t id k prompt w v :
  log_of t (call {| task := t; kf_id := id; resume := k |} prompt
              (setLoading w true v))
  = log_of t v ++ [Issued t id prompt]
  ∧ pending_of t (call {| task := t; kf_id := id; resume := k |} prompt
                    (setLoading w true v))
    = pending_of t v ++ [{| task := t; kf_id := id; resume := k |}].
Proof.
  unfold log_of, pending_of. simpl.
  by rewrite !filter_app, !filter_cons_True, !filter_nil.
Qed.

Lemma sweeping_resume closure t kfs done raw v :
  eligible closure kfs = done ++ eligible closure raw →
  log_of t v = sweep_log t done → pending_of t v = [] →
  sweeping closure t kfs (generateAllVisuals_loop closure t raw v).
Proof.
  intros Hk Hl Hp. exists done.
  destruct (generateAllVisuals_loop_cases closure t raw v)
    as [[Hnone ->]|(kf & raw' & Hnext & ->)].
  - left. rewrite Hnone, app_nil_r in Hk. by split_and!.
  - right. exists kf, raw'.
    destruct (call_same t (Keyframe.id kf) (NextOfSweep closure raw')
                (prompt_of kf) (Keyframe.id kf) v) as [-> ->].
    rewrite Hl, Hp, Hk, Hnext. by split_and!.
Qed.

Lemma sweeping_step closure t kfs v a v' :
  numbered v → t < next_task v →
  sweeping closure t kfs v → step v a = Some v' →
  sweeping closure t kfs v'.
Proof.
  intros Hv Ht (done & Hat).
  assert (Hother : log_of t v' = log_of t v → pending_of t v' = pending_of t v →
                   sweeping closure t kfs v').
  { intros Hl Hp. exists done. by rewrite Hl, Hp. }
  destruct a as [i| |id d|n outcome]; simpl.
  - destruct (StoryboardData.keyframes (editableData v) !! i) as [kf|];
      simpl; [|discriminate].
    destruct (_ || _); [discriminate|]. intros [= <-].
    pose proof (generateVisual_begin_other (images v) (next_task v) kf
                  EndVisual (new_task v) t ltac:(lia)) as (Hl & Hp & _).
    by apply Hother.
  - intros [= <-].
    pose proof (generateAllVisuals_loop_other (images v) (next_task v)
                  (StoryboardData.keyframes (editableData v)) (new_task v)
                  t ltac:(lia)) as (Hl & Hp & _).
    by apply Hother.
  - intros [= <-]. by apply Hother.
  - destruct (pending v !! n) as [p|] eqn:Hn; simpl; [|discriminate].
    set (v0 := settled p (delete n (pending v)) v).
    set (v1 := generateVisual_end (kf_id p) outcome v0).
    pose proof (generateVisual_end_same (kf_id p) outcome v0)
      as (Hl1 & Hp1 & Hn1). fold v1 in Hl1, Hp1, Hn1.
    destruct (decide (task p = t)) as [Hpt|Hpt].
    + (* the call of the sweep itself settles *)
      destruct Hat as [(Hnone & _ & _)|(kf & raw & Hpend & Hlog & Hk)].
      { assert (Hin : p ∈ pending_of t v).
        { apply list_elem_of_filter. split; [done|].
          by eapply list_elem_of_lookup_2. }
        rewrite Hnone in Hin. by apply elem_of_nil in Hin. }
      destruct (filter_delete_only (fun q => task q = t) (pending v) n p _
                  Hn Hpt Hpend) as [-> Hgone].
      simpl. intros [= <-].
      apply (sweeping_resume closure t kfs (done ++ [kf]) raw).
      * by rewrite <- app_assoc.
      * unfold log_of in *. rewrite Hl1. simpl.
        rewrite filter_app, filter_cons_True, filter_nil by done.
        rewrite Hlog, sweep_log_snoc, <- app_assoc. done.
      * unfold pending_of in *. rewrite Hp1. simpl. done.
    + (* a call of another handler run settles *)
      assert (Hl0 : log_of t v1 = log_of t v).
      { unfold log_of. rewrite Hl1. simpl.
        by rewrite filter_app, filter_cons_False, filter_nil, app_nil_r. }
      assert (Hp0 : pending_of t v1 = pending_of t v).
      { unfold pending_of. rewrite Hp1. simpl.
        by apply (filter_delete_False _ _ _ p). }
      destruct (resume p) as [|closure' rest']; intros [= <-].
      * by apply Hother.
      * pose proof (generateAllVisuals_loop_other closure' (task p) rest' v1
                      t ltac:(congruence)) as (Hl & Hp & _).
        apply Hother; congruence.
Qed.

Lemma sweeping_run closure t kfs v actions v' :
  numbered v → t < next_task v →
  sweeping closure t kfs v → run v actions = Some v' →
  sweeping closure t kfs v'.
Proof.
  revert v. induction actions as [|a actions IH]; intros v Hv Ht Hat; simpl.
  - by intros [= <-].
  - destruct (step v a) as [v1|] eqn:Hstep; simpl; [|discriminate].
    destruct (numbered_step v a v1 Hv Hstep) as [Hv1 Hle].
    intros Hrun.
    apply (IH v1); [exact Hv1|lia| |exact Hrun].
    exact (sweeping_step closure t kfs v a v1 Hv Ht Hat Hstep).
Qed.

Lemma sweeping_start v :
  numbered v →
  sweeping (images v) (next_task v)
    (StoryboardData.keyframes (editableData v))
    (generateAllVisuals_loop (images v) (next_task v)
       (StoryboardData.keyframes (editableData v)) (new_task v)).
Proof.
  intros [Hp Hl].
  apply (sweeping_resume _ _ _ []); try done.
  - unfold log_of. simpl. apply filter_none.
    eapply Forall_impl; [exact Hl|]. simpl. lia.
  - unfold pending_of. simpl. apply filter_none.
    eapply Forall_impl; [exact Hp|]. simpl. lia.
Qed.

(** What a sweep that stands somewhere has done. *)
Lemma sweeping_facts closure t kfs v :
  sweeping closure t kfs v →
  log_of t v `prefix_of` sweep_log t (eligible closure kfs)
  ∧ (length (pending_of t v) ≤ 1)%nat
  ∧ (pending_of t v = [] → log_of t v = sweep_log t (eligible closure kfs)).
Proof.
  intros (done & [(Hp & Hl & Hk)|(kf & raw & Hp & Hl & Hk)]);
    rewrite Hp, Hl, Hk.
  - split_and!; [done|simpl; lia|done].
  - split_and!; [|simpl; lia|discriminate].
    unfold sweep_log. rewrite flat_map_app. simpl.
    apply prefix_app, prefix_cons, prefix_nil.
Qed.

(** With only the calls of run [t] in flight, quiet events keep it so. *)
Lemma generateAllVisuals_loop_tasks closure t kfs v :
  Forall (fun p => task p = t) (pending v) →
  Forall (fun p => task p = t)
    (pending (generateAllVisuals_loop closure t kfs v)).
Proof.
  intros Hv.
  destruct (generateAllVisuals_loop_cases closure t kfs v)
    as [[_ ->]|(kf & raw & _ & ->)]; [done|].
  simpl. apply Forall_app. split; [done|by repeat constructor].
Qed.

Lemma quiet_step_tasks t v a v' :
  quiet a → Forall (fun p => task p = t) (pending v) →
  step v a = Some v' → Forall (fun p => task p = t) (pending v').
Proof.
  intros Hq Hv. destruct a as [i| |id d|n outcome]; simpl; try done.
  - by intros [= <-].
  - destruct (pending v !! n) as [p|] eqn:Hn; simpl; [|discriminate].
    assert (Hpt : task p = t).
    { rewrite Forall_lookup in Hv. by apply (Hv n). }
    set (v1 := generateVisual_end _ _ _).
    assert (Hv1 : Forall (fun p => task p = t) (pending v1)).
    { pose proof (generateVisual_end_same (kf_id p) outcome
                    (settled p (delete n (pending v)) v)) as (_ & Hp1 & _).
      fold v1 in Hp1. rewrite Hp1. simpl.
      rewrite delete_take_drop. apply Forall_app.
      split; [by apply Forall_take|by apply Forall_drop]. }
    destruct (resume p) as [|closure rest]; intros [= <-]; [done|].
    rewrite Hpt. by apply generateAllVisuals_loop_tasks.
Qed.

Lemma quiet_run_tasks t v actions v' :
  Forall quiet actions → Forall (fun p => task p = t) (pending v) →
  run v actions = Some v' → Forall (fun p => task p = t) (pending v').
Proof.
  revert v. induction actions as [|a actions IH]; intros v Hq Hv; simpl.
  - by intros [= <-].
  - apply Forall_cons in Hq as [Ha Hq].
    destruct (step v a) as [v1|] eqn:Hstep; simpl; [|discriminate].
    apply IH; [done|]. by eapply quiet_step_tasks.
Qed.

Lemma sweep_log_calls t kfs : calls (sweep_log t kfs) = length kfs.
Proof.
  unfold calls. induction kfs as [|kf kfs IH]; [done|].
  change (sweep_log t (kf :: kfs))
    with (Issued t (Keyframe.id kf) (prompt_of kf)
          :: Settled t (Keyframe.id kf) :: sweep_log t kfs).
  rewrite filter_cons_True, filter_cons_False by (simpl; tauto).
  simpl. by rewrite IH.
Qed.

(** A sweep that nothing else interferes with runs to its end when each of
    its calls is settled in turn. *)
Lemma sweep_drains closure t rest outcomes u :
  Forall (not_cached closure) rest → Forall (not_busy closure) rest →
  pending u = [] → length outcomes = length rest →
  ∃ u', run (generateAllVisuals_loop closure t rest u)
          (map (Settle 0) outcomes) = Some u'
        ∧ pending u' = [].
Proof.
  revert outcomes u.
  induction rest as [|kf rest IH]; intros outcomes u Hc Hb Hp Hlen.
  - destruct outcomes; [|discriminate]. simpl. by exists u.
  - destruct outcomes as [|o outcomes]; [discriminate|].
    apply Forall_cons in Hc as [Hc Hc']. apply Forall_cons in Hb as [Hb Hb'].
    rewrite generateAllVisuals_loop_idle by done.
    simpl. rewrite Hp. simpl.
    apply IH; try done; [by destruct o|].
    simpl in Hlen. lia.
Qed.

End VisualGeneration.

(** Busy flags are raised only with a call in flight. *)

Section ViewerFlags.
Import StoryboardViewer Visual.

Lemma is_loading_setLoading id b v id' :
  is_loading (images (setLoading id b v)) id'
  = if decide (id = id') then b else is_loading (images v) id'.
Proof.
  unfold is_loading. simpl. rewrite lookup_insert.
  by destruct (decide (id = id')).
Qed.

Lemma flags_backed_begin closure t kf k v :
  flags_backed v → flags_backed (generateVisual_begin closure t kf k v).1.
Proof.
  intros Hv. unfold generateVisual_begin.
  destruct (is_loading closure (Keyframe.id kf)); [done|].
  intros id Hflag.
  change (is_loading (images (setLoading (Keyframe.id kf) true v)) id = true)
    in Hflag.
  rewrite is_loading_setLoading in Hflag.
  unfold outstanding. simpl. rewrite filter_app.
  destruct (decide (Keyframe.id kf = id)) as [Heq|Hne].
  - rewrite filter_cons_True by done. by destruct (filter _ (pending v)).
  - specialize (Hv id Hflag). unfold outstanding in Hv.
    by destruct (filter _ (pending v)).
Qed.

Lemma flags_backed_loop closure t kfs v :
  flags_backed v → flags_backed (generateAllVisuals_loop closure t kfs v).
Proof.
  revert v. induction kfs as [|kf rest IH]; intros v Hv; simpl; [done|].
  destruct (is_generated closure (Keyframe.id kf)); [by apply IH|].
  pose proof (flags_backed_begin closure t kf (NextOfSweep closure rest) v Hv)
    as Hb.
  destruct (generateVisual_begin closure t kf (NextOfSweep closure rest) v)
    as [v1 [|]]; simpl in Hb; [done|by apply IH].
Qed.

Lemma flags_backed_settle v n p outcome :
  flags_backed v → pending v !! n = Some p →
  flags_backed
    (generateVisual_end (kf_id p) outcome (settled p (delete n (pending v)) v)).
Proof.
  intros Hv Hn id Hflag.
  assert (Hflag' : id ≠ kf_id p ∧ is_loading (images v) id = true).
  { assert (Hflag2 : (if decide (kf_id p = id) then false
                      else is_loading (images v) id) = true).
    { rewrite <- Hflag. unfold is_loading.
      destruct outcome; simpl; rewrite lookup_insert;
        by destruct (decide (kf_id p = id)). }
    destruct (decide (kf_id p = id)); [discriminate|]. by split. }
  destruct Hflag' as [Hne Hold]. specialize (Hv id Hold).
  assert (Hpend : pending (generateVisual_end (kf_id p) outcome
                             (settled p (delete n (pending v)) v))
                  = delete n (pending v)) by (by destruct outcome).
  unfold outstanding in *. rewrite Hpend.
  rewrite (filter_delete_False _ _ _ p); [done|done|]. simpl. congruence.
Qed.

Lemma flags_backed_step v a v' :
  flags_backed v → step v a = Some v' → flags_backed v'.
Proof.
  intros Hv. destruct a as [i| |id d|n outcome]; simpl.
  - destruct (StoryboardData.keyframes (editableData v) !! i) as [kf|];
      simpl; [|discriminate].
    destruct (_ || _); [discriminate|]. intros [= <-].
    by apply flags_backed_begin.
  - intros [= <-]. by apply flags_backed_loop.
  - by intros [= <-].
  - destruct (pending v !! n) as [p|] eqn:Hn; simpl; [|discriminate].
    pose proof (flags_backed_settle v n p outcome Hv Hn) as H1.
    destruct (resume p) as [|closure rest]; intros [= <-]; [done|].
    by apply flags_backed_loop.
Qed.

Lemma generateAllVisuals_loop_cached closure t kfs v :
  Forall (fun kf => is_generated closure (Keyframe.id kf) = true) kfs →
  generateAllVisuals_loop closure t kfs v = v.
Proof.
  induction 1 as [|kf rest Hkf Hrest IH]; simpl; [done|]. by rewrite Hkf.
Qed.

Lemma is_generated_setGenerated id url v :
  Js.truthy (Some url) = true →
  is_generated (images (setLoading id false (setGenerated id url v))) id = true.
Proof.
  intros Hurl. unfold is_generated. simpl. by rewrite lookup_insert_eq.
Qed.

Lemma flags_backed_run v actions v' :
  flags_backed v → run v actions = Some v' → flags_backed v'.
Proof.
  revert v. induction actions as [|a actions IH]; intros v Hv; simpl.
  - by intros [= <-].
  - destruct (step v a) as [v1|] eqn:Hstep; simpl; [|discriminate].
    apply IH. by eapply flags_backed_step.
Qed.

Lemma flags_backed_idle v :
  flags_backed v → pending v = [] →
  Forall (not_busy (images v)) (StoryboardData.keyframes (editableData v)).
Proof.
  intros Hv Hnone. apply Forall_forall. intros kf _. unfold not_busy.
  destruct (is_loading (images v) (Keyframe.id kf)) eqn:Hflag; [|done].
  specialize (Hv _ Hflag). unfold outstanding in Hv. by rewrite Hnone in Hv.
Qed.

End ViewerFlags.

(** C3, as the code has it.  Take any state the viewer can reach and click
    "generate all" there.

    Whatever is cached or in flight at that moment, and whatever happens
    afterwards (other clicks, other sweeps, edits, calls settling in any
    order): at every moment the calls of this sweep and their settlements
    form an initial part of: call, settled, call, settled, and so on, over
    the keyframes that had neither an image nor a raised busy flag in the
    render of the click, in list order; and at most one call of the sweep is
    in flight.

    If moreover nothing is in flight and no keyframe has an image when
    "generate all" is clicked, and no other generation is started while the
    sweep runs (only edits, and calls settling): every keyframe is among
    those the sweep calls for; the only calls in flight are the sweep's, so
    no keyframe ever has two; and once none is in flight the sweep has made
    exactly one call per keyframe.  Settling each call in turn brings the
    sweep to that end. *)
Theorem generateAllVisuals_sequential
    (data : StoryboardData.t) (before after : list StoryboardViewer.Action)
    (v v' : StoryboardViewer.Viewer) :
  let kfs := StoryboardData.keyframes (StoryboardViewer.editableData v) in
  let t := StoryboardViewer.next_task v in
  let mine := Visual.eligible (StoryboardViewer.images v) kfs in
  StoryboardViewer.run (StoryboardViewer.mount data) before = Some v →
  StoryboardViewer.run v (StoryboardViewer.ClickGenerateAll :: after)
  = Some v' →
  (StoryboardViewer.log_of t v' `prefix_of` Visual.sweep_log t mine
   ∧ (length (StoryboardViewer.pending_of t v') ≤ 1)%nat)
  ∧ (StoryboardViewer.pending v = [] →
     Forall (Visual.not_cached (StoryboardViewer.images v)) kfs →
     (Forall Visual.quiet after →
      mine = kfs
      ∧ StoryboardViewer.pending v' = StoryboardViewer.pending_of t v'
      ∧ (∀ id, (length (StoryboardViewer.outstanding id v') ≤ 1)%nat)
      ∧ (StoryboardViewer.pending v' = [] →
         StoryboardViewer.log_of t v' = Visual.sweep_log t kfs
         ∧ Visual.calls (StoryboardViewer.log_of t v') = length kfs))
     ∧ ∀ outcomes, length outcomes = length kfs →
         ∃ v'',
           StoryboardViewer.run v
             (StoryboardViewer.ClickGenerateAll
              :: map (StoryboardViewer.Settle 0) outcomes) = Some v''
           ∧ StoryboardViewer.pending v'' = []).
Proof.
  intros kfs t mine Hreach Hrun.
  destruct (numbered_run _ _ _ (numbered_mount data) Hreach) as [Hv _].
  simpl in Hrun.
  set (v1 := StoryboardViewer.generateAllVisuals_loop _ _ _ _) in Hrun.
  assert (H1 : Visual.sweeping (StoryboardViewer.images v) t kfs v1)
    by (by apply sweeping_start).
  destruct (numbered_step v StoryboardViewer.ClickGenerateAll v1 Hv eq_refl)
    as [Hv1 _].
  assert (Ht1 : t < StoryboardViewer.next_task v1).
  { pose proof (generateAllVisuals_loop_other (StoryboardViewer.images v) t
                  kfs (StoryboardViewer.new_task v) (S t) ltac:(lia))
      as (_ & _ & Hn).
    unfold v1, t, kfs in *. rewrite Hn. simpl. lia. }
  destruct (sweeping_facts _ _ _ _
              (sweeping_run _ _ _ _ _ _ Hv1 Ht1 H1 Hrun))
    as (Hprefix & Hone & Hend).
  fold mine in Hprefix, Hend.
  split; [by split|].
  intros Hnone Hc.
  assert (Hb : Forall (Visual.not_busy (StoryboardViewer.images v)) kfs).
  { apply flags_backed_idle; [|done].
    apply (flags_backed_run (StoryboardViewer.mount data) before);
      [by intros id|done]. }
  assert (Hmine : mine = kfs) by (by apply eligible_idle).
  split.
  - intros Hq.
    assert (Hmy : Forall (fun p => StoryboardViewer.task p = t)
                    (StoryboardViewer.pending v')).
    { apply (quiet_run_tasks t v1 after); [done| |done].
      apply generateAllVisuals_loop_tasks. simpl. by rewrite Hnone. }
    assert (Hall : StoryboardViewer.pending v'
                   = StoryboardViewer.pending_of t v').
    { unfold StoryboardViewer.pending_of. by rewrite filter_Forall_id. }
    split; [exact Hmine|]. split; [exact Hall|]. split.
    + intros id. unfold StoryboardViewer.outstanding. rewrite Hall.
      destruct (StoryboardViewer.pending_of t v') as [|p [|q l]];
        [simpl; lia| |simpl in Hone; lia].
      destruct (decide (StoryboardViewer.kf_id p = id));
        [rewrite filter_cons_True by done|rewrite filter_cons_False by done];
        simpl; lia.
    + intros Hdone. rewrite Hall in Hdone. rewrite (Hend Hdone), Hmine.
      split; [done|]. by rewrite sweep_log_calls.
  - intros outcomes Hlen. simpl.
    apply sweep_drains; done.
Qed.

(** C3 at work: two keyframes, a fresh viewer, "generate all", an edit, and
    the two calls settled in turn. *)
Lemma generateAllVisuals_sequential_witness :
  let v := StoryboardViewer.mount SampleViewer.two in
  let after := [StoryboardViewer.Settle 0 (SampleViewer.image "a");
                StoryboardViewer.EditDialogue 2 "Late again";
                StoryboardViewer.Settle 0 (SampleViewer.image "b")] in
  Forall Visual.quiet after
  ∧ ∃ v', StoryboardViewer.run v (StoryboardViewer.ClickGenerateAll :: after)
        = Some v'
        ∧ StoryboardViewer.pending v' = []
        ∧ StoryboardViewer.log_of 0 v'
          = [StoryboardViewer.Issued 0 1 (Visual.prompt_of SampleViewer.kf1);
             StoryboardViewer.Settled 0 1;
             StoryboardViewer.Issued 0 2 (Visual.prompt_of SampleViewer.kf2);
             StoryboardViewer.Settled 0 2]
        ∧ Visual.calls (StoryboardViewer.log_of 0 v') = 2.
Proof.
  intros v after.
  assert (Hq : Forall Visual.quiet after) by (repeat constructor).
  split; [exact Hq|].
  destruct (StoryboardViewer.run v (StoryboardViewer.ClickGenerateAll :: after))
    as [v'|] eqn:Hrun; [|vm_compute in Hrun; discriminate].
  exists v'. split; [reflexivity|].
  assert (Hidle : Forall (Visual.not_cached (StoryboardViewer.images v))
                    (StoryboardData.keyframes (StoryboardViewer.editableData v)))
    by (repeat constructor).
  destruct (generateAllVisuals_sequential SampleViewer.two [] after v v'
              eq_refl Hrun) as (_ & Halone).
  destruct (Halone eq_refl Hidle) as (Hquiet & _).
  destruct (Hquiet Hq) as (_ & _ & _ & Hend).
  assert (Hnone : StoryboardViewer.pending v' = []).
  { revert Hrun. vm_compute. intros [= <-]. reflexivity. }
  destruct (Hend Hnone) as [Hlog Hcalls].
  split; [exact Hnone|]. split; [exact Hlog|exact Hcalls].
Defined.

(** C3 as stated fails: with one keyframe, no image cached, but a single
    generation for that keyframe in flight, "generate all" makes no call at
    all, also after that generation has settled. *)
Lemma generateAllVisuals_skips_busy :
  ∃ v v',
    StoryboardViewer.run (StoryboardViewer.mount SampleViewer.one)
      [StoryboardViewer.ClickGenerateVisual 0] = Some v
    ∧ Forall (Visual.not_cached (StoryboardViewer.images v))
        (StoryboardData.keyframes (StoryboardViewer.editableData v))
    ∧ length (StoryboardData.keyframes (StoryboardViewer.editableData v)) = 1
    ∧ StoryboardViewer.next_task v = 1
    ∧ StoryboardViewer.run v
        [StoryboardViewer.ClickGenerateAll;
         StoryboardViewer.Settle 0 (SampleViewer.image "a")] = Some v'
    ∧ StoryboardViewer.pending v' = []
    ∧ Visual.calls (StoryboardViewer.log_of 1 v') = 0.
Proof.
  eexists _, _. split; [reflexivity|].
  split; [by repeat constructor|].
  split; [reflexivity|]. split; [reflexivity|].
  split; [reflexivity|]. split; reflexivity.
Qed.

(** The two guards of C4, each on the render its handler reads.  A
    [generateVisual] whose render has the busy flag of the keyframe raised
    does nothing; on screen the button is not even there. *)
Lemma generateVisual_busy_noop closure t kf k v :
  StoryboardViewer.is_loading closure (Keyframe.id kf) = true →
  StoryboardViewer.generateVisual_begin closure t kf k v = (v, false).
Proof.
  intros Hbusy. unfold StoryboardViewer.generateVisual_begin.
  by rewrite Hbusy.
Qed.

Lemma button_hidden_while_busy v i kf :
  StoryboardData.keyframes (StoryboardViewer.editableData v) !! i = Some kf →
  StoryboardViewer.is_loading (StoryboardViewer.images v) (Keyframe.id kf)
  = true →
  StoryboardViewer.step v (StoryboardViewer.ClickGenerateVisual i) = None.
Proof.
  intros Hi Hbusy. simpl. rewrite Hi. simpl. rewrite Hbusy.
  by rewrite orb_true_r.
Qed.

(** A sweep makes no call for an id whose image is cached in the render it
    was started from. *)
Lemma generateAllVisuals_skips_cached closure t kfs v id :
  StoryboardViewer.is_generated closure id = true →
  StoryboardViewer.outstanding id
    (StoryboardViewer.generateAllVisuals_loop closure t kfs v)
  = StoryboardViewer.outstanding id v.
Proof.
  intros Hcached. revert v.
  induction kfs as [|kf rest IH]; intros v; simpl; [done|].
  destruct (StoryboardViewer.is_generated closure (Keyframe.id kf)) eqn:Hkf;
    [apply IH|].
  assert (Hne : Keyframe.id kf ≠ id) by congruence.
  unfold StoryboardViewer.generateVisual_begin.
  destruct (StoryboardViewer.is_loading closure (Keyframe.id kf));
    [apply IH|].
  unfold StoryboardViewer.outstanding. simpl.
  by rewrite filter_app, filter_cons_False, filter_nil, app_nil_r.
Qed.

(** C4, where the code departs from it.  Two keyframes, a fresh viewer.
    "Generate all" starts with keyframe 1; while that call is in flight the
    user clicks "generate visual" on keyframe 2; then the call for keyframe
    1 settles and the sweep moves on.  It still reads the caches of the
    render it was started from, where keyframe 2 was neither cached nor
    busy, and makes a second call for keyframe 2 while the first one is in
    flight and its busy flag is raised. *)
Theorem generateVisual_twice_in_flight :
  ∃ v1 v2,
    StoryboardViewer.run (StoryboardViewer.mount SampleViewer.two)
      [StoryboardViewer.ClickGenerateAll;
       StoryboardViewer.ClickGenerateVisual 1] = Some v1
    ∧ StoryboardViewer.is_loading (StoryboardViewer.images v1) 2 = true
    ∧ StoryboardViewer.outstanding 2 v1
      = [{| StoryboardViewer.task := 1; StoryboardViewer.kf_id := 2;
            StoryboardViewer.resume := StoryboardViewer.EndVisual |}]
    ∧ StoryboardViewer.step v1
        (StoryboardViewer.Settle 0 (SampleViewer.image "a")) = Some v2
    ∧ StoryboardViewer.task <$> StoryboardViewer.outstanding 2 v2 = [1; 0]
    ∧ StoryboardViewer.kf_id <$> StoryboardViewer.pending v2 = [2; 2]%Z.
Proof.
  eexists _, _. split; [reflexivity|].
  split; [reflexivity|]. split; [reflexivity|].
  split; [reflexivity|]. split; reflexivity.
Qed.

(* ===================================================================== *)
(** * Further properties                                                 *)
(* ===================================================================== *)

(** ** Master board geometry *)

(** X1.  On the master board every keyframe gets a cell that lies inside
    the canvas, below the header, and no two keyframes get the same cell. *)
Theorem cells_tile_canvas (ratio : AspectRatio) (n i : nat) :
  i < n →
  let L := StoryboardViewer.masterBoard_layout ratio n in
  ((0 ≤ (StoryboardViewer.cell_origin L i).1
    ∧ (StoryboardViewer.cell_origin L i).1 + StoryboardViewer.cellWidth L
      ≤ StoryboardViewer.canvas_width L
    ∧ StoryboardViewer.headerHeight L ≤ (StoryboardViewer.cell_origin L i).2
    ∧ (StoryboardViewer.cell_origin L i).2 + StoryboardViewer.cellHeight L
      ≤ StoryboardViewer.canvas_height L)%Z
   ∧ ∀ j, StoryboardViewer.cell_origin L i = StoryboardViewer.cell_origin L j →
          i = j).
Proof.
  intros Hi L.
  assert (Hgrid : ∃ c w h,
    (0 < c ∧ 0 < w ∧ 0 < h)%Z
    ∧ StoryboardViewer.cols L = c ∧ StoryboardViewer.cellWidth L = w
    ∧ StoryboardViewer.cellHeight L = h
    ∧ StoryboardViewer.rows L = StoryboardViewer.Math_ceil_div (Z.of_nat n) c
    ∧ StoryboardViewer.canvas_width L = (c * w)%Z
    ∧ StoryboardViewer.canvas_height L
      = (StoryboardViewer.headerHeight L + StoryboardViewer.rows L * h)%Z).
  { destruct ratio; [exists 3%Z, 360%Z, 640%Z|exists 2%Z, 640%Z, 360%Z];
      repeat split; reflexivity. }
  destruct Hgrid as (c & w & h & (Hc & Hw & Hh) & Ec & Ew & Eh & Er & Ecw & Ech).
  unfold StoryboardViewer.cell_origin. rewrite Ec, Ew, Eh, Ecw, Ech, Er.
  simpl fst. simpl snd.
  pose proof (Math_ceil_div_spec (Z.of_nat n) c Hc) as [_ Hrows].
  pose proof (Z.mod_pos_bound (Z.of_nat i) c Hc) as Hmod.
  pose proof (Z.div_mod (Z.of_nat i) c ltac:(lia)) as Hdm.
  assert (Hrow : (0 ≤ Z.of_nat i / c)%Z) by (apply Z.div_pos; lia).
  assert (Hrow' : (Z.of_nat i / c + 1
                   ≤ StoryboardViewer.Math_ceil_div (Z.of_nat n) c)%Z).
  { assert (Z.of_nat i / c < StoryboardViewer.Math_ceil_div (Z.of_nat n) c)%Z;
      [|lia].
    apply Z.div_lt_upper_bound; [done|]. lia. }
  split.
  - assert (Hx : ((Z.of_nat i mod c + 1) * w ≤ c * w)%Z)
      by (apply Z.mul_le_mono_nonneg_r; lia).
    assert (Hy : ((Z.of_nat i / c + 1) * h
                  ≤ StoryboardViewer.Math_ceil_div (Z.of_nat n) c * h)%Z)
      by (apply Z.mul_le_mono_nonneg_r; lia).
    assert (Hx0 : (0 ≤ Z.of_nat i mod c * w)%Z) by (apply Z.mul_nonneg_nonneg; lia).
    assert (Hy0 : (0 ≤ Z.of_nat i / c * h)%Z) by (apply Z.mul_nonneg_nonneg; lia).
    assert (Ehh : StoryboardViewer.headerHeight L = 280%Z) by reflexivity.
    rewrite Ehh. repeat split; lia.
  - intros j [= Hx Hy].
    pose proof (Z.mod_pos_bound (Z.of_nat j) c Hc) as Hmodj.
    pose proof (Z.div_mod (Z.of_nat j) c ltac:(lia)) as Hdmj.
    assert (Z.of_nat i mod c = Z.of_nat j mod c)%Z by nia.
    assert (Z.of_nat i / c = Z.of_nat j / c)%Z by nia.
    nia.
Qed.

Lemma cells_tile_canvas_witness :
  6 < 7
  ∧ StoryboardViewer.cell_origin (StoryboardViewer.masterBoard_layout R9x16 7) 6
    = (0, 1560)%Z
  ∧ (1560 + 640
     ≤ StoryboardViewer.canvas_height
         (StoryboardViewer.masterBoard_layout R9x16 7))%Z.
Proof.
  split; [lia|]. split; [reflexivity|].
  destruct (cells_tile_canvas R9x16 7 6 ltac:(lia)) as ((_ & _ & _ & H) & _).
  exact H.
Defined.

(** X2.  Cover-fit really covers: for a decoded image the drawn rectangle
    is at least as wide and as high as the cell, its offsets are not
    positive, and it is centred, so the cell lies inside the drawn image
    and only the overflow is clipped. *)
Theorem coverFit_covers (cellWidth cellHeight img_width img_height : Z) :
  (0 < cellWidth)%Z → (0 < cellHeight)%Z →
  (0 < img_width)%Z → (0 < img_height)%Z →
  let P := StoryboardViewer.coverFit cellWidth cellHeight img_width img_height in
  (inject_Z cellWidth <= StoryboardViewer.renderW P
   ∧ inject_Z cellHeight <= StoryboardViewer.renderH P
   ∧ StoryboardViewer.offsetX P <= 0
   ∧ StoryboardViewer.offsetY P <= 0
   ∧ 2 * StoryboardViewer.offsetX P + StoryboardViewer.renderW P
     == inject_Z cellWidth
   ∧ 2 * StoryboardViewer.offsetY P + StoryboardViewer.renderH P
     == inject_Z cellHeight)%Q.
Proof.
  intros Hcw Hch Hw Hh P.
  pose proof (inject_Z_nonzero _ Hcw) as Ncw.
  pose proof (inject_Z_nonzero _ Hch) as Nch.
  pose proof (inject_Z_nonzero _ Hw) as Nw.
  pose proof (inject_Z_nonzero _ Hh) as Nh.
  pose proof (inject_Z_pos _ Hcw) as Pcw.
  pose proof (inject_Z_pos _ Hch) as Pch.
  pose proof (inject_Z_pos _ Hw) as Pw.
  pose proof (inject_Z_pos _ Hh) as Ph.
  set (r := (inject_Z img_width / inject_Z img_height)%Q).
  set (T := (inject_Z cellWidth / inject_Z cellHeight)%Q).
  assert (Hr : (0 < r)%Q).
  { unfold r. apply Qlt_shift_div_l; [done|]. by rewrite Qmult_0_l. }
  assert (HT : (inject_Z cellHeight * T == inject_Z cellWidth)%Q)
    by (unfold T; field; done).
  unfold P, StoryboardViewer.coverFit. fold r T.
  destruct (Qle_bool r T) eqn:Hle; simpl.
  - apply Qle_bool_iff in Hle.
    assert (Hh' : (inject_Z cellHeight <= inject_Z cellWidth / r)%Q).
    { apply Qle_shift_div_l; [done|]. rewrite <- HT.
      apply Qmult_le_l; done. }
    set (q := (inject_Z cellWidth / r)%Q) in *. clearbody q.
    set (ch := inject_Z cellHeight) in *. clearbody ch.
    set (cw := inject_Z cellWidth) in *. clearbody cw.
    clear -Hh'. repeat split;
      first [lra|field|apply Qle_shift_div_r; [reflexivity|lra]].
  - assert (Hlt : (T < r)%Q).
    { apply Qnot_le_lt. intros H. apply Qle_bool_iff in H. congruence. }
    assert (Hw' : (inject_Z cellWidth < inject_Z cellHeight * r)%Q).
    { rewrite <- HT. apply Qmult_lt_l; done. }
    set (q := (inject_Z cellHeight * r)%Q) in *. clearbody q.
    set (ch := inject_Z cellHeight) in *. clearbody ch.
    set (cw := inject_Z cellWidth) in *. clearbody cw.
    clear -Hw'. repeat split;
      first [lra|field|apply Qle_shift_div_r; [reflexivity|lra]].
Qed.

Lemma coverFit_covers_witness :
  let P := StoryboardViewer.coverFit 360 640 1024 1024 in
  ((0 < 360)%Z ∧ (0 < 640)%Z ∧ (0 < 1024)%Z)
  ∧ (inject_Z 360 <= StoryboardViewer.renderW P)%Q
  ∧ (StoryboardViewer.offsetX P <= 0)%Q.
Proof.
  intros P. split; [repeat split; reflexivity|].
  destruct (coverFit_covers 360 640 1024 1024 eq_refl eq_refl eq_refl eq_refl)
    as (H1 & _ & H3 & _).
  split; [exact H1|exact H3].
Defined.

(** ** Editing and ordering *)

Lemma with_dialogue_id d kf :
  Keyframe.id (StoryboardViewer.with_dialogue d kf) = Keyframe.id kf.
Proof. reflexivity. Qed.

(** X3.  How the viewer's edits compose: a second dialogue edit of the
    same keyframe id replaces the first, dialogue edits of different ids
    commute, and dialogue edits commute with headline edits; of two edits
    of the same headline line the last one stands. *)
Theorem edits_compose (id id' : Z) (d d' : string)
    (line : StoryboardViewer.HeadlineLine) (val val' : string)
    (s : StoryboardData.t) :
  StoryboardViewer.handleDialogueChange id d'
    (StoryboardViewer.handleDialogueChange id d s)
  = StoryboardViewer.handleDialogueChange id d' s
  ∧ (id ≠ id' →
     StoryboardViewer.handleDialogueChange id d
       (StoryboardViewer.handleDialogueChange id' d' s)
     = StoryboardViewer.handleDialogueChange id' d'
         (StoryboardViewer.handleDialogueChange id d s))
  ∧ StoryboardViewer.handleDialogueChange id d
      (StoryboardViewer.handleHeadlineChange line val s)
    = StoryboardViewer.handleHeadlineChange line val
        (StoryboardViewer.handleDialogueChange id d s)
  ∧ StoryboardViewer.handleHeadlineChange line val'
      (StoryboardViewer.handleHeadlineChange line val s)
    = StoryboardViewer.handleHeadlineChange line val' s.
Proof.
  unfold StoryboardViewer.handleDialogueChange,
    StoryboardViewer.handleHeadlineChange, StoryboardViewer.with_keyframes.
  simpl. split; [|split; [|split]].
  - f_equal. rewrite map_map. apply map_ext. intros kf.
    destruct (Z.eqb_spec (Keyframe.id kf) id) as [Heq|Hne]; simpl.
    + by rewrite Heq, Z.eqb_refl.
    + by destruct (Z.eqb_spec (Keyframe.id kf) id).
  - intros Hne. f_equal. rewrite !map_map. apply map_ext. intros kf.
    destruct (Z.eqb_spec (Keyframe.id kf) id) as [Heq|Hne1];
      destruct (Z.eqb_spec (Keyframe.id kf) id') as [Heq'|Hne2]; simpl;
      rewrite ?Heq, ?Heq', ?Z.eqb_refl; try congruence;
      repeat match goal with
             | |- context [(?a =? ?b)%Z] =>
                 destruct (Z.eqb_spec a b); try congruence
             end.
  - reflexivity.
  - by destruct line.
Qed.

Lemma Array_sort_sorted_id {A} (key : A → Z) (l : list A) :
  StronglySorted (fun a b => (key b ≤ key a)%Z) l →
  HistoryList.Array_sort (fun a b => (key b - key a)%Z) l = l.
Proof.
  induction 1 as [|x l Hl IH Hx]; [done|].
  unfold HistoryList.Array_sort in *. simpl. rewrite IH.
  destruct l as [|y l']; [done|]. simpl.
  apply Forall_cons in Hx as [Hy _].
  destruct (Z.ltb_spec 0 (key y - key x)); [lia|done].
Qed.

(** X4.  Rendering the history list is stable and idempotent: entries with
    equal timestamps keep their relative order, a list that is already
    newest-first is left as it is, and rendering again changes nothing. *)
Theorem render_stable_idempotent (items : list SavedStoryboard.t) :
  (∀ t, filter (fun item => SavedStoryboard.timestamp item = t)
          (HistoryList.render items)
        = filter (fun item => SavedStoryboard.timestamp item = t) items)
  ∧ (StronglySorted newest_first items → HistoryList.render items = items)
  ∧ HistoryList.render (HistoryList.render items) = HistoryList.render items.
Proof.
  assert (Hid : ∀ l, StronglySorted newest_first l → HistoryList.render l = l).
  { intros l Hl. rewrite render_Array_sort.
    by apply (Array_sort_sorted_id SavedStoryboard.timestamp). }
  split; [|split].
  - intros t. rewrite render_Array_sort.
    apply (Array_sort_stable SavedStoryboard.timestamp).
  - apply Hid.
  - apply Hid. rewrite render_Array_sort.
    apply (Array_sort_sorted SavedStoryboard.timestamp).
Qed.

(** ** The service adapter, further *)

Lemma requests_bind {A B} (c : Eff A) (k : A → Eff B) :
  requests (events (c ≫= k))
  = requests (events c) ++ match returned c with
                           | Some a => requests (events (k a))
                           | None => []
                           end.
Proof.
  rewrite events_bind. unfold requests. rewrite filter_app.
  by destruct (returned c).
Qed.

Lemma requests_read f :
  requests (events (GeminiService.fileToGenerativePart f)) = [].
Proof.
  unfold GeminiService.fileToGenerativePart. rewrite requests_bind. simpl.
  by destruct (file_dataURL f).
Qed.

Lemma requests_call X key req :
  requests (events (GeminiService.models_generateContent X key req))
  = [GenerateContent key req].
Proof.
  unfold GeminiService.models_generateContent. rewrite requests_bind. simpl.
  reflexivity.
Qed.

Lemma requests_extract response failure :
  requests (events (GeminiService.extract_image response failure)) = [].
Proof.
  unfold GeminiService.extract_image.
  destruct (candidates response) as [[|c ?]|]; try done.
  by destruct (GeminiService.first_inlineData _).
Qed.

Lemma read_unreadable f :
  file_dataURL f = None →
  returned (GeminiService.fileToGenerativePart f) = None.
Proof.
  intros H. unfold GeminiService.fileToGenerativePart, returned. simpl.
  by rewrite H.
Qed.

Lemma thrown_or_returned {A} (c : Eff A) :
  returned c = None → is_Some (thrown c).
Proof. unfold returned, thrown. destruct (snd c); [by eexists|done]. Qed.

Lemma returned_bind_None {A B} (c : Eff A) (k : A → Eff B) :
  returned c = None → returned (c ≫= k) = None.
Proof. destruct c as [evs [e|a]]; unfold returned; simpl; done. Qed.

Lemma returned_bind_Some {A B} (c : Eff A) (k : A → Eff B) a :
  returned c = Some a → returned (c ≫= k) = returned (k a).
Proof.
  destruct c as [evs [e|a']]; unfold returned; simpl; [done|].
  intros [= ->]. by destruct (k a).
Qed.

Lemma requests_bind_le {A B} (c : Eff A) (k : A → Eff B) (m : nat) :
  (∀ a, length (requests (events (k a))) ≤ m)%nat →
  (length (requests (events (c ≫= k)))
   ≤ length (requests (events c)) + m)%nat.
Proof.
  intros Hk. rewrite requests_bind, length_app.
  destruct (returned c) as [a|]; [specialize (Hk a)|simpl]; lia.
Qed.

Lemma requests_bind_None {A B} (c : Eff A) (k : A → Eff B) :
  returned c = None → requests (events (c ≫= k)) = requests (events c).
Proof. intros H. by rewrite requests_bind, H, app_nil_r. Qed.

Lemma requests_emit_bind {B} (e : Event) (body : Eff B) :
  requests (events (emit e ≫= λ _, body))
  = requests [e] ++ requests (events body).
Proof. by rewrite requests_bind. Qed.

Lemma requests_pure {A} (r : Js.Thrown + A) : requests (events ([], r)) = [].
Proof. reflexivity. Qed.

(** The shape the three operations share: the client, the parts, the
    request, the reading of the answer. *)
Lemma operation_requests {P A} key (parts : Eff P)
    (call : P → Eff Response) (read : Response → Eff A) :
  requests (events parts) = [] →
  (∀ ps, length (requests (events (call ps))) ≤ 1)%nat →
  (∀ r, requests (events (read r)) = []) →
  let body := emit (NewClient key) ≫= λ _, parts ≫= λ ps, call ps ≫= read in
  (length (requests (events body)) ≤ 1)%nat
  ∧ (returned parts = None →
     requests (events body) = [] ∧ is_Some (thrown body)).
Proof.
  intros Hparts Hcall Hread body. unfold body. split.
  - rewrite requests_emit_bind. simpl.
    etrans; [apply (requests_bind_le _ _ 1)|by rewrite Hparts].
    intros ps. etrans; [apply (requests_bind_le _ _ 0)|].
    + intros r. by rewrite Hread.
    + specialize (Hcall ps). lia.
  - intros Hnone. split.
    + rewrite requests_emit_bind. simpl.
      by rewrite requests_bind_None, Hparts.
    + apply thrown_or_returned.
      rewrite (returned_bind_Some _ _ tt) by done.
      by apply returned_bind_None.
Qed.

(** X5.  Each of the three operations sends at most one request to the
    service, and none at all when the file it has to read cannot be read:
    the operation then fails without having called the service. *)
Theorem at_most_one_request
    (W : World) (X : Externals) (input : Input) (options : GenerationOptions)
    (prompt : string) (originalFile : option File) (modelType : ImageGenModel)
    (ratio : AspectRatio) (characterContext : option string)
    (editFile : File) (editPrompt : string) :
  let storyboard := GeminiService.generateStoryboard W X input options in
  let keyframe :=
    GeminiService.generateKeyframeImage W X prompt originalFile modelType
      ratio characterContext in
  let edit := GeminiService.editImageWithPrompt W X editFile editPrompt in
  ((length (requests (events storyboard)) ≤ 1)%nat
   ∧ (length (requests (events keyframe)) ≤ 1)%nat
   ∧ (length (requests (events edit)) ≤ 1)%nat)
  ∧ (∀ f, input = InFile f → inputType options = IMAGE →
          file_dataURL f = None →
          requests (events storyboard) = [] ∧ is_Some (thrown storyboard))
  ∧ (∀ f, originalFile = Some f → file_dataURL f = None →
          requests (events keyframe) = [] ∧ is_Some (thrown keyframe))
  ∧ (file_dataURL editFile = None →
     requests (events edit) = [] ∧ is_Some (thrown edit)).
Proof.
  intros storyboard keyframe edit.
  assert (Hcall : ∀ req,
    (length (requests (events (GeminiService.models_generateContent X
                                 (GeminiService.getApiKey W) req))) ≤ 1)%nat)
    by (intros; by rewrite requests_call).
  assert (Hread : ∀ f,
    requests (events (base64Data ← GeminiService.fileToGenerativePart f;
                      (mret [InlineData (file_type f) base64Data]
                       : Eff (list Part)))) = []).
  { intros f. rewrite requests_bind, requests_read. by destruct (returned _). }
  assert (Hread' : ∀ f p,
    requests (events (base64Data ← GeminiService.fileToGenerativePart f;
                      (mret [InlineData (file_type f) base64Data; p]
                       : Eff (list Part)))) = []).
  { intros f p. rewrite requests_bind, requests_read. by destruct (returned _). }
  assert (Hanswer : ∀ response : Response,
    requests (events
      (match text response with
       | Some t =>
           if negb (Js.truthy (Some t))
           then throw (Js.Error GeminiService.NO_RESPONSE)
           else match JSON_parse X t with
                | inl syntaxError => throw (Js.Error syntaxError)
                | inr data =>
                    match Js.set "aspectRatio"
                            (Js.VStr (AspectRatio_string (aspectRatio options)))
                            data with
                    | Some data' => mret data'
                    | None => throw (Js.Error (typeError_message X data))
                    end
                end
       | None => throw (Js.Error GeminiService.NO_RESPONSE)
       end : Eff Js.Value)) = []).
  { intros response. destruct (text response) as [t|]; [|done].
    destruct (negb _); [done|]. destruct (JSON_parse X t) as [|d]; [done|].
    by destruct (Js.set _ _ d). }
  unfold storyboard, keyframe, edit, GeminiService.generateStoryboard,
    GeminiService.generateKeyframeImage, GeminiService.editImageWithPrompt.
  destruct (negb (Js.truthy (Some (GeminiService.getApiKey W)))).
  { repeat split; simpl; try lia; by eexists. }
  cbv zeta.
  split; [split; [|split]|split; [|split]].
  - eapply operation_requests; [|done|done].
    destruct (inputType options), input; done.
  - eapply operation_requests; [|done|].
    + destruct originalFile; done.
    + intros r. apply requests_extract.
  - eapply operation_requests; [|done|].
    + apply requests_read.
    + intros r. apply requests_extract.
  - intros f -> -> Hf.
    eapply operation_requests; [done|done|done|].
    by apply returned_bind_None, read_unreadable.
  - intros f -> Hf.
    eapply operation_requests; [done|done| |].
    + intros r. apply requests_extract.
    + by apply returned_bind_None, read_unreadable.
  - intros Hf.
    eapply operation_requests; [apply requests_read|done| |].
    + intros r. apply requests_extract.
    + by apply read_unreadable.
Qed.

Lemma dataURL_data_url (b : Blob) :
  GeminiService.dataURL b
  = data_url (Js.or_default (blob_mimeType b) "image/png") (blob_data b).
Proof. reflexivity. Qed.

Lemma or_default_nonempty (a : option string) (d : string) :
  d ≠ "" → Js.or_default a d ≠ "".
Proof.
  intros Hd. destruct a as [s|]; simpl; [|done].
  by destruct (String.eqb_spec s "").
Qed.

Lemma first_inlineData_data_url parts url :
  GeminiService.first_inlineData parts = Some url →
  ∃ mime payload, url = data_url mime payload ∧ mime ≠ "".
Proof.
  induction parts as [|[b|] parts IH]; simpl; [done| |exact IH].
  intros [= <-]. eexists _, _. split; [apply dataURL_data_url|].
  by apply or_default_nonempty.
Qed.

Lemma extract_image_data_url response failure url :
  returned (GeminiService.extract_image response failure) = Some url →
  ∃ mime payload, url = data_url mime payload ∧ mime ≠ "".
Proof.
  unfold GeminiService.extract_image.
  destruct (candidates response) as [[|c ?]|]; try done.
  destruct (GeminiService.first_inlineData _) as [u|] eqn:Hu; [|done].
  intros [= <-]. by eapply first_inlineData_data_url.
Qed.

(** X6.  Whatever the service answers, an image operation that returns
    returns a data URL, [data:<mime>;base64,<payload>] with a non-empty MIME
    type (["image/png"] when the service names none); in particular the
    string is never empty, so the viewer's cache sees it as an image. *)
Theorem image_operations_return_data_urls
    (W : World) (X : Externals) (prompt : string) (originalFile : option File)
    (modelType : ImageGenModel) (ratio : AspectRatio)
    (characterContext : option string) (editFile : File) (editPrompt : string)
    (url : string) :
  returned (GeminiService.generateKeyframeImage W X prompt originalFile
              modelType ratio characterContext) = Some url
  ∨ returned (GeminiService.editImageWithPrompt W X editFile editPrompt)
    = Some url →
  (∃ mime payload, url = data_url mime payload ∧ mime ≠ "")
  ∧ Js.truthy (Some url) = true.
Proof.
  intros Hret.
  assert (Hurl : ∃ mime payload, url = data_url mime payload ∧ mime ≠ "").
  { destruct Hret as [H|H].
    - unfold GeminiService.generateKeyframeImage in H.
      destruct (negb _); [discriminate|].
      apply returned_bind in H as (_ & _ & H).
      apply returned_bind in H as (parts & _ & H).
      apply returned_bind in H as (response & _ & H).
      by eapply extract_image_data_url.
    - unfold GeminiService.editImageWithPrompt in H.
      destruct (negb _); [discriminate|].
      apply returned_bind in H as (_ & _ & H).
      apply returned_bind in H as (parts & _ & H).
      apply returned_bind in H as (response & _ & H).
      by eapply extract_image_data_url. }
  split; [exact Hurl|].
  destruct Hurl as (mime & payload & -> & _). reflexivity.
Qed.

Lemma image_operations_return_data_urls_witness :
  let run :=
    GeminiService.generateKeyframeImage (Sample.world (Some "local-key") None)
      SampleService.painter "a street" None NanoBanana R16x9 None in
  returned run = Some (data_url "image/png" "iVBORw0KGgo=")
  ∧ Js.truthy (Some (data_url "image/png" "iVBORw0KGgo=")) = true.
Proof.
  intros run. split; [reflexivity|].
  apply (image_operations_return_data_urls
           (Sample.world (Some "local-key") None) SampleService.painter
           "a street" None NanoBanana R16x9 None Sample.png "warmer").
  left. reflexivity.
Defined.

(** ** Previews and the shell's run *)

Lemma until_comma_id s : has_comma s = false → GeminiService.until_comma s = s.
Proof.
  induction s as [|c s IH]; simpl; [done|].
  destruct (Ascii.eqb c GeminiService.comma); simpl; [done|].
  intros H. by rewrite IH.
Qed.

Lemma split_comma_1_skip a rest :
  has_comma a = false →
  GeminiService.split_comma_1 (String.append a rest)
  = GeminiService.split_comma_1 rest.
Proof.
  induction a as [|c a IH]; simpl; [done|].
  destruct (Ascii.eqb c GeminiService.comma); simpl; [done|]. exact IH.
Qed.

Lemma split_comma_1_data_url mime payload :
  has_comma mime = false → has_comma payload = false →
  GeminiService.split_comma_1 (data_url mime payload) = Some payload.
Proof.
  intros Hm Hp. unfold data_url.
  rewrite (split_comma_1_skip "data:") by reflexivity.
  rewrite (split_comma_1_skip mime) by done.
  simpl. by rewrite until_comma_id.
Qed.

(** X7.  The preview stored with a history entry is the uploaded file's own
    data URL: for a file read as [data:<type>;base64,<payload>] (no comma in
    the type or the payload) [fileToGenerativePart] yields the payload, and
    [saveToHistory] puts the data URL, rebuilt from the file's type and that
    payload, on the entry it prepends (whether or not local storage then
    takes the write). *)
Theorem preview_round_trip
    (f : File) (payload : string)
    (setItem : Storage -> list SavedStoryboard.t -> option Js.Thrown)
    (clock : App.Clock)
    (history0 : list SavedStoryboard.t) (data : Js.Value)
    (options : GenerationOptions) (st : Storage) (s : App.State) :
  file_dataURL f = Some (data_url (file_type f) payload) →
  has_comma (file_type f) = false → has_comma payload = false →
  returned (GeminiService.fileToGenerativePart f) = Some (Some payload)
  ∧ ∃ entry,
      App.history
        (App.saveToHistory setItem clock history0 data options (Some f) st
           s).2.1
      = entry :: history0
      ∧ SavedStoryboard.previewImage entry = file_dataURL f.
Proof.
  intros Hurl Hm Hp.
  assert (Hread : GeminiService.fileToGenerativePart f
                  = ([ReadFile f], inr (Some payload))).
  { unfold GeminiService.fileToGenerativePart. rewrite Hurl. cbv beta iota.
    by rewrite split_comma_1_data_url. }
  split; [by rewrite Hread|].
  unfold App.saveToHistory. rewrite Hread. simpl.
  eexists. split; [reflexivity|]. simpl. by rewrite Hurl.
Qed.

Lemma preview_round_trip_witness :
  file_dataURL Sample.png = Some (data_url (file_type Sample.png) "iVBORw0KGgo=")
  ∧ has_comma (file_type Sample.png) = false
  ∧ has_comma "iVBORw0KGgo=" = false
  ∧ returned (GeminiService.fileToGenerativePart Sample.png)
    = Some (Some "iVBORw0KGgo=").
Proof.
  do 3 (split; [reflexivity|]).
  apply (preview_round_trip Sample.png "iVBORw0KGgo=" (fun _ _ => None)
           SampleShell.clock []
           Sample.echo_9x16_value Sample.options_16x9 SampleHistory.stored
           App.initial eq_refl eq_refl eq_refl).
Defined.

Lemma getApiKey_truthy (W : World) :
  Js.truthy (Some (GeminiService.getApiKey W))
  = Js.truthy (cinescript_api_key (localStorage W))
    || Js.truthy (env_API_KEY W).
Proof.
  destruct (Js.truthy (cinescript_api_key (localStorage W))) eqn:H1.
  - by rewrite (getApiKey_saved W H1).
  - destruct (Js.truthy (env_API_KEY W)) eqn:H2.
    + by rewrite (getApiKey_env W H1 H2).
    + by rewrite (getApiKey_none W H1 H2).
Qed.

(** X8.  The shell's guard and the adapter's resolver agree: the guard of
    [handleGenerate] stops a run exactly when [getApiKey] would resolve to
    the empty string.  So a run the guard lets through never meets the
    adapter's missing-key failure: [generateStoryboard] builds its client. *)
Theorem guard_agrees_with_resolver (W : World) :
  (App.handleGenerate_guard W = true ↔ GeminiService.getApiKey W = "")
  ∧ (App.handleGenerate_guard W = false →
     ∀ X input options,
       uses_key (GeminiService.getApiKey W)
         (GeminiService.generateStoryboard W X input options)).
Proof.
  assert (Hg : App.handleGenerate_guard W
               = negb (Js.truthy (Some (GeminiService.getApiKey W)))).
  { rewrite getApiKey_truthy. unfold App.handleGenerate_guard.
    by rewrite negb_orb. }
  split.
  - rewrite Hg, negb_true_iff. split.
    + intros H. destruct (GeminiService.getApiKey W) as [|c k]; [done|].
      discriminate.
    + by intros ->.
  - intros Hfalse X input options. apply generateStoryboard_client.
    rewrite Hg in Hfalse. by apply negb_false_iff.
Qed.

Lemma handleGenerate_final W X clock input options s data :
  App.handleGenerate_guard W = false →
  returned (GeminiService.generateStoryboard W X input options) = Some data →
  let r := App.handleGenerate W X clock input options s in
  let s1 := App.handleGenerate_begin input options s in
  ∃ entry waiting,
    let s3 := App.setHistory (entry :: App.history s)
                (App.setStoryboardData (Some data) s1) in
    SavedStoryboard.data entry = data
    ∧ SavedStoryboard.options entry = options
    ∧ SavedStoryboard.id entry = pretty (App.now_id clock)
    ∧ SavedStoryboard.timestamp entry = App.now_timestamp clock
    ∧ (∀ t, input = InText t → SavedStoryboard.previewImage entry = None)
    ∧ App.states r = s1 :: waiting ++ [App.final r s]
    ∧ Forall (fun st => App.appState st = ANALYZING) waiting
    ∧ match localStorage_setItem X (localStorage W)
              (entry :: App.history s) with
      | None =>
          App.final r s = App.setAppState STORYBOARD s3
          ∧ App.storage r
            = App.store_history (Some (entry :: App.history s))
                (localStorage W)
      | Some err =>
          App.final r s = App.handleGenerate_catch err s3
          ∧ App.storage r = localStorage W
      end.
Proof.
  intros Hguard Hret r s1. unfold r, App.handleGenerate. rewrite Hguard.
  unfold returned in Hret.
  destruct (GeminiService.generateStoryboard W X input options)
    as [evs [e|d]]; simpl in Hret; [discriminate|].
  injection Hret as ->.
  unfold App.saveToHistory.
  assert (Hgo : ∀ (preview : option string) (waiting : list App.State)
                  (evs' : list Event),
    Forall (fun st => App.appState st = ANALYZING) waiting →
    (∀ t, input = InText t → preview = None) →
    let entry :=
      {| SavedStoryboard.id := pretty (App.now_id clock);
         SavedStoryboard.timestamp := App.now_timestamp clock;
         SavedStoryboard.data := data;
         SavedStoryboard.options := options;
         SavedStoryboard.previewImage := preview |} in
    let s3 := App.setHistory (entry :: App.history s)
                (App.setStoryboardData (Some data) s1) in
    let rejected :=
      localStorage_setItem X (localStorage W) (entry :: App.history s) in
    let saved :=
      (match rejected with
       | None =>
           App.store_history (Some (entry :: App.history s)) (localStorage W)
       | Some _ => localStorage W
       end, rejected) in
    let final :=
      match saved.2 with
      | None => App.setAppState STORYBOARD s3
      | Some err => App.handleGenerate_catch err s3
      end in
    let r' := {| App.states := s1 :: waiting ++ [final];
                 App.storage := saved.1;
                 App.performed := evs ++ evs' |} in
    ∃ entry waiting,
      let s3 := App.setHistory (entry :: App.history s)
                  (App.setStoryboardData (Some data) s1) in
      SavedStoryboard.data entry = data
      ∧ SavedStoryboard.options entry = options
      ∧ SavedStoryboard.id entry = pretty (App.now_id clock)
      ∧ SavedStoryboard.timestamp entry = App.now_timestamp clock
      ∧ (∀ t, input = InText t → SavedStoryboard.previewImage entry = None)
      ∧ App.states r' = s1 :: waiting ++ [App.final r' s]
      ∧ Forall (fun st => App.appState st = ANALYZING) waiting
      ∧ match localStorage_setItem X (localStorage W)
                (entry :: App.history s) with
        | None =>
            App.final r' s = App.setAppState STORYBOARD s3
            ∧ App.storage r'
              = App.store_history (Some (entry :: App.history s))
                  (localStorage W)
        | Some err =>
            App.final r' s = App.handleGenerate_catch err s3
            ∧ App.storage r' = localStorage W
        end).
  { intros preview waiting evs' Hwait Hprev entry s3 rejected saved final r'.
    exists entry, waiting. cbv zeta.
    assert (Hfinal : App.final r' s = final).
    { unfold App.final, r'. cbn [App.states].
      exact (List.last_last (s1 :: waiting) final s). }
    rewrite Hfinal. do 4 (split; [reflexivity|]).
    split; [exact Hprev|]. split; [reflexivity|]. split; [exact Hwait|].
    unfold final, saved, rejected, r'. cbn [App.storage fst snd].
    by destruct (localStorage_setItem X (localStorage W)
                   (entry :: App.history s)). }
  destruct input as [f|t].
  - destruct (GeminiService.fileToGenerativePart f) as [evs' [e|raw]];
      cbv iota beta.
    + specialize (Hgo None [App.setStoryboardData (Some data) s1] evs').
      cbv zeta in Hgo.
      destruct (localStorage_setItem X _ _); apply Hgo;
        by repeat constructor.
    + specialize (Hgo (Some (String.append "data:"
                        (String.append (file_type f)
                          (String.append ";base64,"
                             (default "undefined" raw)))))
                      [App.setStoryboardData (Some data) s1] evs').
      cbv zeta in Hgo.
      destruct (localStorage_setItem X _ _); apply Hgo;
        by repeat constructor.
  - cbv iota beta. specialize (Hgo None [] []). cbv zeta in Hgo.
    destruct (localStorage_setItem X _ _); apply Hgo; by repeat constructor.
Qed.

Lemma handleGenerate_catch_spec err s :
  App.appState (App.handleGenerate_catch err s) = UPLOAD
  ∧ App.error (App.handleGenerate_catch err s)
    = Some (App.failure_message err).1
  ∧ App.storyboardData (App.handleGenerate_catch err s) = App.storyboardData s
  ∧ App.selectedOptions (App.handleGenerate_catch err s)
    = App.selectedOptions s
  ∧ App.history (App.handleGenerate_catch err s) = App.history s.
Proof.
  unfold App.handleGenerate_catch.
  by destruct (App.failure_message err) as [msg []].
Qed.

(** X9.  A run of [handleGenerate] whose generation succeeds.  The shell
    waits on [ANALYZING]; it then holds the returned storyboard and the
    options of the run, and exactly one entry is prepended to the history of
    the render that started the run, carrying that storyboard, those options
    and the clock's readings.  If local storage takes the write of the new
    list, the run ends on [STORYBOARD] with no error and local storage holds
    that same list.  If the write throws, the run ends on [UPLOAD] with the
    failure message for what was thrown and local storage is as it was.  The
    stored key is untouched either way. *)
Theorem handleGenerate_success
    (W : World) (X : Externals) (clock : App.Clock) (input : Input)
    (options : GenerationOptions) (s : App.State) (data : Js.Value) :
  App.handleGenerate_guard W = false →
  returned (GeminiService.generateStoryboard W X input options) = Some data →
  let r := App.handleGenerate W X clock input options s in
  ∃ waiting entry final,
    App.states r = waiting ++ [final]
    ∧ waiting ≠ []
    ∧ Forall (fun st => App.appState st = ANALYZING) waiting
    ∧ App.storyboardData final = Some data
    ∧ App.selectedOptions final = Some options
    ∧ App.history final = entry :: App.history s
    ∧ cinescript_api_key (App.storage r) = cinescript_api_key (localStorage W)
    ∧ SavedStoryboard.data entry = data
    ∧ SavedStoryboard.options entry = options
    ∧ SavedStoryboard.id entry = pretty (App.now_id clock)
    ∧ SavedStoryboard.timestamp entry = App.now_timestamp clock
    ∧ match localStorage_setItem X (localStorage W)
              (entry :: App.history s) with
      | None =>
          App.appState final = STORYBOARD
          ∧ App.error final = None
          ∧ cinescript_history_v2 (App.storage r)
            = Some (entry :: App.history s)
      | Some err =>
          App.appState final = UPLOAD
          ∧ App.error final = Some (App.failure_message err).1
          ∧ App.storage r = localStorage W
      end.
Proof.
  intros Hguard Hret r.
  destruct (handleGenerate_final W X clock input options s data Hguard Hret)
    as (entry & waiting & Hd & Ho & Hi & Ht & _ & Hstates & Hwait & Hend).
  fold r in Hstates, Hend.
  exists (App.handleGenerate_begin input options s :: waiting), entry,
    (App.final r s).
  split; [exact Hstates|]. split; [done|].
  split; [constructor; [by destruct input|exact Hwait]|].
  destruct (localStorage_setItem X (localStorage W) (entry :: App.history s))
    as [err|]; destruct Hend as [-> ->].
  - destruct (handleGenerate_catch_spec err
                (App.setHistory (entry :: App.history s)
                   (App.setStoryboardData (Some data)
                      (App.handleGenerate_begin input options s))))
      as (Hup & Herr & Hsd & Hso & Hh).
    rewrite Hup, Herr, Hsd, Hso, Hh.
    destruct input; split_and!; done.
  - destruct input; split_and!; done.
Qed.

Lemma handleGenerate_success_witness :
  let W := Sample.world (Some "local-key") None in
  let r :=
    App.handleGenerate W Sample.service_echo_9x16 SampleShell.clock
      (InText "rain") Sample.options_16x9 App.initial in
  let full :=
    App.handleGenerate W Sample.service_full_disk SampleShell.clock
      (InText "rain") Sample.options_16x9 App.initial in
  App.handleGenerate_guard W = false
  ∧ is_Some (returned (GeminiService.generateStoryboard W
                         Sample.service_echo_9x16 (InText "rain")
                         Sample.options_16x9))
  ∧ App.appState <$> App.states r = [ANALYZING; STORYBOARD]
  ∧ (∃ final entry,
      last (App.states r) = Some final
      ∧ App.history final = [entry]
      ∧ SavedStoryboard.id entry = "400"
      ∧ cinescript_history_v2 (App.storage r) = Some [entry])
  ∧ App.appState <$> App.states full = [ANALYZING; UPLOAD]
  ∧ (∃ final entry,
      last (App.states full) = Some final
      ∧ App.history final = [entry]
      ∧ App.error final = Some App.MSG_GENERIC
      ∧ App.storage full = localStorage W).
Proof.
  intros W r full. split; [reflexivity|]. split; [by eexists|].
  split; [reflexivity|]. split; [|split; [reflexivity|]].
  - destruct (handleGenerate_success W Sample.service_echo_9x16
                SampleShell.clock (InText "rain") Sample.options_16x9
                App.initial _ eq_refl eq_refl)
      as (w & e & f & Hs & _ & _ & _ & _ & Hh & _ & _ & _ & Hid & _ & Hend).
    exists f, e. fold r in Hs. rewrite Hs, last_snoc.
    split; [reflexivity|]. split; [exact Hh|]. split; [exact Hid|].
    simpl in Hend. exact (proj2 (proj2 Hend)).
  - destruct (handleGenerate_success W Sample.service_full_disk
                SampleShell.clock (InText "rain") Sample.options_16x9
                App.initial _ eq_refl eq_refl)
      as (w & e & f & Hs & _ & _ & _ & _ & Hh & _ & _ & _ & _ & _ & Hend).
    exists f, e. fold full in Hs. rewrite Hs, last_snoc.
    split; [reflexivity|]. split; [exact Hh|].
    simpl in Hend. destruct Hend as (_ & He & Hst).
    split; [exact He|exact Hst].
Defined.

(** ** The viewer's busy flags and caches *)

Lemma keyframe_url_truthy W X prompt originalFile modelType ratio ctx url :
  returned (GeminiService.generateKeyframeImage W X prompt originalFile
              modelType ratio ctx) = Some url →
  Js.truthy (Some url) = true.
Proof.
  intros H. unfold GeminiService.generateKeyframeImage in H.
  destruct (negb _); [discriminate|].
  apply returned_bind in H as (_ & _ & H).
  apply returned_bind in H as (parts & _ & H).
  apply returned_bind in H as (response & _ & H).
  apply extract_image_data_url in H as (mime & payload & -> & _).
  reflexivity.
Qed.

(** X10.  No spinner without a call: in every state the viewer can reach,
    a keyframe whose busy flag is raised has a generation in flight; so once
    every call has settled no busy flag is left raised. *)
Theorem busy_flags_are_backed
    (data : StoryboardData.t) (actions : list StoryboardViewer.Action)
    (v : StoryboardViewer.Viewer) :
  StoryboardViewer.run (StoryboardViewer.mount data) actions = Some v →
  flags_backed v
  ∧ (StoryboardViewer.pending v = [] →
     ∀ id, StoryboardViewer.is_loading (StoryboardViewer.images v) id = false).
Proof.
  intros Hrun.
  assert (Hinv : flags_backed v).
  { assert (H0 : flags_backed (StoryboardViewer.mount data)) by (intros id; done).
    revert Hrun H0. generalize (StoryboardViewer.mount data).
    induction actions as [|a actions IH]; intros u; simpl.
    - by intros [= <-].
    - destruct (StoryboardViewer.step u a) as [u1|] eqn:Hstep; simpl;
        [|discriminate].
      intros Hrun Hu. apply (IH u1 Hrun). by eapply flags_backed_step. }
  split; [exact Hinv|].
  intros Hnone id.
  destruct (StoryboardViewer.is_loading _ id) eqn:Hflag; [|done].
  specialize (Hinv id Hflag). unfold StoryboardViewer.outstanding in Hinv.
  by rewrite Hnone in Hinv.
Qed.

Lemma busy_flags_are_backed_witness :
  ∃ v, StoryboardViewer.run (StoryboardViewer.mount SampleViewer.two)
         [StoryboardViewer.ClickGenerateAll;
          StoryboardViewer.ClickGenerateVisual 1;
          StoryboardViewer.Settle 0 (SampleViewer.image "a")] = Some v
       ∧ flags_backed v.
Proof.
  eexists. split; [reflexivity|].
  refine (proj1 (busy_flags_are_backed SampleViewer.two
                   [StoryboardViewer.ClickGenerateAll;
                    StoryboardViewer.ClickGenerateVisual 1;
                    StoryboardViewer.Settle 0 (SampleViewer.image "a")] _ _)).
  reflexivity.
Defined.

(** X11.  A failed generation leaves its keyframe retryable: when the call
    behind a single "generate visual" rejects, one alert is shown, the image
    cache is untouched, the busy flag of the keyframe is lowered, and, the
    keyframe having no image, its button can be clicked again. *)
Theorem failed_generation_is_retryable
    (v : StoryboardViewer.Viewer) (n : nat) (p : StoryboardViewer.Pending)
    (err : Js.Thrown) (i : nat) (kf : Keyframe.t) :
  StoryboardViewer.pending v !! n = Some p →
  StoryboardViewer.resume p = StoryboardViewer.EndVisual →
  StoryboardData.keyframes (StoryboardViewer.editableData v) !! i = Some kf →
  Keyframe.id kf = StoryboardViewer.kf_id p →
  StoryboardViewer.is_generated (StoryboardViewer.images v) (Keyframe.id kf)
  = false →
  ∃ v',
    StoryboardViewer.step v (StoryboardViewer.Settle n (inl err)) = Some v'
    ∧ StoryboardViewer.alerts v' = S (StoryboardViewer.alerts v)
    ∧ StoryboardViewer.generatedImages (StoryboardViewer.images v')
      = StoryboardViewer.generatedImages (StoryboardViewer.images v)
    ∧ StoryboardViewer.is_loading (StoryboardViewer.images v') (Keyframe.id kf)
      = false
    ∧ is_Some (StoryboardViewer.step v' (StoryboardViewer.ClickGenerateVisual i)).
Proof.
  intros Hn Hres Hi Hid Hgen. simpl. rewrite Hn. simpl. rewrite Hres.
  eexists. split; [reflexivity|]. split; [reflexivity|].
  split; [reflexivity|].
  assert (Hlow : StoryboardViewer.is_loading
                   (StoryboardViewer.images
                      (StoryboardViewer.generateVisual_end
                         (StoryboardViewer.kf_id p) (inl err)
                         (StoryboardViewer.settled p
                            (delete n (StoryboardViewer.pending v)) v)))
                   (Keyframe.id kf) = false).
  { unfold StoryboardViewer.is_loading. simpl.
    by rewrite Hid, lookup_insert_eq. }
  split; [exact Hlow|].
  simpl. rewrite Hi. simpl.
  unfold StoryboardViewer.is_generated in *. simpl. simpl in Hlow.
  unfold StoryboardViewer.is_loading in Hlow. simpl in Hlow.
  rewrite Hgen. simpl. unfold StoryboardViewer.is_loading. simpl.
  rewrite Hlow. by eexists.
Qed.

Lemma failed_generation_is_retryable_witness :
  ∃ v',
    StoryboardViewer.step SampleRun.clicked
      (StoryboardViewer.Settle 0 (inl (Js.Error "quota"))) = Some v'
    ∧ StoryboardViewer.alerts v' = 1
    ∧ is_Some (StoryboardViewer.step v' (StoryboardViewer.ClickGenerateVisual 0)).
Proof.
  destruct (failed_generation_is_retryable SampleRun.clicked 0
              {| StoryboardViewer.task := 0; StoryboardViewer.kf_id := 1;
                 StoryboardViewer.resume := StoryboardViewer.EndVisual |}
              (Js.Error "quota") 0 SampleViewer.kf1
              eq_refl eq_refl eq_refl eq_refl eq_refl)
    as (v' & Hstep & Halert & _ & _ & Hretry).
  exists v'. split; [exact Hstep|]. split; [exact Halert|exact Hretry].
Defined.

(** X12.  An image the adapter returned is kept: once the call behind a
    single "generate visual" resolves with a result of
    [generateKeyframeImage], the keyframe has that image, its busy flag is
    lowered, its button is gone, and a "generate all" clicked from then on
    makes no call for it. *)
Theorem generated_image_is_kept
    (v : StoryboardViewer.Viewer) (n : nat) (p : StoryboardViewer.Pending)
    (W : World) (X : Externals) (prompt : string) (originalFile : option File)
    (modelType : ImageGenModel) (ratio : AspectRatio) (ctx : option string)
    (url : string) (i : nat) (kf : Keyframe.t) :
  StoryboardViewer.pending v !! n = Some p →
  StoryboardViewer.resume p = StoryboardViewer.EndVisual →
  returned (GeminiService.generateKeyframeImage W X prompt originalFile
              modelType ratio ctx) = Some url →
  StoryboardData.keyframes (StoryboardViewer.editableData v) !! i = Some kf →
  Keyframe.id kf = StoryboardViewer.kf_id p →
  ∃ v',
    StoryboardViewer.step v (StoryboardViewer.Settle n (inr url)) = Some v'
    ∧ StoryboardViewer.generatedImages (StoryboardViewer.images v')
        !! Keyframe.id kf = Some url
    ∧ StoryboardViewer.is_loading (StoryboardViewer.images v') (Keyframe.id kf)
      = false
    ∧ StoryboardViewer.step v' (StoryboardViewer.ClickGenerateVisual i) = None
    ∧ ∀ v'', StoryboardViewer.step v' StoryboardViewer.ClickGenerateAll
             = Some v'' →
             StoryboardViewer.outstanding (Keyframe.id kf) v''
             = StoryboardViewer.outstanding (Keyframe.id kf) v'.
Proof.
  intros Hn Hres Hurl%keyframe_url_truthy Hi Hid. simpl. rewrite Hn. simpl.
  rewrite Hres. eexists. split; [reflexivity|].
  assert (Hgen : StoryboardViewer.is_generated
                   (StoryboardViewer.images
                      (StoryboardViewer.generateVisual_end
                         (StoryboardViewer.kf_id p) (inr url)
                         (StoryboardViewer.settled p
                            (delete n (StoryboardViewer.pending v)) v)))
                   (Keyframe.id kf) = true).
  { unfold StoryboardViewer.is_generated. simpl.
    by rewrite Hid, lookup_insert_eq. }
  split; [simpl; by rewrite Hid, lookup_insert_eq|].
  split; [unfold StoryboardViewer.is_loading; simpl;
          by rewrite Hid, lookup_insert_eq|].
  split.
  - simpl. rewrite Hi. simpl. simpl in Hgen. by rewrite Hgen.
  - intros v'' [= <-].
    rewrite generateAllVisuals_skips_cached by exact Hgen. reflexivity.
Qed.

Lemma generated_image_is_kept_witness :
  returned (GeminiService.generateKeyframeImage
              (Sample.world (Some "local-key") None) SampleService.painter
              "a street" None NanoBanana R16x9 None)
  = Some (data_url "image/png" "iVBORw0KGgo=")
  ∧ ∃ v',
      StoryboardViewer.step SampleRun.clicked
        (StoryboardViewer.Settle 0 (inr (data_url "image/png" "iVBORw0KGgo=")))
      = Some v'
      ∧ StoryboardViewer.step v' (StoryboardViewer.ClickGenerateVisual 0) = None.
Proof.
  split; [reflexivity|].
  destruct (generated_image_is_kept SampleRun.clicked 0
              {| StoryboardViewer.task := 0; StoryboardViewer.kf_id := 1;
                 StoryboardViewer.resume := StoryboardViewer.EndVisual |}
              (Sample.world (Some "local-key") None) SampleService.painter
              "a street" None NanoBanana R16x9 None
              (data_url "image/png" "iVBORw0KGgo=") 0 SampleViewer.kf1
              eq_refl eq_refl eq_refl eq_refl eq_refl)
    as (v' & Hstep & _ & _ & Hgone & _).
  exists v'. split; [exact Hstep|exact Hgone].
Defined.

(** X13.  "Generate all" with every keyframe already visualised makes no
    call and changes nothing in the viewer (but the count of handler
    runs). *)
Theorem generateAll_all_cached (v : StoryboardViewer.Viewer) :
  Forall (fun kf => StoryboardViewer.is_generated (StoryboardViewer.images v)
                      (Keyframe.id kf) = true)
    (StoryboardData.keyframes (StoryboardViewer.editableData v)) →
  StoryboardViewer.step v StoryboardViewer.ClickGenerateAll
  = Some (StoryboardViewer.new_task v).
Proof.
  intros Hall. simpl. f_equal. by apply generateAllVisuals_loop_cached.
Qed.

Lemma generateAll_all_cached_witness :
  StoryboardViewer.step SampleRun.painted StoryboardViewer.ClickGenerateAll
  = Some (StoryboardViewer.new_task SampleRun.painted).
Proof.
  apply generateAll_all_cached.
  repeat constructor.
Defined.

(** ** The settings panel *)

(** X14.  A key saved in the settings panel is the key used from then on:
    when the save button is enabled, after [handleSave] the trimmed input is
    what the service adapter resolves and sends every storyboard request
    under, the shell's key indicator is on, [handleGenerate] no longer
    refuses, the panel shows the key (and the delete button) when it is
    opened again, and the stored history is untouched. *)
Theorem saved_key_is_used
    (trim : string -> string) (W : World) (s : ApiKeyModal.State)
    (a : App.State) :
  ApiKeyModal.save_disabled trim s = false →
  let r := ApiKeyModal.handleSave trim W s a in
  let key := trim (ApiKeyModal.keyInput s) in
  GeminiService.getApiKey (ApiKeyModal.world r) = key
  ∧ (∀ X input options,
       uses_key key
         (GeminiService.generateStoryboard (ApiKeyModal.world r) X input
            options))
  ∧ App.hasKey (ApiKeyModal.shell r) = true
  ∧ App.handleGenerate_guard (ApiKeyModal.world r) = false
  ∧ (∀ s', ApiKeyModal.keyInput
             (ApiKeyModal.open_effect true (ApiKeyModal.world r) s') = key)
  ∧ ApiKeyModal.delete_shown (ApiKeyModal.world r) = true
  ∧ cinescript_history_v2 (localStorage (ApiKeyModal.world r))
    = cinescript_history_v2 (localStorage W).
Proof.
  intros Hen r key. unfold ApiKeyModal.save_disabled in Hen.
  apply negb_false_iff in Hen. fold key in Hen.
  assert (Hsaved : Js.truthy (cinescript_api_key
                                (localStorage (ApiKeyModal.world r))) = true)
    by exact Hen.
  assert (Hkey : GeminiService.getApiKey (ApiKeyModal.world r) = key).
  { pose proof (getApiKey_saved _ Hsaved) as H.
    change (cinescript_api_key (localStorage (ApiKeyModal.world r)))
      with (Some key) in H. by injection H. }
  split; [exact Hkey|]. split.
  { intros X input options. rewrite <- Hkey.
    apply generateStoryboard_client. by rewrite Hkey. }
  split.
  { change (App.hasKey (ApiKeyModal.shell r))
      with (Js.truthy (Some key) || Js.truthy (env_API_KEY W)).
    by rewrite Hen. }
  split; [unfold App.handleGenerate_guard; by rewrite Hsaved|].
  split; [|split; [exact Hsaved|reflexivity]].
  intros s'. unfold ApiKeyModal.open_effect.
  change (cinescript_api_key (localStorage (ApiKeyModal.world r)))
    with (Some key).
  by rewrite Hen.
Qed.

Lemma saved_key_is_used_witness :
  let r := ApiKeyModal.handleSave (fun k => k) (Sample.world None None)
             (ApiKeyModal.setKeyInput "AIza-local" ApiKeyModal.initial)
             App.initial in
  ApiKeyModal.save_disabled (fun k => k)
    (ApiKeyModal.setKeyInput "AIza-local" ApiKeyModal.initial) = false
  ∧ GeminiService.getApiKey (ApiKeyModal.world r) = "AIza-local"
  ∧ App.hasKey (ApiKeyModal.shell r) = true.
Proof.
  intros r. split; [reflexivity|].
  destruct (saved_key_is_used (fun k => k) (Sample.world None None)
              (ApiKeyModal.setKeyInput "AIza-local" ApiKeyModal.initial)
              App.initial eq_refl) as (Hkey & _ & Hhas & _).
  split; [exact Hkey|exact Hhas].
Defined.

(** X15.  The shell's key indicator after the settings panel has acted.
    After the mount effect, after [handleSave] and after [handleDelete] the
    indicator [hasKey] is on exactly when [handleGenerate] would not refuse
    for want of a key.  Deleting removes the stored key only: the adapter
    falls back to the environment key (or to none), the panel's input is
    emptied and the history is kept.  After a key selection through the
    host's bridge the indicator shows whether the environment holds a key,
    and nothing is written to local storage. *)
Theorem key_indicator
    (trim : string -> string) (W : World) (s : ApiKeyModal.State)
    (a : App.State) (bridge : option ApiKeyModal.AiStudio) :
  App.hasKey (App.mount W a) = negb (App.handleGenerate_guard W)
  ∧ (let r := ApiKeyModal.handleSave trim W s a in
     App.hasKey (ApiKeyModal.shell r)
     = negb (App.handleGenerate_guard (ApiKeyModal.world r)))
  ∧ (let r := ApiKeyModal.handleDelete W s a in
     App.hasKey (ApiKeyModal.shell r)
     = negb (App.handleGenerate_guard (ApiKeyModal.world r))
     ∧ GeminiService.getApiKey (ApiKeyModal.world r)
       = Js.or_default (env_API_KEY W) ""
     ∧ ApiKeyModal.keyInput (ApiKeyModal.panel r) = ""
     ∧ ApiKeyModal.delete_shown (ApiKeyModal.world r) = false
     ∧ cinescript_history_v2 (localStorage (ApiKeyModal.world r))
       = cinescript_history_v2 (localStorage W))
  ∧ (let r := ApiKeyModal.handleOpenAIStudioKey bridge W s a in
     ApiKeyModal.world r = W
     ∧ (ApiKeyModal.closes_in r ≠ None →
        App.hasKey (ApiKeyModal.shell r) = Js.truthy (env_API_KEY W))
     ∧ (ApiKeyModal.closes_in r = None →
        ApiKeyModal.shell r = a ∧ ApiKeyModal.panel r = s)).
Proof.
  split.
  { unfold App.mount, App.handleGenerate_guard.
    destruct (cinescript_history_v2 (localStorage W)); simpl;
      by rewrite negb_andb, !negb_involutive. }
  split.
  { simpl. unfold App.handleGenerate_guard. simpl.
    by rewrite negb_andb, !negb_involutive. }
  split.
  { simpl. unfold App.handleGenerate_guard, ApiKeyModal.delete_shown. simpl.
    split; [by rewrite negb_involutive|].
    split; [|done].
    unfold GeminiService.getApiKey, Js.or_else. reflexivity. }
  unfold ApiKeyModal.handleOpenAIStudioKey.
  destruct bridge as [[has [[err|[]]|]]|]; simpl; split_and!; done.
Qed.

(** ** From the input screen to the request *)

Lemma call_then_read_events {A} X key req (read : Response → Eff A) e :
  (∀ r, events (read r) = []) →
  e ∈ events (GeminiService.models_generateContent X key req ≫= read) →
  e = GenerateContent key req.
Proof.
  intros Hread. rewrite events_bind.
  unfold GeminiService.models_generateContent at 1.
  rewrite events_bind. simpl.
  destruct (returned _) as [r|]; [rewrite Hread|];
    destruct (generateContent X key req); simpl;
    by intros ->%list_elem_of_singleton.
Qed.

Lemma generateStoryboard_parts W X input options key req :
  GenerateContent key req
  ∈ events (GeminiService.generateStoryboard W X input options) →
  match inputType options, input with
  | IMAGE, InFile f =>
      ∃ p, carries input p
           ∧ req_parts req = [p; DirectorPrompt (aspectRatio options)]
  | _, InText s =>
      req_parts req = [ContextText s; DirectorPrompt (aspectRatio options)]
  | TEXT, InFile _ => req_parts req = [DirectorPrompt (aspectRatio options)]
  end.
Proof.
  unfold GeminiService.generateStoryboard.
  destruct (negb _); [by intros ?%elem_of_nil|].
  rewrite events_bind. simpl returned. cbv iota.
  rewrite events_bind.
  assert (Hread : ∀ r : Response,
    events (match text r with
            | Some t =>
                if negb (Js.truthy (Some t))
                then throw (Js.Error GeminiService.NO_RESPONSE)
                else
                  match JSON_parse X t with
                  | inl syntaxError => throw (Js.Error syntaxError)
                  | inr data =>
                      match Js.set "aspectRatio"
                              (Js.VStr (AspectRatio_string (aspectRatio options)))
                              data with
                      | Some data' => mret data'
                      | None => throw (Js.Error (typeError_message X data))
                      end
                  end
            | None => throw (Js.Error GeminiService.NO_RESPONSE)
            end : Eff Js.Value) = []).
  { intros r. destruct (text r) as [t|]; [|done].
    destruct (negb _); [done|]. destruct (JSON_parse X t) as [?|d]; [done|].
    by destruct (Js.set _ _ d). }
  intros [He|He]%elem_of_app; [by apply list_elem_of_singleton in He|].
  apply elem_of_app in He as [He|He].
  - destruct (inputType options), input as [f|s]; simpl in He;
      try by apply elem_of_nil in He.
    unfold GeminiService.fileToGenerativePart in He.
    destruct (file_dataURL f); simpl in He;
      by apply list_elem_of_singleton in He.
  - destruct (inputType options), input as [f|s]; simpl in He.
    + unfold GeminiService.fileToGenerativePart in He.
      destruct (file_dataURL f) as [url|] eqn:Hurl; simpl in He;
        [|by apply elem_of_nil in He].
      apply call_then_read_events in He; [|exact Hread].
      injection He as _ ->. eexists. split; [|reflexivity].
      exists url. by rewrite Hurl.
    + apply call_then_read_events in He; [|exact Hread]. by injection He as _ ->.
    + apply call_then_read_events in He; [|exact Hread]. by injection He as _ ->.
    + apply call_then_read_events in He; [|exact Hread]. by injection He as _ ->.
Qed.

Lemma saveToHistory_events setItem clock history0 data options imageFile st
    s e :
  e ∈ (App.saveToHistory setItem clock history0 data options imageFile st
         s).1 →
  ∃ f, e = ReadFile f.
Proof.
  unfold App.saveToHistory. destruct imageFile as [f|]; simpl;
    [|by intros ?%elem_of_nil].
  unfold GeminiService.fileToGenerativePart.
  destruct (file_dataURL f); simpl; intros ->%list_elem_of_singleton;
    by eexists.
Qed.

Lemma handleGenerate_requests W X clock input options a key req :
  GenerateContent key req
  ∈ App.performed (App.handleGenerate W X clock input options a) →
  GenerateContent key req
  ∈ events (GeminiService.generateStoryboard W X input options).
Proof.
  unfold App.handleGenerate.
  destruct (App.handleGenerate_guard W); [by intros ?%elem_of_nil|].
  destruct (GeminiService.generateStoryboard W X input options)
    as [evs [err|data]]; [done|].
  destruct (App.saveToHistory _ _ _ _ _ _ _ _)
    as [evs' [s3 [st rejected]]] eqn:Hsave.
  simpl. intros [He|He]%elem_of_app; [done|].
  pose proof (saveToHistory_events (localStorage_setItem X) clock
                (App.history a) data options
                (match input with InFile f => Some f | InText _ => None end)
                (localStorage W)
                (App.setStoryboardData (Some data)
                   (App.handleGenerate_begin input options a))
                (GenerateContent key req)) as H.
  rewrite Hsave in H. by destruct (H He).
Qed.

(** X16.  What the input screen submits reaches the model.  Whichever
    handler of the input screen called [onGenerate] (file chosen, file
    dropped, script submitted), every request the shell's [handleGenerate]
    then sends consists of the input itself (the image inline, or the script
    as context) followed by the director prompt for the aspect ratio selected
    on the screen. *)
Theorem input_reaches_model
    (trim : string -> string) (files : option (list File))
    (s : ImageUpload.State) (input : Input) (options : GenerationOptions)
    (W : World) (X : Externals) (clock : App.Clock) (a : App.State)
    (key : string) (req : Request) :
  ImageUpload.handleFileChange files s = Some (input, options)
  ∨ ImageUpload.handleDrop files s = Some (input, options)
  ∨ ImageUpload.handleTextSubmit trim s = Some (input, options) →
  GenerateContent key req
  ∈ App.performed (App.handleGenerate W X clock input options a) →
  ∃ p, carries input p
       ∧ req_parts req = [p; DirectorPrompt (ImageUpload.aspectRatio s)].
Proof.
  intros Hfrom Hreq%handleGenerate_requests%generateStoryboard_parts.
  assert (Hshape :
    (∃ f, input = InFile f ∧ options = ImageUpload.options IMAGE s)
    ∨ (∃ t, input = InText t ∧ options = ImageUpload.options TEXT s)).
  { destruct Hfrom as [H|[H|H]].
    - unfold ImageUpload.handleFileChange in H.
      destruct files as [[|f ?]|]; try discriminate.
      injection H as <- <-. left. by eexists.
    - unfold ImageUpload.handleDrop in H.
      destruct (ImageUpload.inputType s), files as [[|f ?]|];
        try discriminate.
      injection H as <- <-. left. by eexists.
    - unfold ImageUpload.handleTextSubmit in H.
      destruct (Js.truthy _); [|discriminate].
      injection H as <- <-. right. by eexists. }
  destruct Hshape as [(f & -> & ->)|(t & -> & ->)]; simpl in Hreq.
  - exact Hreq.
  - by eexists.
Qed.

Lemma input_reaches_model_witness :
  let s := ImageUpload.initial in
  let run :=
    App.handleGenerate (Sample.world (Some "local-key") None)
      Sample.service_echo_9x16 SampleShell.clock
      (InFile Sample.png) (ImageUpload.options IMAGE s) App.initial in
  ImageUpload.handleFileChange (Some [Sample.png]) s
  = Some (InFile Sample.png, ImageUpload.options IMAGE s)
  ∧ ∀ key req, GenerateContent key req ∈ App.performed run →
      ∃ p, carries (InFile Sample.png) p
           ∧ req_parts req = [p; DirectorPrompt R9x16].
Proof.
  intros s run. split; [reflexivity|].
  intros key req Hreq.
  apply (input_reaches_model (fun t => t) (Some [Sample.png]) s
           (InFile Sample.png) (ImageUpload.options IMAGE s)
           (Sample.world (Some "local-key") None) Sample.service_echo_9x16
           SampleShell.clock App.initial key req);
    [left; reflexivity|exact Hreq].
Defined.

Lemma generateStoryboard_reads W X input options f :
  ReadFile f ∈ events (GeminiService.generateStoryboard W X input options) →
  input = InFile f ∧ inputType options = IMAGE.
Proof.
  unfold GeminiService.generateStoryboard.
  destruct (negb _); [by intros ?%elem_of_nil|].
  rewrite events_bind. simpl returned. cbv iota.
  rewrite events_bind.
  intros [He|He]%elem_of_app; [by apply list_elem_of_singleton in He|].
  apply elem_of_app in He as [He|He].
  - destruct (inputType options), input as [f'|s]; simpl in He;
      try by apply elem_of_nil in He.
    unfold GeminiService.fileToGenerativePart in He.
    destruct (file_dataURL f'); simpl in He;
      apply list_elem_of_singleton in He; by injection He as ->.
  - destruct (returned _) as [ps|]; [|by apply elem_of_nil in He].
    rewrite events_bind in He. apply elem_of_app in He as [He|He].
    + unfold GeminiService.models_generateContent in He.
      rewrite events_bind in He. simpl in He.
      by apply list_elem_of_singleton in He.
    + destruct (returned _) as [r|]; [|by apply elem_of_nil in He].
      destruct (text r) as [t|]; [|by apply elem_of_nil in He].
      destruct (negb _); [by apply elem_of_nil in He|].
      destruct (JSON_parse X t) as [?|d]; [by apply elem_of_nil in He|].
      destruct (Js.set _ _ d); by apply elem_of_nil in He.
Qed.

(** X17.  Regenerating from the viewer sends the edited script: when the
    shell holds the options of the storyboard on screen, [onRegenerate]
    starts a run in which every request consists of the new text as context
    followed by the director prompt for the aspect ratio of those options,
    whatever the storyboard was first made from; the run reads no file. *)
Theorem onRegenerate_sends_text
    (W : World) (X : Externals) (clock : App.Clock) (newText : string)
    (a : App.State) (o : GenerationOptions) :
  App.selectedOptions a = Some o →
  ∃ run,
    App.onRegenerate W X clock newText a = Some run
    ∧ (∀ key req, GenerateContent key req ∈ App.performed run →
         req_parts req = [ContextText newText; DirectorPrompt (aspectRatio o)])
    ∧ ∀ f, ReadFile f ∉ App.performed run.
Proof.
  intros Ho. unfold App.onRegenerate. rewrite Ho. eexists.
  split; [reflexivity|]. split.
  - intros key req Hreq%handleGenerate_requests%generateStoryboard_parts.
    exact Hreq.
  - intros f. unfold App.handleGenerate.
    destruct (App.handleGenerate_guard W); [by intros ?%elem_of_nil|].
    destruct (GeminiService.generateStoryboard W X (InText newText) _)
      as [evs [err|data]] eqn:Hrun; simpl.
    + intros He.
      assert (H : ReadFile f ∈ events (GeminiService.generateStoryboard W X
                    (InText newText)
                    {| model := model o; duration := duration o;
                       imageModel := imageModel o; inputType := TEXT;
                       aspectRatio := aspectRatio o |}))
        by (by rewrite Hrun).
      by destruct (generateStoryboard_reads _ _ _ _ _ H).
    + rewrite app_nil_r. intros He.
      assert (H : ReadFile f ∈ events (GeminiService.generateStoryboard W X
                    (InText newText)
                    {| model := model o; duration := duration o;
                       imageModel := imageModel o; inputType := TEXT;
                       aspectRatio := aspectRatio o |}))
        by (by rewrite Hrun).
      by destruct (generateStoryboard_reads _ _ _ _ _ H).
Qed.

Lemma onRegenerate_sends_text_witness :
  ∃ run,
    App.onRegenerate (Sample.world (Some "local-key") None)
      Sample.service_echo_9x16 SampleShell.clock "rain, again"
      (App.setSelectedOptions (Some Sample.options_16x9) App.initial)
    = Some run
    ∧ ∀ key req, GenerateContent key req ∈ App.performed run →
        req_parts req = [ContextText "rain, again"; DirectorPrompt R16x9].
Proof.
  destruct (onRegenerate_sends_text (Sample.world (Some "local-key") None)
              Sample.service_echo_9x16 SampleShell.clock "rain, again"
              (App.setSelectedOptions (Some Sample.options_16x9) App.initial)
              Sample.options_16x9 eq_refl) as (run & Hrun & Hreq & _).
  exists run. split; [exact Hrun|exact Hreq].
Defined.

(** X18.  The adapter sends a file only as an image: [generateStoryboard]
    given a file together with [inputType] TEXT neither reads the file nor
    sends it; a request it makes holds the director prompt alone. *)
Theorem file_with_text_type_is_dropped
    (W : World) (X : Externals) (f : File) (options : GenerationOptions) :
  inputType options = TEXT →
  let run := GeminiService.generateStoryboard W X (InFile f) options in
  (∀ f', ReadFile f' ∉ events run)
  ∧ ∀ key req, GenerateContent key req ∈ events run →
      req_parts req = [DirectorPrompt (aspectRatio options)].
Proof.
  intros Htext run. split.
  - intros f' [_ H]%generateStoryboard_reads. congruence.
  - intros key req H%generateStoryboard_parts. by rewrite Htext in H.
Qed.

Lemma file_with_text_type_is_dropped_witness :
  let run :=
    GeminiService.generateStoryboard (Sample.world (Some "local-key") None)
      Sample.service_echo_9x16 (InFile Sample.png)
      (ImageUpload.options TEXT ImageUpload.initial) in
  events run ≠ []
  ∧ ∀ key req, GenerateContent key req ∈ events run →
      req_parts req = [DirectorPrompt R9x16].
Proof.
  intros run. split; [discriminate|].
  exact (proj2 (file_with_text_type_is_dropped
                  (Sample.world (Some "local-key") None)
                  Sample.service_echo_9x16 Sample.png
                  (ImageUpload.options TEXT ImageUpload.initial) eq_refl)).
Defined.

(** ** The image editor *)

Lemma editImageWithPrompt_requests W X f p :
  (length (requests (events (GeminiService.editImageWithPrompt W X f p)))
   ≤ 1)%nat.
Proof.
  unfold GeminiService.editImageWithPrompt.
  destruct (negb _); [simpl; lia|].
  eapply (operation_requests (GeminiService.getApiKey W)
            (GeminiService.fileToGenerativePart f)).
  - apply requests_read.
  - intros ps. by rewrite requests_call.
  - intros r. apply requests_extract.
Qed.

Lemma editImageWithPrompt_url W X f p url :
  returned (GeminiService.editImageWithPrompt W X f p) = Some url →
  ∃ mime payload, url = data_url mime payload ∧ mime ≠ "".
Proof.
  unfold GeminiService.editImageWithPrompt.
  destruct (negb _); [discriminate|]. intros H.
  apply returned_bind in H as (_ & _ & H).
  apply returned_bind in H as (base64Data & _ & H).
  apply returned_bind in H as (response & _ & H).
  by apply extract_image_data_url in H.
Qed.

Lemma editImageWithPrompt_no_key W X f p :
  GeminiService.getApiKey W = "" →
  GeminiService.editImageWithPrompt W X f p
  = throw (Js.Error GeminiService.MISSING_KEY).
Proof.
  intros H. unfold GeminiService.editImageWithPrompt. by rewrite H.
Qed.

(** X19.  An edit always settles.  With a prompt that is not blank,
    [handleGenerate] of the image editor ends with the busy flag lowered and
    the prompt kept, having sent at most one request.  Either it succeeded:
    there was an original file, the error line is cleared and the result is a
    data URL; or it failed: an error text is set and the result shown before
    stays.  Without an original file it fails with the editor's own message
    and without touching the service; without a key it fails with the
    adapter's missing-key message, again without touching the service. *)
Theorem editor_settles
    (trim : string -> string) (W : World) (X : Externals)
    (originalImage : option File) (s : ImageEditor.State) :
  Js.truthy (Some (trim (ImageEditor.prompt s))) = true →
  let r := ImageEditor.handleGenerate trim W X originalImage s in
  ImageEditor.isLoading (ImageEditor.final r) = false
  ∧ ImageEditor.prompt (ImageEditor.final r) = ImageEditor.prompt s
  ∧ (length (requests (ImageEditor.performed r)) ≤ 1)%nat
  ∧ ((ImageEditor.error (ImageEditor.final r) = None
      ∧ ∃ f mime payload,
          originalImage = Some f ∧ mime ≠ ""
          ∧ ImageEditor.generatedImage (ImageEditor.final r)
            = Some (data_url mime payload))
     ∨ (is_Some (ImageEditor.error (ImageEditor.final r))
        ∧ ImageEditor.generatedImage (ImageEditor.final r)
          = ImageEditor.generatedImage s))
  ∧ (originalImage = None →
     ImageEditor.performed r = []
     ∧ ImageEditor.error (ImageEditor.final r)
       = Some ImageEditor.MSG_NEEDS_FILE)
  ∧ (is_Some originalImage → GeminiService.getApiKey W = "" →
     ImageEditor.performed r = []
     ∧ ImageEditor.error (ImageEditor.final r)
       = Some GeminiService.MISSING_KEY).
Proof.
  intros Hprompt r. unfold r, ImageEditor.handleGenerate.
  rewrite Hprompt. simpl negb. cbv iota.
  destruct originalImage as [f|].
  - pose proof (editImageWithPrompt_requests W X f (ImageEditor.prompt s))
      as Hle.
    pose proof (editImageWithPrompt_url W X f (ImageEditor.prompt s)) as Hurl.
    pose proof (editImageWithPrompt_no_key W X f (ImageEditor.prompt s))
      as Hkey.
    destruct (GeminiService.editImageWithPrompt W X f (ImageEditor.prompt s))
      as [evs [err|result]]; simpl.
    + split_and!; try done.
      * right. split; [by eexists|done].
      * intros _ Hnone. specialize (Hkey Hnone). by injection Hkey as -> ->.
    + split_and!; try done.
      * left. split; [done|].
        destruct (Hurl result eq_refl) as (mime & payload & -> & Hmime).
        by exists f, mime, payload.
      * intros _ Hnone. by specialize (Hkey Hnone).
  - simpl. split_and!; try done; try lia;
      first [right; split; [by eexists|done] | by intros [? ?]].
Qed.

Lemma editor_settles_witness :
  let s := {| ImageEditor.prompt := "warmer";
              ImageEditor.generatedImage := None;
              ImageEditor.isLoading := false;
              ImageEditor.error := Some "old" |} in
  let r := ImageEditor.handleGenerate (fun p => p)
             (Sample.world (Some "local-key") None) SampleService.painter
             (Some Sample.png) s in
  Js.truthy (Some (ImageEditor.prompt s)) = true
  ∧ ImageEditor.isLoading (ImageEditor.final r) = false
  ∧ ImageEditor.generatedImage (ImageEditor.final r)
    = Some (data_url "image/png" "iVBORw0KGgo=").
Proof.
  intros s r. split; [reflexivity|].
  destruct (editor_settles (fun p => p)
              (Sample.world (Some "local-key") None) SampleService.painter
              (Some Sample.png) s eq_refl) as (Hidle & _).
  split; [exact Hidle|reflexivity].
Defined.

(** ** From the shell to the viewer *)

Lemma generateStoryboard_returned_ratio W X input options data :
  returned (GeminiService.generateStoryboard W X input options) = Some data →
  Js.get "aspectRatio" data
  = Some (Js.VStr (AspectRatio_string (aspectRatio options))).
Proof.
  unfold GeminiService.generateStoryboard.
  destruct (negb _); [discriminate|].
  intros (_ & _ & H)%returned_bind.
  apply returned_bind in H as (parts & _ & H).
  apply returned_bind in H as (response & _ & H).
  destruct (text response) as [t|]; [|discriminate].
  destruct (negb _); [discriminate|].
  destruct (JSON_parse X t) as [e|parsed]; [discriminate|].
  destruct (Js.set _ _ parsed) as [data'|] eqn:Hset; [|discriminate].
  injection H as <-. by eapply get_set_eq.
Qed.

Lemma generateKeyframeImage_request W X prompt file modelType ratio ctx key req :
  GenerateContent key req
  ∈ events (GeminiService.generateKeyframeImage W X prompt file modelType
              ratio ctx) →
  req_imageConfig req
  = Some {| cfg_aspectRatio := ratio;
            cfg_imageSize := match modelType with
                             | NanoBananaPro => Some "1K"
                             | NanoBanana => None
                             end |}
  ∧ req_model req = match modelType with
                    | NanoBananaPro => "gemini-3-pro-image-preview"
                    | NanoBanana => "gemini-2.5-flash-image"
                    end
  ∧ last (req_parts req)
    = Some (KeyframePrompt ratio (if Js.truthy ctx then ctx else None) prompt).
Proof.
  unfold GeminiService.generateKeyframeImage.
  destruct (negb _); [by intros ?%elem_of_nil|].
  rewrite events_bind. simpl returned. cbv iota.
  rewrite events_bind.
  intros [He|He]%elem_of_app; [by apply list_elem_of_singleton in He|].
  apply elem_of_app in He as [He|He].
  - destruct file as [f|]; simpl in He; [|by apply elem_of_nil in He].
    unfold GeminiService.fileToGenerativePart in He.
    destruct (file_dataURL f); simpl in He;
      by apply list_elem_of_singleton in He.
  - destruct (returned _) as [ps|] eqn:Hps; [|by apply elem_of_nil in He].
    apply call_then_read_events in He;
      [|intros r; unfold GeminiService.extract_image;
        destruct (candidates r) as [[|c ?]|]; try done;
        by destruct (GeminiService.first_inlineData _)].
    injection He as _ ->. simpl. split; [done|]. split; [done|].
    destruct file as [f|]; simpl in Hps.
    + unfold GeminiService.fileToGenerativePart, returned in Hps.
      destruct (file_dataURL f); simpl in Hps; [|discriminate].
      by injection Hps as <-.
    + by injection Hps as <-.
Qed.

(** X20.  Keyframe images follow the storyboard.  After a successful
    [handleGenerate] (the storyboard is returned and the run ends without an
    error) the viewer is on screen with the storyboard returned, whose
    [aspectRatio] field is the ratio of the run's options; and every request
    a [generateVisual] of that viewer sends asks for that same ratio (in the
    image configuration and in the prompt), from the model chosen in the
    options, with the size set only for the Pro model. *)
Theorem visuals_follow_storyboard
    (W : World) (X : Externals) (clock : App.Clock) (input : Input)
    (options : GenerationOptions) (s : App.State) (data : Js.Value) :
  App.handleGenerate_guard W = false →
  returned (GeminiService.generateStoryboard W X input options) = Some data →
  let final := App.final (App.handleGenerate W X clock input options s) s in
  App.error final = None →
  ∃ p,
    App.viewer_props final = Some p
    ∧ App.props_data p = data
    ∧ Js.get "aspectRatio" data
      = Some (Js.VStr (AspectRatio_string (aspectRatio options)))
    ∧ ∀ W' X' d kf key req,
        GenerateContent key req
        ∈ events (StoryboardViewer.generateVisual_call W' X'
                    (App.props_originalImage p) (App.props_imageModel p)
                    (App.props_aspectRatio p) d kf) →
        req_imageConfig req
        = Some {| cfg_aspectRatio := aspectRatio options;
                  cfg_imageSize := match imageModel options with
                                   | NanoBananaPro => Some "1K"
                                   | NanoBanana => None
                                   end |}
        ∧ req_model req = match imageModel options with
                          | NanoBananaPro => "gemini-3-pro-image-preview"
                          | NanoBanana => "gemini-2.5-flash-image"
                          end
        ∧ ∃ ctx, last (req_parts req)
                 = Some (KeyframePrompt (aspectRatio options) ctx
                           (StoryboardViewer.visual_prompt (Keyframe.action kf)
                              (Keyframe.composition kf) (Keyframe.lighting kf))).
Proof.
  intros Hguard Hret final Hok.
  destruct (handleGenerate_final W X clock input options s data Hguard Hret)
    as (entry & waiting & _ & _ & _ & _ & _ & _ & _ & Hend).
  fold final in Hend.
  destruct (localStorage_setItem X (localStorage W) (entry :: App.history s))
    as [err|]; destruct Hend as [Hfinal _].
  { rewrite Hfinal in Hok.
    destruct (handleGenerate_catch_spec err
                (App.setHistory (entry :: App.history s)
                   (App.setStoryboardData (Some data)
                      (App.handleGenerate_begin input options s))))
      as (_ & Herr & _).
    congruence. }
  rewrite Hfinal. eexists. split; [reflexivity|].
  split; [reflexivity|].
  split; [by eapply generateStoryboard_returned_ratio|].
  intros W' X' d kf key req Hreq.
  apply generateKeyframeImage_request in Hreq as (Hcfg & Hmodel & Hlast).
  destruct input; simpl in *; split_and!; try done; by eexists.
Qed.

Lemma visuals_follow_storyboard_witness :
  let W := Sample.world (Some "local-key") None in
  let final :=
    App.final (App.handleGenerate W Sample.service_echo_9x16 SampleShell.clock
                 (InText "rain") Sample.options_16x9 App.initial)
      App.initial in
  App.handleGenerate_guard W = false
  ∧ App.error final = None
  ∧ ∃ p, App.viewer_props final = Some p
         ∧ App.props_aspectRatio p = R16x9
         ∧ Js.get "aspectRatio" (App.props_data p) = Some (Js.VStr "16:9").
Proof.
  intros W final. split; [reflexivity|]. split; [reflexivity|].
  destruct (visuals_follow_storyboard W Sample.service_echo_9x16
              SampleShell.clock (InText "rain") Sample.options_16x9
              App.initial _ eq_refl eq_refl eq_refl)
    as (p & Hp & Hdata & Hratio & _).
  exists p. split; [exact Hp|]. split.
  - change (App.viewer_props final = Some p) in Hp.
    vm_compute in Hp. by injection Hp as <-.
  - rewrite Hdata. exact Hratio.
Defined.

Lemma JSON_reread_plain (v : Js.Value) :
  JSON_plain v = true → JSON_reread v = v.
Proof.
  revert v. fix IH 1. intros [| b | q | t | items props | props]; simpl;
    try reflexivity.
  - intros [Hitems Hprops]%andb_true_iff.
    destruct props; [|discriminate]. f_equal.
    induction items as [|x items IHitems]; [reflexivity|].
    simpl in Hitems. apply andb_true_iff in Hitems as [Hx Hitems].
    simpl. by rewrite (IH x Hx), (IHitems Hitems).
  - intros Hprops. f_equal.
    induction props as [|[k x] props IHprops]; [reflexivity|].
    simpl in Hprops. apply andb_true_iff in Hprops as [Hx Hprops].
    simpl. by rewrite (IH x Hx), (IHprops Hprops).
Qed.

(** X21.  A saved storyboard reopens as it was generated.  After a
    successful [handleGenerate] (the storyboard is returned and the run ends
    without an error, so local storage took the write), an application
    mounted later on the local storage the run left behind lists the entries
    of the running one, read back from their JSON text, the new entry first;
    and viewing that entry puts the viewer on screen with the storyboard
    read back, the image model and aspect ratio of the run, no original file,
    and the entry's preview (none for a text run).  The storyboard read back
    is the storyboard returned when no array in it carries a named property
    (only an answer that is itself an array does, its [aspectRatio]). *)
Theorem saved_storyboard_reopens
    (W : World) (X : Externals) (clock : App.Clock) (input : Input)
    (options : GenerationOptions) (s : App.State) (data : Js.Value)
    (fresh : App.State) :
  App.handleGenerate_guard W = false →
  returned (GeminiService.generateStoryboard W X input options) = Some data →
  let r := App.handleGenerate W X clock input options s in
  App.error (App.final r s) = None →
  let reloaded :=
    App.mount {| localStorage := JSON_reload (App.storage r);
                 env_API_KEY := env_API_KEY W |}
      fresh in
  ∃ entry,
    App.history (App.final r s) = entry :: App.history s
    ∧ App.history reloaded = reread_entry <$> App.history (App.final r s)
    ∧ App.hasKey reloaded = true
    ∧ App.viewer_props
        (App.handleViewHistoryItem (reread_entry entry) reloaded)
      = Some {| App.props_data := JSON_reread data;
                App.props_originalImage := None;
                App.props_previewImageUrl := SavedStoryboard.previewImage entry;
                App.props_originalText := App.selectedText fresh;
                App.props_imageModel := imageModel options;
                App.props_aspectRatio := aspectRatio options |}
    ∧ (JSON_plain data = true → JSON_reread data = data)
    ∧ (∀ t, input = InText t → SavedStoryboard.previewImage entry = None).
Proof.
  intros Hguard Hret r Hok reloaded.
  destruct (handleGenerate_final W X clock input options s data Hguard Hret)
    as (entry & waiting & Hdata & Hopts & _ & _ & Hprev & _ & _ & Hend).
  fold r in Hend. exists entry.
  destruct (localStorage_setItem X (localStorage W) (entry :: App.history s))
    as [err|]; destruct Hend as [Hfinal Hstore].
  { rewrite Hfinal in Hok.
    destruct (handleGenerate_catch_spec err
                (App.setHistory (entry :: App.history s)
                   (App.setStoryboardData (Some data)
                      (App.handleGenerate_begin input options s))))
      as (_ & Herr & _).
    congruence. }
  assert (Hkey : Js.truthy (cinescript_api_key (localStorage W))
                 || Js.truthy (env_API_KEY W) = true).
  { unfold App.handleGenerate_guard in Hguard.
    destruct (Js.truthy (cinescript_api_key _)), (Js.truthy (env_API_KEY W));
      done. }
  unfold reloaded, App.mount. rewrite Hstore, Hfinal. simpl.
  split_and!; try done.
  - unfold App.viewer_props, App.handleViewHistoryItem. simpl.
    by rewrite Hdata, Hopts.
  - apply JSON_reread_plain.
Qed.

Lemma saved_storyboard_reopens_witness :
  let W := Sample.world (Some "local-key") None in
  let r := App.handleGenerate W Sample.service_echo_9x16 SampleShell.clock
             (InText "rain") Sample.options_16x9 App.initial in
  let reloaded :=
    App.mount {| localStorage := JSON_reload (App.storage r);
                 env_API_KEY := None |}
      App.initial in
  App.handleGenerate_guard W = false
  ∧ App.error (App.final r App.initial) = None
  ∧ ∃ entry, App.history reloaded = [reread_entry entry]
             ∧ SavedStoryboard.previewImage entry = None.
Proof.
  intros W r reloaded. split; [reflexivity|]. split; [reflexivity|].
  destruct (saved_storyboard_reopens W Sample.service_echo_9x16
              SampleShell.clock (InText "rain") Sample.options_16x9
              App.initial _ App.initial eq_refl eq_refl eq_refl)
    as (entry & Hfinal & Hhist & _ & _ & _ & Hprev).
  exists entry. split; [|by eapply Hprev].
  rewrite Hfinal in Hhist. exact Hhist.
Defined.

(** ** The shell between events *)

Section ShellMachine.
Import AppMachine.

(** The part of [history_in_step] that handlers keep; the render that
    follows restores the order. *)
Let in_step (m : Shell) : Prop :=
  arrays m !! current m = Some (App.history (state m))
  ∧ App.history (state m) ≡ₚ stored_history (disk m).

Lemma in_step_update s m :
  in_step m → App.history s = App.history (state m) → in_step (update s m).
Proof. intros [Ha Hb] Hs. split; simpl; by rewrite Hs. Qed.

Lemma in_step_commit s st m :
  App.history s ≡ₚ stored_history st → in_step (commit_history s st m).
Proof.
  intros Hs. split; simpl; [|done].
  by rewrite lookup_app_r, Nat.sub_diag.
Qed.

Lemma in_step_settings r m :
  in_step m →
  App.history (ApiKeyModal.shell r) = App.history (state m) →
  cinescript_history_v2 (localStorage (ApiKeyModal.world r))
  = cinescript_history_v2 (disk m) →
  in_step (settings r m).
Proof.
  intros [Ha Hb] Hs Hd. split; simpl; rewrite Hs; [done|].
  unfold stored_history in *. by rewrite Hd.
Qed.

Lemma in_step_begin input options m :
  in_step m → in_step (begin input options m).
Proof.
  intros Hm. unfold begin. destruct (App.handleGenerate_guard _).
  - by apply in_step_update.
  - apply (in_step_update _ m Hm). by destruct input.
Qed.

Lemma in_step_save clock j data m : in_step (save clock j data m).
Proof.
  unfold save, App.saveToHistory.
  destruct (job_input j) as [f|t].
  - destruct (GeminiService.fileToGenerativePart f) as [evs [e|raw]];
      by apply in_step_commit.
  - by apply in_step_commit.
Qed.

Lemma in_step_handle trim bridge m a m' :
  in_step m → handle trim bridge m a = Some m' → in_step m'.
Proof.
  intros Hm. destruct a; simpl.
  - intros [= <-]. apply (in_step_update _ m Hm).
    unfold App.toggleHistory. by destruct (App.appState _).
  - intros [= <-]. by apply in_step_update.
  - destruct (App.appState _); try discriminate.
    destruct (App.history (state m) !! row); simpl; [|discriminate].
    intros [= <-]. by apply in_step_update.
  - destruct (App.appState _); try discriminate.
    destruct (App.history (state m) !! row); simpl; [|discriminate].
    intros [= <-]. by apply in_step_commit.
  - destruct (App.appState _), (App.history (state m)); try discriminate.
    intros [= <-]. by apply in_step_commit.
  - destruct (App.appState _); try discriminate.
    intros [= <-]. by apply in_step_begin.
  - destruct (App.viewer_props _); [|discriminate].
    destruct (App.selectedOptions _); intros [= <-]; [|done].
    by apply in_step_begin.
  - destruct (jobs m !! n) as [j|]; simpl; [|discriminate].
    destruct (job_data j); [discriminate|].
    destruct outcome as [err|data].
    + intros [= <-]. apply (in_step_update _ m Hm).
      unfold App.handleGenerate_catch.
      destruct (App.failure_message err) as [msg []]; done.
    + destruct (job_input j) eqn:Hin; intros [= <-]; [by apply in_step_update|].
      pose proof (in_step_save clock j data
                    (update (App.setStoryboardData (Some data) (state m)) m))
        as H.
      exact H.
  - destruct (jobs m !! n) as [j|]; simpl; [|discriminate].
    destruct (job_data j) as [data|]; simpl; [|discriminate].
    intros [= <-]. exact (in_step_save clock j data m).
  - intros [= <-]. by apply in_step_update.
  - intros [= <-]. by apply in_step_update.
  - by intros [= <-].
  - destruct (App.isSettingsOpen _); [|discriminate]. by intros [= <-].
  - destruct (_ && _); [|discriminate]. intros [= <-].
    by apply in_step_settings.
  - destruct (_ && _); [|discriminate]. intros [= <-].
    by apply in_step_settings.
  - destruct (App.isSettingsOpen _); [|discriminate]. intros [= <-].
    apply (in_step_settings _ m Hm);
      unfold ApiKeyModal.handleOpenAIStudioKey;
      by destruct bridge as [[has [[err|[]]|]]|].
Qed.

Lemma history_in_step_render m : in_step m → history_in_step (render m).
Proof.
  intros [Ha Hb]. unfold render, App.render.
  destruct (App.appState (state m)) eqn:Hs; simpl;
    try (split; [done|split; [done|congruence]]).
  rewrite render_Array_sort. split_and!.
  - apply list_lookup_insert_eq. by eapply lookup_lt_Some.
  - etrans; [apply (Array_sort_Permutation SavedStoryboard.timestamp)|done].
  - intros _. apply (Array_sort_sorted SavedStoryboard.timestamp).
Qed.

Lemma history_in_step_run trim bridge m actions m' :
  history_in_step m → run trim bridge m actions = Some m' →
  history_in_step m'.
Proof.
  revert m. induction actions as [|a actions IH]; intros m Hm; simpl.
  - by intros [= <-].
  - unfold step. destruct (handle trim bridge m a) as [m1|] eqn:Hh; simpl;
      [|discriminate].
    apply IH. apply history_in_step_render.
    eapply in_step_handle; [|exact Hh]. destruct Hm as (? & ? & _). by split.
Qed.

Lemma history_in_step_mount env st : history_in_step (mount env st).
Proof.
  unfold mount, App.mount. simpl.
  destruct (cinescript_history_v2 st) as [parsed|] eqn:Hst.
  - split_and!; simpl; [done| |done]. unfold stored_history. by rewrite Hst.
  - split_and!; simpl; [done| |done]. unfold stored_history. by rewrite Hst.
Qed.

End ShellMachine.

(** X22.  The history on screen is the history stored.  In every state the
    shell can reach from its mount, through any interleaving of clicks,
    settings and generations completing or failing, the shell's [history]
    holds exactly the stored entries (up to order), so that an application
    mounted on the same local storage lists the same entries; and while the
    history screen is shown the list is newest first. *)
Theorem history_screen_matches_storage
    (trim : string -> string) (bridge : option ApiKeyModal.AiStudio)
    (env : option string) (st : Storage)
    (actions : list AppMachine.Action) (m : AppMachine.Shell) :
  AppMachine.run trim bridge (AppMachine.mount env st) actions = Some m →
  App.history (AppMachine.state m)
  ≡ₚ App.history
       (AppMachine.state (AppMachine.mount (AppMachine.env m)
                            (AppMachine.disk m)))
  ∧ (App.appState (AppMachine.state m) = HISTORY →
     StronglySorted newest_first (App.history (AppMachine.state m))).
Proof.
  intros Hrun.
  destruct (history_in_step_run trim bridge _ actions m
              (history_in_step_mount env st) Hrun) as (_ & Hb & Hc).
  split; [|exact Hc].
  destruct (history_in_step_mount (AppMachine.env m) (AppMachine.disk m))
    as (_ & Hb' & _).
  rewrite Hb, Hb'. unfold AppMachine.mount.
  by destruct (cinescript_history_v2 (AppMachine.disk m)).
Qed.

Lemma history_screen_matches_storage_witness :
  AppMachine.run (fun k => k) None SampleMachine.mounted
    SampleMachine.busy_afternoon = Some SampleMachine.evening
  ∧ App.history (AppMachine.state SampleMachine.evening)
    ≡ₚ stored_history (AppMachine.disk SampleMachine.evening)
  ∧ length (App.history (AppMachine.state SampleMachine.evening)) = 4.
Proof.
  assert (Hrun : AppMachine.run (fun k => k) None
                   (AppMachine.mount (Some "env-key") SampleHistory.stored)
                   SampleMachine.busy_afternoon = Some SampleMachine.evening)
    by (vm_compute; reflexivity).
  split; [exact Hrun|].
  split; [|vm_compute; reflexivity].
  destruct (history_screen_matches_storage (fun k => k) None
              (Some "env-key") SampleHistory.stored
              SampleMachine.busy_afternoon SampleMachine.evening Hrun)
    as [Hsame _].
  etrans; [exact Hsame|]. vm_compute. reflexivity.
Defined.
Lemma run_step trim bridge m a m1 actions :
  AppMachine.step trim bridge m a = Some m1 →
  AppMachine.run trim bridge m (a :: actions)
  = AppMachine.run trim bridge m1 actions.
Proof. intros H. simpl. by rewrite H. Qed.

(** X23.  A run that completes rebuilds the history from the render it was
    started from.  Let a script be submitted from the upload screen; while it
    is analysed the history screen is opened and every entry cleared, which
    empties the list and the stored history; when the storyboard then
    arrives, the shell's history and the stored history are the new entry
    followed by all the entries that had been cleared, in the order the
    history screen had shown them, and the viewer comes on screen. *)
Theorem cleared_history_returns
    (trim : string -> string) (bridge : option ApiKeyModal.AiStudio)
    (m : AppMachine.Shell) (script : string) (options : GenerationOptions)
    (data : Js.Value) (clock : App.Clock) :
  App.appState (AppMachine.state m) = UPLOAD →
  App.handleGenerate_guard (AppMachine.world m) = false →
  AppMachine.arrays m !! AppMachine.current m
  = Some (App.history (AppMachine.state m)) →
  App.history (AppMachine.state m) ≠ [] →
  let shown := HistoryList.render (App.history (AppMachine.state m)) in
  ∃ cleared m' entry,
    AppMachine.run trim bridge m
      [AppMachine.Submit (InText script) options; AppMachine.ClickHistory;
       AppMachine.ClickClearAll] = Some cleared
    ∧ App.history (AppMachine.state cleared) = []
    ∧ cinescript_history_v2 (AppMachine.disk cleared) = None
    ∧ AppMachine.step trim bridge cleared
        (AppMachine.StoryboardSettled (length (AppMachine.jobs m)) (inr data)
           clock) = Some m'
    ∧ App.history (AppMachine.state m') = entry :: shown
    ∧ cinescript_history_v2 (AppMachine.disk m') = Some (entry :: shown)
    ∧ SavedStoryboard.data entry = data
    ∧ App.appState (AppMachine.state m') = STORYBOARD.
Proof.
  intros Hscreen Hguard Harr Hne shown.
  assert (Hlt : AppMachine.current m < length (AppMachine.arrays m))
    by (by eapply lookup_lt_Some).
  assert (Hshown : ∃ x rest, shown = x :: rest).
  { unfold shown. destruct (App.history (AppMachine.state m)) as [|x l] eqn:Hh;
      [done|].
    destruct (HistoryList.render (x :: l)) as [|y rest] eqn:Hr;
      [|by eexists _, _].
    pose proof (Array_sort_Permutation SavedStoryboard.timestamp (x :: l)) as Hp.
    rewrite render_Array_sort in Hr.
    unfold HistoryList.by_timestamp_desc in Hr. rewrite Hr in Hp.
    by apply Permutation_nil_cons in Hp. }
  destruct Hshown as (x & rest & Hshown).
  set (j := {| AppMachine.job_input := InText script;
               AppMachine.job_options := options;
               AppMachine.job_history := AppMachine.current m;
               AppMachine.job_data := None |}).
  set (s1 := App.handleGenerate_begin (InText script) options
               (AppMachine.state m)).
  set (m1 := AppMachine.with_jobs (AppMachine.jobs m ++ [j])
               (AppMachine.update s1 m)).
  assert (H1 : AppMachine.step trim bridge m
                 (AppMachine.Submit (InText script) options) = Some m1).
  { unfold AppMachine.step, AppMachine.handle. rewrite Hscreen.
    unfold AppMachine.begin. rewrite Hguard. reflexivity. }
  set (s2 := App.setHistory shown (App.setAppState HISTORY s1)).
  set (m2 := {| AppMachine.env := AppMachine.env m;
                AppMachine.disk := AppMachine.disk m;
                AppMachine.state := s2;
                AppMachine.arrays :=
                  <[AppMachine.current m := shown]> (AppMachine.arrays m);
                AppMachine.current := AppMachine.current m;
                AppMachine.jobs := AppMachine.jobs m ++ [j];
                AppMachine.panel := AppMachine.panel m |}).
  assert (H2 : AppMachine.step trim bridge m1 AppMachine.ClickHistory
               = Some m2) by reflexivity.
  clearbody shown. subst shown.
  set (arrays2 := <[AppMachine.current m := x :: rest]> (AppMachine.arrays m))
    in *.
  set (m3 := {| AppMachine.env := AppMachine.env m;
                AppMachine.disk := App.store_history None (AppMachine.disk m);
                AppMachine.state := App.setHistory [] (App.setHistory [] s2);
                AppMachine.arrays :=
                  <[length arrays2 := []]> (arrays2 ++ [[]]);
                AppMachine.current := length arrays2;
                AppMachine.jobs := AppMachine.jobs m ++ [j];
                AppMachine.panel := AppMachine.panel m |}).
  assert (H3 : AppMachine.step trim bridge m2 AppMachine.ClickClearAll
               = Some m3) by reflexivity.
  assert (Hjob : AppMachine.jobs m3 !! length (AppMachine.jobs m) = Some j).
  { change (AppMachine.jobs m3) with (AppMachine.jobs m ++ [j]).
    by rewrite lookup_app_r, Nat.sub_diag. }
  assert (Hold : AppMachine.array (AppMachine.job_history j) m3 = x :: rest).
  { unfold AppMachine.array.
    change (AppMachine.arrays m3)
      with (<[length arrays2 := []]> (arrays2 ++ [[]])).
    change (AppMachine.job_history j) with (AppMachine.current m).
    assert (Hlen : length arrays2 = length (AppMachine.arrays m))
      by apply length_insert.
    rewrite list_lookup_insert_ne by lia.
    rewrite lookup_app_l by lia.
    unfold arrays2. by rewrite list_lookup_insert_eq. }
  exists m3. eexists. eexists.
  split.
  { by rewrite (run_step _ _ _ _ _ _ H1), (run_step _ _ _ _ _ _ H2),
      (run_step _ _ _ _ _ _ H3). }
  split; [reflexivity|]. split; [reflexivity|].
  split.
  { unfold AppMachine.step, AppMachine.handle. rewrite Hjob. simpl mbind.
    change (AppMachine.job_data j) with (@None Js.Value).
    change (AppMachine.job_input j) with (InText script).
    cbv iota beta. unfold AppMachine.save.
    change (AppMachine.job_history j) with (AppMachine.current m) in *.
    change (AppMachine.array (AppMachine.current m)
              (AppMachine.update
                 (App.setStoryboardData (Some data)
                    (App.setHistory [] (App.setHistory [] s2))) m3))
      with (AppMachine.array (AppMachine.current m) m3).
    rewrite Hold. reflexivity. }
  split; [reflexivity|]. split; [reflexivity|].
  split; reflexivity.
Qed.

Lemma cleared_history_returns_witness :
  let m := SampleMachine.mounted in
  App.history (AppMachine.state m) ≠ []
  ∧ ∃ cleared m',
      AppMachine.run (fun k => k) None m
        [AppMachine.Submit (InText "rain") Sample.options_16x9;
         AppMachine.ClickHistory; AppMachine.ClickClearAll] = Some cleared
      ∧ App.history (AppMachine.state cleared) = []
      ∧ AppMachine.step (fun k => k) None cleared
          (AppMachine.StoryboardSettled 0 (inr Sample.echo_9x16_value)
             SampleShell.clock) = Some m'
      ∧ length (App.history (AppMachine.state m')) = 4.
Proof.
  intros m. split; [discriminate|].
  destruct (cleared_history_returns (fun k => k) None m "rain"
              Sample.options_16x9 Sample.echo_9x16_value SampleShell.clock
              eq_refl eq_refl eq_refl)
    as (cleared & m' & entry & Hrun & Hempty & _ & Hstep & Hhist & _);
    [discriminate|].
  exists cleared, m'. split; [exact Hrun|]. split; [exact Hempty|].
  split; [exact Hstep|]. by rewrite Hhist.
Defined.
